(** * The PyBaMM overview notebooks

    The repository holds two Jupyter notebooks, [src/pybamm.ipynb] and a
    second copy of the same tutorial.  Their code cells are straight-line
    Python over the external [pybamm] package.  This development

    - transcribes the cells of both notebooks (kind and source text),
    - tokenises the source text of the code cells the way Python does
      (names, numbers, strings, operators, NEWLINE / INDENT / DEDENT),
    - gives the abstract syntax of the twelve code cells and checks it
      against the tokens of the text,
    - runs the cells with a definitional interpreter over a store of
      Python objects, logging every call into the library, and
    - proves the properties of the notebooks from these. *)

From Stdlib Require Import ZArith NArith Ascii String DecimalString.
From stdpp Require Import base decidable option strings list gmap.

#[local] Set Warnings "-register-all".


Local Open Scope string_scope.
Local Open Scope list_scope.

(** ** Source text *)

(** The double quote and the tab, spelled by their codes. *)
Definition dq : string := String "034"%char EmptyString.
Definition tab : string := String "009"%char EmptyString.
Definition nl : string := String "010"%char EmptyString.

(** [quoted s] is the Python string literal text: s between double quotes. *)
Definition quoted (s : string) : string := dq +:+ s +:+ dq.

(** A cell of a notebook: its [cell_type] and its [source].  The source is
    kept as its lines, without the line terminators: the text of the cell
    is the lines joined by line feeds.  Execution counts, stored outputs
    and notebook metadata are records of a past run, not program text, and
    are not part of the model. *)
Inductive cell : Type :=
| markdown (source : list string)
| code (source : list string).

Definition notebook : Type := list cell.

Definition source (c : cell) : list string :=
  match c with markdown s => s | code s => s end.

Definition is_code (c : cell) : bool :=
  match c with code _ => true | markdown _ => false end.

Definition is_markdown (c : cell) : bool := negb (is_code c).

(** The sources of the code cells, in notebook order. *)
Definition code_cells (nb : notebook) : list (list string) :=
  omap (fun c => match c with code s => Some s | markdown _ => None end) nb.

Definition text (src : list string) : string := String.concat nl src.

(** ** The notebooks, cell by cell *)

(** [src/pybamm.ipynb] *)
Definition pybamm_ipynb : notebook :=
  [ markdown
    [ "";
      "# PyBaMM: A High-Level Overview";
      "";
      "PyBaMM (Python Battery Mathematical Modelling) is an open-source battery simulation package written in Python. Our mission is to accelerate battery modelling research by providing open-source tools for multi-institutional, interdisciplinary collaboration. Broadly, PyBaMM consists of";
      "";
      "- a framework for writing and solving systems of differential equations,";
      "- a library of battery models and parameters, and";
      "- specialized tools for simulating battery-specific experiments and visualizing the results.";
      "";
      "Together, these enable flexible model definitions and fast battery simulations, allowing users to explore the effect of different battery designs and modeling assumptions under a variety of operating scenarios." ];

    code
    [ "import pybamm" ];

    markdown
    [ "# Solving Battery models";
      "";
      "PyBamm has three different base models:";
      "- Single Particle Model (SPM)";
      "- Single Particle Model with Electrolyte (SPMe)";
      "- Doyle-Fuller-Newman (DFN) model";
      "";
      "Simulating from any of these models is straightforward in Python. As a very first example, we will run the Doyle-Fuller-Newman (DFN) model with all the basic settings " ];

    code
    [ "model = pybamm.lithium_ion.DFN()" ];

    markdown
    [ "The next step is to create a pybamm.Simulation to process the model and make it ready to be solved:" ];

    code
    [ "simulation = pybamm.Simulation(model)" ];

    markdown
    [ "The simulation can be solved by calling the `solve` method in the simulation object. The method takes an argument which should be the time interval to solve for in seconds (here we do 1 hour, as the default setup is a 1C discharge):" ];

    code
    [ "simulation.solve([0, 3600])" ];

    markdown
    [ "Now that the simulation has been solved, we can simply call the `plot` method to generate an interactive plot of the key variables:";
      "" ];

    code
    [ "simulation.plot()" ];

    markdown
    [ "# Comparing Models";
      "";
      "We have seen how to run a simulation of the DFN model, but PyBaMM includes many other standard electrochemical models and makes comparing their outputs very easy. Let’s now compare the DFN model with the Single Particle Model (SPM) and the Single Particle Model with electrolyte (SPMe). We can leverage the functionality of Python lists to do so." ];

    code
    [ "models = [";
      tab +:+ "pybamm.lithium_ion.SPM(),";
      tab +:+ "pybamm.lithium_ion.SPMe(),";
      tab +:+ "pybamm.lithium_ion.DFN(),";
      "]";
      "simulations = []";
      "for model in models:";
      tab +:+ "simulation = pybamm.Simulation(model)";
      tab +:+ "simulation.solve([0, 3600])";
      tab +:+ "simulations.append(simulation)";
      "pybamm.dynamic_plot(simulations)";
      "" ];

    markdown
    [ "## Changing the parameters";
      "";
      "When running our simulations we have been using the default parameter values, which might not match the battery we want to simulate. PyBaMM has a number of in-built parameter sets (check the list [here](https://docs.pybamm.org/en/latest/source/api/parameters/parameter_sets.html)) that we can use. For example, to use the Chen et al (2020) parameter set we can use." ];

    code
    [ "parameter_values = pybamm.ParameterValues(" +:+ quoted "Chen2020" +:+ ")";
      "print(parameter_values)" ];

    markdown
    [ "We can update the parameters of the model using this instance of `pybamm.ParameterValues`." ];

    code
    [ "parameter_values[" +:+ quoted "Current function [A]" +:+ "] = 2.0";
      "sim = pybamm.Simulation(model, parameter_values=parameter_values)";
      "sim.solve([0, 3600])" ];

    markdown
    [ "## Using input parameters";
      "";
      "Pybamm's parameter sets contain all the parameters needed to run a simulation, but often you want to see how the solution changes with respect to a single parameter or a small subset of parameters. You can use input parameters to create a model that can be easily and efficiently solved again for different parameter values.";
      "";
      "This is also very useful for parameter inference. Here we show an example using a parameter sweep." ];

    code
    [ "parameter_values = pybamm.ParameterValues(" +:+ quoted "Chen2020" +:+ ")";
      "parameter_values[" +:+ quoted "Current function [A]" +:+ "] = " +:+ quoted "[input]";
      "model = pybamm.lithium_ion.SPM()";
      "sim = pybamm.Simulation(model, parameter_values=parameter_values)";
      "";
      "solutions = []";
      "labels = []";
      "for i in range(1, 5):";
      "    sol = sim.solve([0, 3600], inputs={ " +:+ quoted "Current function [A]" +:+ ": i})";
      "    solutions.append(sol)";
      "    labels.append(f" +:+ quoted "Current = {i} [A]" +:+ ")";
      "pybamm.dynamic_plot(solutions, labels=labels)";
      "    ";
      "";
      "" ];

    markdown
    [ "## Submodels: Plug-and-play physics";
      "";
      "One of the main features of PyBaMM is its modular structure that allows for plug and play models. At the core, all models in PyBaMM are built as a collection of submodels, where a submodel determines a specific subset of the physics. For example, the particle submodel would specify how lithium is transported in the particles. ";
      "";
      "The full list of submodels can be found in the [PyBaMM docs](https://docs.pybamm.org/en/latest/source/api/models/submodels/index.html). You can check which submodels a given model uses by calling";
      "" ];

    code
    [ "model.submodels" ];

    markdown
    [ "## Thermal models";
      "";
      "For example, we can consider the thermal models in PyBaMM. These models account for the changes in the temperature caused by the operation of the battery. The thermal models available in PyBaMM are:";
      "";
      "* **Isothermal**: temperature stays constant.";
      "* **Lumped**: the temperature is taken to be homogeneous in the battery, so only the average temperature is computed.";
      "* **X-lumped**: the temperature is taken to be homogeneous across the thickness of the cell, but can vary in the directions parallel to the current collectors. Need to be used in conjunction with a current collector model.";
      "* **X-full**: the temperature is allowed to vary across the thickness of the cell.";
      "";
      "More information on the thermal models can be found in [the documentation](https://docs.pybamm.org/en/latest/source/examples/notebooks/models/thermal-models.html).";
      "";
      "Below we compare the results of the DFN model with isothermal and x-full. What differences do you observe in the models?" ];

    code
    [ "thermal_options = [" +:+ quoted "isothermal" +:+ ", " +:+ quoted "x-full" +:+ "]";
      "solutions = []";
      "";
      "for option in thermal_options:";
      tab +:+ "model = pybamm.lithium_ion.DFN(name=option, options={" +:+ quoted "thermal" +:+ ": option})";
      tab +:+ "simulation = pybamm.Simulation(model)";
      tab +:+ "solutions.append(simulation.solve([0, 3600]))";
      "";
      "pybamm.dynamic_plot(";
      "    solutions,";
      "    output_variables=[";
      "        " +:+ quoted "Negative particle surface concentration [mol.m-3]" +:+ ",";
      "        " +:+ quoted "Electrolyte concentration [mol.m-3]" +:+ ",";
      "        " +:+ quoted "Positive particle surface concentration [mol.m-3]" +:+ ",";
      "        " +:+ quoted "Negative electrode potential [V]" +:+ ",";
      "        " +:+ quoted "Electrolyte potential [V]" +:+ ",";
      "        " +:+ quoted "Positive electrode potential [V]" +:+ ",";
      "        " +:+ quoted "Current [A]" +:+ ",";
      "        " +:+ quoted "Voltage [V]" +:+ ",";
      "        " +:+ quoted "Cell temperature [K]" +:+ ",";
      "    ],";
      "  )" ];

    markdown
    [ "We observe that the temperature in the isothermal model remains constant, while for the x-full model the temperature rises almost 20 K. Despite being a spatial-dependent model, the temperature gradients are negligible, which is reasonable given how thin the cell is. We also observe that the voltage for the isothermal case is lower than for the temperature dependent one, given that at higher temperatures the overpotentials are smaller." ];

    markdown
    [ "## Particle mechanics";
      "";
      "As another example, we consider the models for particle mechanics. These models account for the deformation and cracking on the particles. The models available in PyBaMM are";
      "";
      "* None: no mechanical effects included.";
      "* Swelling only: accounts for the deformation of the particles in the lithiation-delithiation cycle.";
      "* Swelling and cracking: accounts for the swelling and also the crack formation on the particle surface.";
      "";
      "Here we run the DFN model with swelling in the negative electrode and swelling and cracking in the positive electrode. Plot the relevant variables, and recall that you can find the list of variables to plot by typing `model.variable_names()`. What do you observe in the model?";
      "" ];

    code
    [ "model = pybamm.lithium_ion.DFN(";
      "    options={" +:+ quoted "particle mechanics" +:+ ": (" +:+ quoted "swelling only" +:+ ", " +:+ quoted "swelling and cracking" +:+ ")}";
      ")";
      "parameter_values = pybamm.ParameterValues(" +:+ quoted "Ai2020" +:+ ")";
      "simulation = pybamm.Simulation(model, parameter_values=parameter_values)";
      "solution = simulation.solve([0, 3600])";
      "";
      "solution.plot([";
      "    " +:+ quoted "Negative particle surface radial stress [Pa]" +:+ ",";
      "    " +:+ quoted "Negative particle surface tangential stress [Pa]" +:+ ",";
      "    " +:+ quoted "Negative particle surface displacement [m]" +:+ ",";
      tab +:+ quoted "Negative particle crack length [m]" +:+ ",";
      "    " +:+ quoted "Positive particle surface radial stress [Pa]" +:+ ",";
      "    " +:+ quoted "Positive particle surface tangential stress [Pa]" +:+ ",";
      "    " +:+ quoted "Positive particle surface displacement [m]" +:+ ",";
      "    " +:+ quoted "Positive particle crack length [m]" +:+ ",";
      "])" ];

    markdown
    [ "A few key observations are that the surface radial stress is always zero. As expected, there is no cracking in the negative electrode (we did not enable that option) but there is cracking in the positive one. " ] ].

(** The second notebook file of the repository. *)
Definition part_000 : notebook :=
  [ markdown
    [ "";
      "# PyBaMM: A High-Level Overview";
      "";
      "PyBaMM (Python Battery Mathematical Modelling) is an open-source battery simulation package written in Python. Our mission is to accelerate battery modelling research by providing open-source tools for multi-institutional, interdisciplinary collaboration. Broadly, PyBaMM consists of";
      "";
      "- a framework for writing and solving systems of differential equations,";
      "- a library of battery models and parameters, and";
      "- specialized tools for simulating battery-specific experiments and visualizing the results.";
      "";
      "Together, these enable flexible model definitions and fast battery simulations, allowing users to explore the effect of different battery designs and modeling assumptions under a variety of operating scenarios." ];

    code
    [ "import pybamm" ];

    markdown
    [ "# Solving Battery models";
      "";
      "PyBamm has three different base models:";
      "- Single Particle Model (SPM)";
      "- Single Particle Model with Electrolyte (SPMe)";
      "- Doyle-Fuller-Newman (DFN) model";
      "";
      "Simulating from any of these models is straightforward in Python. As a very first example, we will run the Doyle-Fuller-Newman (DFN) model with all the default settings " ];

    code
    [ "model = pybamm.lithium_ion.DFN()" ];

    markdown
    [ "The next step is to create a `pybamm.Simulation` to process the model and make it ready to be solved:" ];

    code
    [ "simulation = pybamm.Simulation(model)" ];

    markdown
    [ "The simulation can be solved by calling the `solve` method in the simulation object. The method takes an argument which should be the time interval to solve for in seconds (here we do 1 hour, as the default setup is a 1C discharge):" ];

    code
    [ "simulation.solve([0, 3600])" ];

    markdown
    [ "Now that the simulation has been solved, we can simply call the `plot` method to generate an interactive plot of the key variables:";
      "" ];

    code
    [ "simulation.plot()" ];

    markdown
    [ "# Comparing Models";
      "";
      "We have seen how to run a simulation of the DFN model, but PyBaMM includes many other standard electrochemical models and makes comparing their outputs very easy. Let’s now compare the DFN model with the Single Particle Model (SPM) and the Single Particle Model with electrolyte (SPMe). We can leverage the functionality of Python lists to do so." ];

    code
    [ "models = [";
      tab +:+ "pybamm.lithium_ion.SPM(),";
      tab +:+ "pybamm.lithium_ion.SPMe(),";
      tab +:+ "pybamm.lithium_ion.DFN(),";
      "]";
      "simulations = []";
      "for model in models:";
      tab +:+ "simulation = pybamm.Simulation(model)";
      tab +:+ "simulation.solve([0, 3600])";
      tab +:+ "simulations.append(simulation)";
      "pybamm.dynamic_plot(simulations)";
      "" ];

    markdown
    [ "## Changing the parameters";
      "";
      "When running our simulations we have been using the default parameter values, which might not match the battery we want to simulate. PyBaMM has a number of in-built parameter sets (check the list [here](https://docs.pybamm.org/en/latest/source/api/parameters/parameter_sets.html)) that we can use. For example, to use the Chen et al (2020) parameter set:" ];

    code
    [ "parameter_values = pybamm.ParameterValues(" +:+ quoted "Chen2020" +:+ ")";
      "print(parameter_values)" ];

    markdown
    [ "We can update the parameters of the model using this instance of `pybamm.ParameterValues`." ];

    code
    [ "parameter_values[" +:+ quoted "Current function [A]" +:+ "] = 2.0";
      "sim = pybamm.Simulation(model, parameter_values=parameter_values)";
      "sim.solve([0, 3600])" ];

    markdown
    [ "## Using input parameters";
      "";
      "Pybamm's parameter sets contain all the parameters needed to run a simulation, but often you want to see how the solution changes with respect to a single parameter or a small subset of parameters. You can use input parameters to create a model that can be easily and efficiently solved again for different parameter values.";
      "";
      "This is also very useful for parameter inference. Here we show an example using a parameter sweep." ];

    code
    [ "parameter_values = pybamm.ParameterValues(" +:+ quoted "Chen2020" +:+ ")";
      "parameter_values[" +:+ quoted "Current function [A]" +:+ "] = " +:+ quoted "[input]";
      "model = pybamm.lithium_ion.SPM()";
      "sim = pybamm.Simulation(model, parameter_values=parameter_values)";
      "";
      "solutions = []";
      "labels = []";
      "for i in range(1, 5):";
      "    sol = sim.solve([0, 3600], inputs={ " +:+ quoted "Current function [A]" +:+ ": i})";
      "    solutions.append(sol)";
      "    labels.append(f" +:+ quoted "Current = {i} [A]" +:+ ")";
      "pybamm.dynamic_plot(solutions, labels=labels)";
      "    ";
      "";
      "" ];

    markdown
    [ "## Submodels: Plug-and-play physics";
      "";
      "One of the main features of PyBaMM is its modular structure that allows for plug and play models. At the core, all models in PyBaMM are built as a collection of submodels, where a submodel determines a specific subset of the physics. For example, the particle submodel would specify how lithium is transported in the particles. ";
      "";
      "The full list of submodels can be found in the [PyBaMM docs](https://docs.pybamm.org/en/latest/source/api/models/submodels/index.html). You can check which submodels a given model uses by calling";
      "" ];

    code
    [ "model.submodels" ];

    markdown
    [ "## Thermal models";
      "";
      "For example, we can consider the thermal models in PyBaMM. These models account for the changes in the temperature caused by the operation of the battery. The thermal models available in PyBaMM are:";
      "";
      "* **Isothermal**: temperature stays constant.";
      "* **Lumped**: the temperature is taken to be homogeneous in the battery, so only the average temperature is computed.";
      "* **X-lumped**: the temperature is taken to be homogeneous across the thickness of the cell, but can vary in the directions parallel to the current collectors. Need to be used in conjunction with a current collector model.";
      "* **X-full**: the temperature is allowed to vary across the thickness of the cell.";
      "";
      "More information on the thermal models can be found in [the documentation](https://docs.pybamm.org/en/latest/source/examples/notebooks/models/thermal-models.html).";
      "";
      "Below we compare the results of the DFN model with isothermal and x-full. What differences do you observe in the models?" ];

    code
    [ "thermal_options = [" +:+ quoted "isothermal" +:+ ", " +:+ quoted "x-full" +:+ "]";
      "solutions = []";
      "";
      "for option in thermal_options:";
      tab +:+ "model = pybamm.lithium_ion.DFN(name=option, options={" +:+ quoted "thermal" +:+ ": option})";
      tab +:+ "simulation = pybamm.Simulation(model)";
      tab +:+ "solutions.append(simulation.solve([0, 3600]))";
      "";
      "pybamm.dynamic_plot(";
      "    solutions,";
      "    output_variables=[";
      "        " +:+ quoted "Negative particle surface concentration [mol.m-3]" +:+ ",";
      "        " +:+ quoted "Electrolyte concentration [mol.m-3]" +:+ ",";
      "        " +:+ quoted "Positive particle surface concentration [mol.m-3]" +:+ ",";
      "        " +:+ quoted "Negative electrode potential [V]" +:+ ",";
      "        " +:+ quoted "Electrolyte potential [V]" +:+ ",";
      "        " +:+ quoted "Positive electrode potential [V]" +:+ ",";
      "        " +:+ quoted "Current [A]" +:+ ",";
      "        " +:+ quoted "Voltage [V]" +:+ ",";
      "        " +:+ quoted "Cell temperature [K]" +:+ ",";
      "    ],";
      "  )" ];

    markdown
    [ "We observe that the temperature in the isothermal model remains constant, while for the x-full model the temperature rises almost 20 K. Despite being a spatial-dependent model, the temperature gradients are negligible, which is reasonable given how thin the cell is. We also observe that the voltage for the isothermal case is lower than for the temperature dependent one, given that at higher temperatures the overpotentials are smaller." ];

    markdown
    [ "## Particle mechanics";
      "";
      "As another example, we consider the models for particle mechanics. These models account for the deformation and cracking on the particles. The models available in PyBaMM are";
      "";
      "* None: no mechanical effects included.";
      "* Swelling only: accounts for the deformation of the particles in the lithiation-delithiation cycle.";
      "* Swelling and cracking: accounts for the swelling and also the crack formation on the particle surface.";
      "";
      "Here we run the DFN model with swelling in the negative electrode and swelling and cracking in the positive electrode. Plot the relevant variables, and recall that you can find the list of variables to plot by typing `model.variable_names()`. What do you observe in the model?";
      "" ];

    code
    [ "model = pybamm.lithium_ion.DFN(";
      "    options={" +:+ quoted "particle mechanics" +:+ ": (" +:+ quoted "swelling only" +:+ ", " +:+ quoted "swelling and cracking" +:+ ")}";
      ")";
      "parameter_values = pybamm.ParameterValues(" +:+ quoted "Ai2020" +:+ ")";
      "simulation = pybamm.Simulation(model, parameter_values=parameter_values)";
      "solution = simulation.solve([0, 3600])";
      "";
      "solution.plot([";
      "    " +:+ quoted "Negative particle surface radial stress [Pa]" +:+ ",";
      "    " +:+ quoted "Negative particle surface tangential stress [Pa]" +:+ ",";
      "    " +:+ quoted "Negative particle surface displacement [m]" +:+ ",";
      tab +:+ quoted "Negative particle crack length [m]" +:+ ",";
      "    " +:+ quoted "Positive particle surface radial stress [Pa]" +:+ ",";
      "    " +:+ quoted "Positive particle surface tangential stress [Pa]" +:+ ",";
      "    " +:+ quoted "Positive particle surface displacement [m]" +:+ ",";
      "    " +:+ quoted "Positive particle crack length [m]" +:+ ",";
      "])" ];

    markdown
    [ "A few key observations are that the surface radial stress is always zero. As expected, there is no cracking in the negative electrode (we did not enable that option) but there is cracking in the positive one. " ];

    markdown
    [ "## Where to get help / more information";
      "";
      "This notebook is just a very brief overview of PyBaMM. For more information, please see:";
      "";
      "- Documentation:";
      "  - [PyBaMM website](https://pybamm.org/)";
      "  - [PyBaMM documentation](https://docs.pybamm.org/en/latest/)";
      "  - [PyBaMM API documentation](https://docs.pybamm.org/en/latest/source/api/index.html)";
      "- Community";
      "  - [PyBaMM github](https://github.com/pybamm-team/PyBaMM/)";
      "    - For questions, use the ";
      "      [discussions](https://github.com/pybamm-team/PyBaMM/discussions)";
      "    - For Bugs, Feature Requests, etc. look at the ";
      "      [issues](https://github.com/pybamm-team/PyBaMM/issues)";
      "  - [PyBaMM Slack](https://pybamm.slack.com/)";
      "  - Monthly public development meetings (see #general on Slack for invite + agenda ";
      "    links)";
      "  ";
      "## Contributing to PyBaMM";
      "";
      "- PyBaMM is an open-source project, and we welcome contributions from the community";
      "- Many ways to contribute: reporting bugs, improving the documentation, submitting ";
      "  feature requests, or writing code.";
      "- If you are interested in contributing code, please see the [contributing ";
      "  guide](https://github.com/pybamm-team/PyBaMM/blob/develop/CONTRIBUTING.md)" ] ].

(** ** Tokens *)

Inductive token : Type :=
| NAME (s : string)                    (* identifiers and keywords *)
| NUMBER (lexeme : string)
| STRING (prefix : string) (body : string)
| OP (s : string)
| NEWLINE
| INDENT
| DEDENT
| ERRORTOKEN (msg : string).

#[global] Instance token_eq_dec : EqDecision token.
Proof. solve_decision. Defined.

Definition char_in (lo hi c : ascii) : bool :=
  ((N_of_ascii lo <=? N_of_ascii c) && (N_of_ascii c <=? N_of_ascii hi))%N.

Definition is_digit (c : ascii) : bool := char_in "0" "9" c.

Definition is_name_start (c : ascii) : bool :=
  char_in "a" "z" c || char_in "A" "Z" c || Ascii.eqb c "_"
  || (128 <=? N_of_ascii c)%N.

Definition is_name_char (c : ascii) : bool := is_name_start c || is_digit c.

Definition is_quote (c : ascii) : bool :=
  Ascii.eqb c "034" || Ascii.eqb c "'".

Definition is_blank (c : ascii) : bool :=
  Ascii.eqb c " " || Ascii.eqb c "009" || Ascii.eqb c "013" || Ascii.eqb c "012".

Definition is_open (c : ascii) : bool :=
  Ascii.eqb c "(" || Ascii.eqb c "[" || Ascii.eqb c "{".

Definition is_close (c : ascii) : bool :=
  Ascii.eqb c ")" || Ascii.eqb c "]" || Ascii.eqb c "}".

Definition string_prefixes : list string :=
  ["f"; "F"; "r"; "R"; "b"; "B"; "u"; "U"; "rb"; "br"; "fr"; "rf"].

Definition two_char_ops : list string :=
  ["=="; "!="; "<="; ">="; "**"; "//"; "->"; "+="; "-="; "*="; "/="; "<<";
   ">>"; ":="; "%="; "|="; "&="; "^="; "@="].

Definition snoc (s : string) (c : ascii) : string := s +:+ String c EmptyString.

Definition last_char (s : string) : option ascii :=
  match String.length s with
  | O => None
  | S n => String.get n s
  end.

(** What the tokeniser is in the middle of. *)
Inductive mode : Type :=
| LineStart (col : nat)       (* measuring the indentation of a line *)
| Between                     (* inside a logical line, between tokens *)
| InName (acc : string)
| InNumber (acc : string)
| InString (prefix : string) (quote : ascii) (acc : string) (escaped : bool)
| InComment (blank_line : bool)
| SkipOne.                    (* second character of a two-character token *)

Record lexer : Type := Lexer {
  lx_mode : mode;
  lx_depth : nat;             (* open brackets: line ends inside them do not count *)
  lx_indents : list nat;      (* the indentation stack, innermost first, 0 left out *)
  lx_out : list token
}.

Definition lexer_start : lexer := Lexer (LineStart 0) 0 [] [].

Definition set_mode (m : mode) (L : lexer) : lexer :=
  Lexer m (lx_depth L) (lx_indents L) (lx_out L).

Definition emit (t : token) (L : lexer) : lexer :=
  Lexer (lx_mode L) (lx_depth L) (lx_indents L) (lx_out L ++ [t]).

Definition set_depth (d : nat) (L : lexer) : lexer :=
  Lexer (lx_mode L) d (lx_indents L) (lx_out L).

(** Pop the indentation levels deeper than [col], one DEDENT each; a line
    that returns to no enclosing level is an indentation error. *)
Fixpoint dedent (col : nat) (indents : list nat) (out : list token)
  : list nat * list token :=
  match indents with
  | i :: rest =>
      if (col <? i)%nat then dedent col rest (out ++ [DEDENT])
      else if (col =? i)%nat then (indents, out)
      else (indents, out ++ [ERRORTOKEN "unindent does not match"])
  | [] =>
      if (col =? 0)%nat then ([], out)
      else ([], out ++ [ERRORTOKEN "unindent does not match"])
  end.

(** The first token of a logical line at column [col]. *)
Definition open_line (col : nat) (L : lexer) : lexer :=
  let top := hd 0%nat (lx_indents L) in
  if (top <? col)%nat
  then Lexer Between (lx_depth L) (col :: lx_indents L) (lx_out L ++ [INDENT])
  else let '(ind, out) := dedent col (lx_indents L) (lx_out L) in
       Lexer Between (lx_depth L) ind out.

(** A character met between tokens; [next] is the one after it. *)
Definition begin_token (c : ascii) (next : option ascii) (L : lexer) : lexer :=
  let pair := String c (match next with Some d => String d EmptyString | None => EmptyString end) in
  if is_blank c then L
  else if Ascii.eqb c "010" then
    match lx_depth L with
    | O => set_mode (LineStart 0) (emit NEWLINE L)
    | S _ => L
    end
  else if Ascii.eqb c "#" then set_mode (InComment false) L
  else if Ascii.eqb c "\" then set_mode SkipOne L
  else if is_name_start c then set_mode (InName (String c EmptyString)) L
  else if is_digit c then set_mode (InNumber (String c EmptyString)) L
  else if Ascii.eqb c "." && from_option is_digit false next
  then set_mode (InNumber (String c EmptyString)) L
  else if is_quote c then set_mode (InString EmptyString c EmptyString false) L
  else if is_open c then set_depth (S (lx_depth L)) (emit (OP (String c EmptyString)) L)
  else if is_close c then set_depth (pred (lx_depth L)) (emit (OP (String c EmptyString)) L)
  else if bool_decide (pair ∈ two_char_ops) then set_mode SkipOne (emit (OP pair) L)
  else emit (OP (String c EmptyString)) L.

Definition step (c : ascii) (next : option ascii) (L : lexer) : lexer :=
  match lx_mode L with
  | LineStart col =>
      if Ascii.eqb c " " then set_mode (LineStart (S col)) L
      else if Ascii.eqb c "009" then set_mode (LineStart ((col / 8 + 1) * 8)) L
      else if Ascii.eqb c "010" then set_mode (LineStart 0) L
      else if Ascii.eqb c "013" || Ascii.eqb c "012" then L
      else if Ascii.eqb c "#" then set_mode (InComment true) L
      else if lx_depth L is O then begin_token c next (open_line col L)
      else begin_token c next (set_mode Between L)
  | Between => begin_token c next L
  | InName acc =>
      if is_name_char c then set_mode (InName (snoc acc c)) L
      else if is_quote c && bool_decide (acc ∈ string_prefixes)
      then set_mode (InString acc c EmptyString false) L
      else begin_token c next (set_mode Between (emit (NAME acc) L))
  | InNumber acc =>
      if is_name_char c || Ascii.eqb c "."
         || ((Ascii.eqb c "+" || Ascii.eqb c "-")
             && bool_decide (last_char acc ∈ [Some "e"%char; Some "E"%char]))
      then set_mode (InNumber (snoc acc c)) L
      else begin_token c next (set_mode Between (emit (NUMBER acc) L))
  | InString p q acc esc =>
      if esc then set_mode (InString p q (snoc acc c) false) L
      else if Ascii.eqb c "\" then set_mode (InString p q (snoc acc c) true) L
      else if Ascii.eqb c q then set_mode Between (emit (STRING p acc) L)
      else if Ascii.eqb c "010"
      then set_mode Between (emit (ERRORTOKEN "unterminated string literal") L)
      else set_mode (InString p q (snoc acc c) false) L
  | InComment blank =>
      if Ascii.eqb c "010"
      then if blank then set_mode (LineStart 0) L
           else begin_token c next (set_mode Between L)
      else L
  | SkipOne => set_mode Between L
  end.

Definition peek (s : string) : option ascii :=
  match s with String c _ => Some c | EmptyString => None end.

Fixpoint lex (s : string) (L : lexer) : lexer :=
  match s with
  | EmptyString => L
  | String c rest => lex rest (step c (peek rest) L)
  end.

(** End of input: the token in progress is closed, an unfinished logical
    line gets its NEWLINE, and every open indentation level its DEDENT. *)
Definition finish (L : lexer) : list token :=
  let out := lx_out L in
  let out :=
    match lx_mode L with
    | InName acc => out ++ [NAME acc; NEWLINE]
    | InNumber acc => out ++ [NUMBER acc; NEWLINE]
    | InString _ _ _ _ => out ++ [ERRORTOKEN "unterminated string literal"; NEWLINE]
    | Between | SkipOne | InComment false => out ++ [NEWLINE]
    | LineStart _ | InComment true => out
    end in
  out ++ replicate (length (lx_indents L)) DEDENT.

Definition tokenize (src : list string) : list token :=
  finish (lex (text src) lexer_start).

(** A comma before a closing bracket ends a list, call or dictionary
    display without adding an element. *)
Fixpoint strip_trailing_commas (ts : list token) : list token :=
  match ts with
  | [] => []
  | t :: rest =>
      match t, rest with
      | OP ",", OP c :: _ =>
          if bool_decide (c ∈ [")"; "]"; "}"])
          then strip_trailing_commas rest
          else t :: strip_trailing_commas rest
      | _, _ => t :: strip_trailing_commas rest
      end
  end.

(** ** Abstract syntax of the code cells

    The statements and expressions the cells are written in, named after
    the nodes of Python's [ast] module. *)

Inductive constant : Type :=
| CInt (n : Z)
| CFloat (lexeme : string)     (* a float, denoted by its literal *)
| CStr (s : string).

(** A piece of an f-string: literal text, or a replacement field holding a
    variable. *)
Inductive fpart : Type :=
| FText (s : string)
| FValue (id : string).

Inductive expr : Type :=
| EName (id : string)
| EConst (c : constant)
| EFString (parts : list fpart)                      (* JoinedStr *)
| EList (elts : list expr)
| ETuple (elts : list expr)
| EDict (items : list (expr * expr))
| EAttr (value : expr) (attr : string)               (* value.attr *)
| ECall (func : expr) (args : list expr) (keywords : list (string * expr)).

Inductive target : Type :=
| TName (id : string)                                (* id = ... *)
| TSubscript (value : expr) (key : expr).            (* value[key] = ... *)

Inductive stmt : Type :=
| SImport (module : string)
| SAssign (tgt : target) (value : expr)
| SExpr (value : expr)
| SFor (id : string) (iter : expr) (body : list stmt).

Definition int (n : Z) : expr := EConst (CInt n).
Definition str (s : string) : expr := EConst (CStr s).
Definition float (lexeme : string) : expr := EConst (CFloat lexeme).

(** *** From syntax back to tokens *)

Definition string_of_Z (n : Z) : string := NilZero.string_of_int (Z.to_int n).

Fixpoint commas (items : list (list token)) : list token :=
  match items with
  | [] => []
  | [ts] => ts
  | ts :: rest => ts ++ OP "," :: commas rest
  end.

Definition unparse_constant (c : constant) : list token :=
  match c with
  | CInt n => if (n <? 0)%Z then [OP "-"; NUMBER (string_of_Z (- n))]
              else [NUMBER (string_of_Z n)]
  | CFloat lexeme => [NUMBER lexeme]
  | CStr s => [STRING "" s]
  end.

Definition unparse_fpart (p : fpart) : string :=
  match p with
  | FText s => s
  | FValue id => "{" +:+ id +:+ "}"
  end.

Fixpoint unparse (e : expr) : list token :=
  match e with
  | EName id => [NAME id]
  | EConst c => unparse_constant c
  | EFString parts => [STRING "f" (String.concat "" (map unparse_fpart parts))]
  | EList elts => OP "[" :: commas (map unparse elts) ++ [OP "]"]
  | ETuple elts =>
      OP "(" :: commas (map unparse elts)
        ++ (if bool_decide (length elts = 1%nat) then [OP ","; OP ")"] else [OP ")"])
  | EDict items =>
      OP "{" :: commas (map (fun kv => let '(k, v) := kv in
                                       unparse k ++ OP ":" :: unparse v) items)
        ++ [OP "}"]
  | EAttr value attr => unparse value ++ [OP "."; NAME attr]
  | ECall func args keywords =>
      unparse func ++ OP "(" ::
        commas (map unparse args
                ++ map (fun kw => let '(k, v) := kw in
                                  NAME k :: OP "=" :: unparse v) keywords)
        ++ [OP ")"]
  end.

Definition unparse_target (t : target) : list token :=
  match t with
  | TName id => [NAME id]
  | TSubscript value key => unparse value ++ OP "[" :: unparse key ++ [OP "]"]
  end.

Fixpoint unparse_stmt (s : stmt) : list token :=
  match s with
  | SImport module => [NAME "import"; NAME module; NEWLINE]
  | SAssign tgt value => unparse_target tgt ++ OP "=" :: unparse value ++ [NEWLINE]
  | SExpr value => unparse value ++ [NEWLINE]
  | SFor id iter body =>
      NAME "for" :: NAME id :: NAME "in" :: unparse iter
        ++ OP ":" :: NEWLINE :: INDENT :: concat (map unparse_stmt body) ++ [DEDENT]
  end.

Definition unparse_cell (c : list stmt) : list token := concat (map unparse_stmt c).

(** ** The twelve code cells *)

Definition pybamm_ (attr : string) : expr := EAttr (EName "pybamm") attr.
Definition lithium_ion (cls : string) : expr := EAttr (pybamm_ "lithium_ion") cls.

Definition cell_import : list stmt :=
  [ SImport "pybamm" ].

Definition cell_model : list stmt :=
  [ SAssign (TName "model") (ECall (lithium_ion "DFN") [] []) ].

Definition cell_simulation : list stmt :=
  [ SAssign (TName "simulation") (ECall (pybamm_ "Simulation") [EName "model"] []) ].

Definition cell_solve : list stmt :=
  [ SExpr (ECall (EAttr (EName "simulation") "solve") [EList [int 0; int 3600]] []) ].

Definition cell_plot : list stmt :=
  [ SExpr (ECall (EAttr (EName "simulation") "plot") [] []) ].

Definition cell_compare : list stmt :=
  [ SAssign (TName "models")
      (EList [ ECall (lithium_ion "SPM") [] [];
               ECall (lithium_ion "SPMe") [] [];
               ECall (lithium_ion "DFN") [] [] ]);
    SAssign (TName "simulations") (EList []);
    SFor "model" (EName "models")
      [ SAssign (TName "simulation") (ECall (pybamm_ "Simulation") [EName "model"] []);
        SExpr (ECall (EAttr (EName "simulation") "solve") [EList [int 0; int 3600]] []);
        SExpr (ECall (EAttr (EName "simulations") "append") [EName "simulation"] []) ];
    SExpr (ECall (pybamm_ "dynamic_plot") [EName "simulations"] []) ].

Definition cell_parameters : list stmt :=
  [ SAssign (TName "parameter_values") (ECall (pybamm_ "ParameterValues") [str "Chen2020"] []);
    SExpr (ECall (EName "print") [EName "parameter_values"] []) ].

Definition cell_update : list stmt :=
  [ SAssign (TSubscript (EName "parameter_values") (str "Current function [A]")) (float "2.0");
    SAssign (TName "sim")
      (ECall (pybamm_ "Simulation") [EName "model"]
         [("parameter_values", EName "parameter_values")]);
    SExpr (ECall (EAttr (EName "sim") "solve") [EList [int 0; int 3600]] []) ].

Definition sweep_body : list stmt :=
  [ SAssign (TName "sol")
      (ECall (EAttr (EName "sim") "solve") [EList [int 0; int 3600]]
         [("inputs", EDict [(str "Current function [A]", EName "i")])]);
    SExpr (ECall (EAttr (EName "solutions") "append") [EName "sol"] []);
    SExpr (ECall (EAttr (EName "labels") "append")
             [EFString [FText "Current = "; FValue "i"; FText " [A]"]] []) ].

Definition sweep_setup : list stmt :=
  [ SAssign (TName "parameter_values") (ECall (pybamm_ "ParameterValues") [str "Chen2020"] []);
    SAssign (TSubscript (EName "parameter_values") (str "Current function [A]")) (str "[input]");
    SAssign (TName "model") (ECall (lithium_ion "SPM") [] []);
    SAssign (TName "sim")
      (ECall (pybamm_ "Simulation") [EName "model"]
         [("parameter_values", EName "parameter_values")]);
    SAssign (TName "solutions") (EList []);
    SAssign (TName "labels") (EList []) ].

Definition sweep_loop : stmt :=
  SFor "i" (ECall (EName "range") [int 1; int 5] []) sweep_body.

Definition sweep_plot : stmt :=
  SExpr (ECall (pybamm_ "dynamic_plot") [EName "solutions"] [("labels", EName "labels")]).

Definition cell_sweep : list stmt := sweep_setup ++ [sweep_loop; sweep_plot].

Definition cell_submodels : list stmt :=
  [ SExpr (EAttr (EName "model") "submodels") ].

Definition cell_thermal : list stmt :=
  [ SAssign (TName "thermal_options") (EList [str "isothermal"; str "x-full"]);
    SAssign (TName "solutions") (EList []);
    SFor "option" (EName "thermal_options")
      [ SAssign (TName "model")
          (ECall (lithium_ion "DFN") []
             [("name", EName "option");
              ("options", EDict [(str "thermal", EName "option")])]);
        SAssign (TName "simulation") (ECall (pybamm_ "Simulation") [EName "model"] []);
        SExpr (ECall (EAttr (EName "solutions") "append")
                 [ECall (EAttr (EName "simulation") "solve") [EList [int 0; int 3600]] []] []) ];
    SExpr (ECall (pybamm_ "dynamic_plot") [EName "solutions"]
             [("output_variables",
               EList [ str "Negative particle surface concentration [mol.m-3]";
                       str "Electrolyte concentration [mol.m-3]";
                       str "Positive particle surface concentration [mol.m-3]";
                       str "Negative electrode potential [V]";
                       str "Electrolyte potential [V]";
                       str "Positive electrode potential [V]";
                       str "Current [A]";
                       str "Voltage [V]";
                       str "Cell temperature [K]" ])]) ].

Definition cell_mechanics : list stmt :=
  [ SAssign (TName "model")
      (ECall (lithium_ion "DFN") []
         [("options",
           EDict [(str "particle mechanics",
                   ETuple [str "swelling only"; str "swelling and cracking"])])]);
    SAssign (TName "parameter_values") (ECall (pybamm_ "ParameterValues") [str "Ai2020"] []);
    SAssign (TName "simulation")
      (ECall (pybamm_ "Simulation") [EName "model"]
         [("parameter_values", EName "parameter_values")]);
    SAssign (TName "solution")
      (ECall (EAttr (EName "simulation") "solve") [EList [int 0; int 3600]] []);
    SExpr (ECall (EAttr (EName "solution") "plot")
             [EList [ str "Negative particle surface radial stress [Pa]";
                      str "Negative particle surface tangential stress [Pa]";
                      str "Negative particle surface displacement [m]";
                      str "Negative particle crack length [m]";
                      str "Positive particle surface radial stress [Pa]";
                      str "Positive particle surface tangential stress [Pa]";
                      str "Positive particle surface displacement [m]";
                      str "Positive particle crack length [m]" ]] []) ].

(** The program of a notebook: its code cells in order. *)
Definition program : list (list stmt) :=
  [ cell_import; cell_model; cell_simulation; cell_solve; cell_plot;
    cell_compare; cell_parameters; cell_update; cell_sweep; cell_submodels;
    cell_thermal; cell_mechanics ].

(** The syntax above is the syntax of the text: cell for cell, it has the
    tokens of the notebook's code. *)
Definition parses_as (nb : notebook) (p : list (list stmt)) : Prop :=
  map (fun src => strip_trailing_commas (tokenize src)) (code_cells nb)
  = map unparse_cell p.

(** ** Values, objects and the store

    Python names are bound to values; lists, dictionaries and the objects
    the library hands out live in a store and are reached through
    references, so that two names (or a list element and a name) can share
    one object. *)

Definition loc : Type := nat.

Inductive value : Type :=
| VNone
| VInt (n : Z)
| VFloat (lexeme : string)
| VStr (s : string)
| VTuple (elts : list value)
| VRange (start stop : Z)
| VRef (l : loc)                        (* a stored object *)
| VAttr (self : loc) (name : string)    (* self.name: a bound method or a field *)
| VLibrary (path : list string)         (* the module and what is reached from it *)
| VBuiltin (name : string).

(** A value as a call receives it: lists and dictionaries read out of the
    store at the time of the call, library objects by their identity. *)
Inductive data : Type :=
| DNone
| DInt (n : Z)
| DFloat (lexeme : string)
| DStr (s : string)
| DList (elts : list data)
| DTuple (elts : list data)
| DDict (items : list (data * data))
| DObject (l : loc)
| DOther.

Inductive object : Type :=
| OList (items : list value)
| ODict (items : list (value * value))
| OModel (cls : string) (keywords : list (string * data))
| OParameterValues (items : gmap string data)
| OSimulation (model : loc) (parameter_values : option loc) (solution : option loc)
| OSolution (simulation : loc) (t_eval : data) (keywords : list (string * data))
| OQuickPlot (args : list data) (keywords : list (string * data)).

(** *** Calls into the library *)

Inductive callee : Type :=
| Import (module : string)               (* import module *)
| Function (path : list string)          (* pybamm.Simulation(...), ... *)
| Method (self : loc) (name : string)    (* self.name(...) on a library object *)
| SetItem (self : loc).                  (* self[key] = value on a library object *)

Record libcall : Type := LibCall {
  lc_callee : callee;
  lc_args : list data;
  lc_keywords : list (string * data)
}.

(** How a call ended: it returned a value, or it raised. *)
Inductive result : Type :=
| Returned (d : data)
| Failed (msg : string).

(** A call the code made, and how it ended. *)
Record event : Type := Event {
  ev_call : libcall;
  ev_result : result
}.

Inductive exn : Type :=
| LibraryError (msg : string)            (* raised inside the library *)
| NameError (id : string)
| AttributeError (name : string)
| TypeError (msg : string).

(** What the notebooks do not decide: which library calls raise, given the
    calls made so far, and what a named parameter set contains. *)
Record library : Type := Library {
  lib_raises : list event -> libcall -> option string;
  lib_parameter_set : string -> gmap string data
}.

(** The same library when no call raises. *)
Definition quiet (L : library) : library :=
  Library (fun _ _ => None) (lib_parameter_set L).

Record state : Type := State {
  env : gmap string value;        (* the kernel's global names *)
  heap : list object;
  trace : list event;             (* the library calls made, oldest first *)
  displayed : list (option value) (* per executed cell, the value it shows *)
}.

Definition initial : state := State ∅ [] [] [].

Inductive outcome (A : Type) : Type :=
| Ok (a : A) (s : state)
| Raised (e : exn) (s : state)
| OutOfFuel.
Arguments Ok {A} a s.
Arguments Raised {A} e s.
Arguments OutOfFuel {A}.

Definition M (A : Type) : Type := state -> outcome A.

Definition ret {A} (a : A) : M A := fun s => Ok a s.

Definition bind {A B} (m : M A) (k : A -> M B) : M B :=
  fun s => match m s with
           | Ok a s' => k a s'
           | Raised e s' => Raised e s'
           | OutOfFuel => OutOfFuel
           end.

Definition raise {A} (e : exn) : M A := fun s => Raised e s.

Definition out_of_fuel {A} : M A := fun _ => OutOfFuel.

Declare Scope py_scope.
Delimit Scope py_scope with py.
Notation "x <- m ;; k" := (bind m (fun x => k))
  (at level 100, m at next level, right associativity) : py_scope.
Notation "m ;; k" := (bind m (fun _ => k))
  (at level 100, right associativity) : py_scope.
Local Open Scope py_scope.

Fixpoint mapM {A B} (f : A -> M B) (l : list A) : M (list B) :=
  match l with
  | [] => ret []
  | a :: rest => b <- f a ;; bs <- mapM f rest ;; ret (b :: bs)
  end.

Definition get_heap : M (list object) := fun s => Ok (heap s) s.

Definition alloc (o : object) : M value :=
  fun s => Ok (VRef (length (heap s)))
              (State (env s) (heap s ++ [o]) (trace s) (displayed s)).

Definition store (l : loc) (o : object) : M unit :=
  fun s => Ok tt (State (env s) (<[l := o]> (heap s)) (trace s) (displayed s)).

Definition bind_name (id : string) (v : value) : M unit :=
  fun s => Ok tt (State (<[id := v]> (env s)) (heap s) (trace s) (displayed s)).

Definition builtins : list string := ["print"; "range"].

Definition lookup_name (id : string) : M value :=
  fun s => match env s !! id with
           | Some v => Ok v s
           | None => if bool_decide (id ∈ builtins) then Ok (VBuiltin id) s
                     else Raised (NameError id) s
           end.

Definition display (v : option value) : M unit :=
  fun s => Ok tt (State (env s) (heap s) (trace s) (displayed s ++ [v])).

(** Reading a value out of the store, to the given depth. *)
Fixpoint freeze (depth : nat) (h : list object) (v : value) : data :=
  match depth with
  | O => DOther
  | S depth =>
      match v with
      | VNone => DNone
      | VInt n => DInt n
      | VFloat x => DFloat x
      | VStr s => DStr s
      | VTuple elts => DTuple (map (freeze depth h) elts)
      | VRef l =>
          match h !! l with
          | Some (OList items) => DList (map (freeze depth h) items)
          | Some (ODict items) =>
              DDict (map (fun kv => (freeze depth h kv.1, freeze depth h kv.2)) items)
          | Some _ => DObject l
          | None => DOther
          end
      | VRange _ _ | VAttr _ _ | VLibrary _ | VBuiltin _ => DOther
      end
  end.

Definition freeze_depth : nat := 16.

Definition frozen (h : list object) (v : value) : data := freeze freeze_depth h v.

Fixpoint keyword (name : string) (kws : list (string * data)) : option data :=
  match kws with
  | [] => None
  | (k, v) :: rest => if bool_decide (k = name) then Some v else keyword name rest
  end.

Definition is_library_object (o : object) : bool :=
  match o with
  | OList _ | ODict _ => false
  | _ => true
  end.

Definition new_object (o : object) (h : list object) : string + (value * list object) :=
  inr (VRef (length h), h ++ [o]).

(** Item assignment on a parameter set ([ParameterValues.__setitem__]) is
    code of the external library, in neither notebook.  The library model
    below files the assigned value under its key.  What the library makes
    of the entries is not decided by the notebooks, and no property in
    this development rests on it: none reads the entries of a parameter
    set after an assignment. *)
Definition override (key : string) (v : data) (items : gmap string data)
  : gmap string data :=
  <[key := v]> items.

(** *** The library, as far as the notebooks can tell

    What a call does to the store and returns, or the error it raises
    when it cannot take its arguments.  Model classes are the
    attributes of [pybamm.lithium_ion]; a [ParameterValues] object is a
    mapping from parameter names to values, started from the named set,
    in which item assignment replaces one entry; [solve] hands out a new
    solution and leaves it in the simulation; plotting hands out a plot. *)
Definition lib_apply (L : library) (c : libcall) (h : list object)
  : string + (value * list object) :=
  let kws := lc_keywords c in
  match lc_callee c, lc_args c with
  | Import module, [] => inr (VLibrary [module], h)
  | Function [m; sub; cls], [] =>
      if bool_decide (m = "pybamm" ∧ sub = "lithium_ion")
      then new_object (OModel cls kws) h
      else inl "unknown library function"
  | Function [m; f], args =>
      if bool_decide (m = "pybamm" ∧ f = "ParameterValues") then
        match args, kws with
        | [DStr name], [] => new_object (OParameterValues (lib_parameter_set L name)) h
        | _, _ => inl "ParameterValues"
        end
      else if bool_decide (m = "pybamm" ∧ f = "Simulation") then
        match args with
        | [DObject model] =>
            match h !! model, keyword "parameter_values" kws with
            | Some (OModel _ _), None => new_object (OSimulation model None None) h
            | Some (OModel _ _), Some (DObject p) =>
                match h !! p with
                | Some (OParameterValues _) =>
                    new_object (OSimulation model (Some p) None) h
                | _ => inl "parameter_values"
                end
            | _, _ => inl "Simulation"
            end
        | _ => inl "Simulation"
        end
      else if bool_decide (m = "pybamm" ∧ f = "dynamic_plot") then
        new_object (OQuickPlot args kws) h
      else inl "unknown library function"
  | Method self name, args =>
      if bool_decide (name = "solve") then
        match h !! self, args with
        | Some (OSimulation model p _), [t_eval] =>
            inr (VRef (length h),
                 <[self := OSimulation model p (Some (length h))]> h
                   ++ [OSolution self t_eval kws])
        | _, _ => inl "solve"
        end
      else if bool_decide (name = "plot") then
        match h !! self with
        | Some (OSimulation _ _ _) | Some (OSolution _ _ _) =>
            new_object (OQuickPlot (DObject self :: args) kws) h
        | _ => inl "plot"
        end
      else inl name
  | SetItem self, [DStr key; v] =>
      match h !! self with
      | Some (OParameterValues items) =>
          inr (VNone, <[self := OParameterValues (override key v items)]> h)
      | _ => inl "item assignment"
      end
  | _, _ => inl "unknown library function"
  end.

(** ** The interpreter *)

Inductive iterator : Type :=
| IterRange (next stop : Z)
| IterList (l : loc) (index : nat).

(** [next(it)]: the element and the advanced iterator, or nothing when the
    iterator is exhausted.  A list iterator reads the list as it is now. *)
Definition iter_next (h : list object) (it : iterator) : option (value * iterator) :=
  match it with
  | IterRange next stop =>
      if (next <? stop)%Z then Some (VInt next, IterRange (next + 1) stop) else None
  | IterList l index =>
      match h !! l with
      | Some (OList items) =>
          match items !! index with
          | Some v => Some (v, IterList l (S index))
          | None => None
          end
      | _ => None
      end
  end.

Section Interpreter.

Variable L : library.

(** A call into the library.  It is logged with its outcome; when the
    library raises, the exception is the outcome of the call. *)
Definition library_call (c : libcall) : M value :=
  fun s =>
    let failed msg :=
      Raised (LibraryError msg)
        (State (env s) (heap s) (trace s ++ [Event c (Failed msg)]) (displayed s)) in
    match lib_raises L (trace s) c with
    | Some msg => failed msg
    | None =>
        match lib_apply L c (heap s) with
        | inl msg => failed msg
        | inr (v, h) =>
            Ok v (State (env s) h (trace s ++ [Event c (Returned (frozen h v))])
                    (displayed s))
        end
    end.

Definition value_of_constant (c : constant) : value :=
  match c with
  | CInt n => VInt n
  | CFloat x => VFloat x
  | CStr s => VStr s
  end.

(** [str(v)], for the values an f-string of the notebooks formats. *)
Definition py_str (v : value) : M string :=
  match v with
  | VInt n => ret (NilZero.string_of_int (Z.to_int n))
  | VStr s => ret s
  | VFloat x => ret x
  | _ => raise (TypeError "format")
  end.

Definition format_part (p : fpart) : M string :=
  match p with
  | FText s => ret s
  | FValue id => v <- lookup_name id ;; py_str v
  end.

Definition get_attr (v : value) (attr : string) : M value :=
  match v with
  | VLibrary path => ret (VLibrary (path ++ [attr]))
  | VRef l =>
      h <- get_heap ;;
      match h !! l with
      | Some (OList _) =>
          if bool_decide (attr = "append") then ret (VAttr l attr)
          else raise (AttributeError attr)
      | Some (ODict _) | None => raise (AttributeError attr)
      | Some _ => ret (VAttr l attr)
      end
  | _ => raise (AttributeError attr)
  end.

Definition freeze_keywords (h : list object) (kws : list (string * value))
  : list (string * data) :=
  map (fun kw => (kw.1, frozen h kw.2)) kws.

Definition call (f : value) (args : list value) (kws : list (string * value)) : M value :=
  h <- get_heap ;;
  match f with
  | VBuiltin name =>
      if bool_decide (name = "print") then ret VNone
      else if bool_decide (name = "range") then
        match args, kws with
        | [VInt stop], [] => ret (VRange 0 stop)
        | [VInt start; VInt stop], [] => ret (VRange start stop)
        | _, _ => raise (TypeError "range")
        end
      else raise (TypeError "not callable")
  | VLibrary path =>
      library_call (LibCall (Function path) (map (frozen h) args) (freeze_keywords h kws))
  | VAttr self name =>
      match h !! self with
      | Some (OList items) =>
          match args, kws with
          | [v], [] =>
              if bool_decide (name = "append")
              then store self (OList (items ++ [v])) ;; ret VNone
              else raise (AttributeError name)
          | _, _ => raise (TypeError "append")
          end
      | Some (ODict _) | None => raise (AttributeError name)
      | Some _ =>
          library_call (LibCall (Method self name) (map (frozen h) args)
                          (freeze_keywords h kws))
      end
  | _ => raise (TypeError "not callable")
  end.

(** [obj[key] = v] *)
Definition set_item (obj key v : value) : M unit :=
  h <- get_heap ;;
  match obj with
  | VRef l =>
      match h !! l with
      | Some o =>
          if is_library_object o
          then library_call (LibCall (SetItem l) [frozen h key; frozen h v] []) ;; ret tt
          else raise (TypeError "item assignment")
      | None => raise (TypeError "item assignment")
      end
  | _ => raise (TypeError "item assignment")
  end.

Definition get_iter (v : value) : M iterator :=
  h <- get_heap ;;
  match v with
  | VRange start stop => ret (IterRange start stop)
  | VRef l =>
      match h !! l with
      | Some (OList _) => ret (IterList l 0)
      | _ => raise (TypeError "not iterable")
      end
  | _ => raise (TypeError "not iterable")
  end.

Fixpoint eval (fuel : nat) (e : expr) : M value :=
  match fuel with
  | O => out_of_fuel
  | S fuel =>
      match e with
      | EName id => lookup_name id
      | EConst c => ret (value_of_constant c)
      | EFString parts =>
          ss <- mapM format_part parts ;; ret (VStr (String.concat "" ss))
      | EList elts => vs <- mapM (eval fuel) elts ;; alloc (OList vs)
      | ETuple elts => vs <- mapM (eval fuel) elts ;; ret (VTuple vs)
      | EDict items =>
          kvs <- mapM (fun kv => k <- eval fuel kv.1 ;; v <- eval fuel kv.2 ;; ret (k, v))
                      items ;;
          alloc (ODict kvs)
      | EAttr value attr => v <- eval fuel value ;; get_attr v attr
      | ECall func args keywords =>
          f <- eval fuel func ;;
          vs <- mapM (eval fuel) args ;;
          kws <- mapM (fun kw => v <- eval fuel kw.2 ;; ret (kw.1, v)) keywords ;;
          call f vs kws
      end
  end.

(** The statements of a block in order; the block yields what its last
    statement yields. *)
Fixpoint run_block (run : stmt -> M (option value)) (ss : list stmt)
  : M (option value) :=
  match ss with
  | [] => ret None
  | [s] => run s
  | s :: rest => run s ;; run_block run rest
  end.

(** The loop of a [for] statement, at most [n] times round. *)
Fixpoint iterate (n : nat) (body : value -> M unit) (it : iterator) : M unit :=
  match n with
  | O => out_of_fuel
  | S n =>
      h <- get_heap ;;
      match iter_next h it with
      | None => ret tt
      | Some (v, it') => body v ;; iterate n body it'
      end
  end.

(** The body of a [for] loop as the loop runs it: bind the variable, then
    the statements. *)
Definition for_body (run : stmt -> M (option value)) (id : string) (body : list stmt)
  : value -> M unit :=
  fun x => bind_name id x ;; run_block run body ;; ret tt.

(** [k] turns of a loop (fewer if the iterator runs out), yielding the
    iterator left. *)
Fixpoint iterations (k : nat) (body : value -> M unit) (it : iterator) : M iterator :=
  match k with
  | O => ret it
  | S k =>
      h <- get_heap ;;
      match iter_next h it with
      | None => ret it
      | Some (v, it') => body v ;; iterations k body it'
      end
  end.

(** A statement; an expression statement yields its value. *)
Fixpoint exec (fuel : nat) (s : stmt) : M (option value) :=
  match fuel with
  | O => out_of_fuel
  | S fuel =>
      match s with
      | SImport module =>
          v <- library_call (LibCall (Import module) [] []) ;;
          bind_name module v ;; ret None
      | SAssign (TName id) value =>
          v <- eval fuel value ;; bind_name id v ;; ret None
      | SAssign (TSubscript obj key) value =>
          v <- eval fuel value ;;
          o <- eval fuel obj ;;
          k <- eval fuel key ;;
          set_item o k v ;; ret None
      | SExpr value => v <- eval fuel value ;; ret (Some v)
      | SFor id iter body =>
          v <- eval fuel iter ;;
          it <- get_iter v ;;
          iterate fuel (for_body (exec fuel) id body) it ;;
          ret None
      end
  end.

(** A cell: its statements, then the display of what the last one yields. *)
Definition run_cell (fuel : nat) (c : list stmt) : M unit :=
  r <- run_block (exec fuel) c ;; display r.

(** The cells from top to bottom, stopping at the first exception. *)
Fixpoint run_cells (fuel : nat) (p : list (list stmt)) : M unit :=
  match p with
  | [] => ret tt
  | c :: rest => run_cell fuel c ;; run_cells fuel rest
  end.

End Interpreter.

Definition fuel : nat := 64.

(** Run All, in a fresh kernel. *)
Definition run (L : library) (p : list (list stmt)) : outcome unit :=
  run_cells L fuel p initial.

(** ** Vocabulary of the properties *)

(** The two notebooks of the repository. *)
Definition notebooks : list notebook := [pybamm_ipynb; part_000].

(** *** On the text *)

(** The keyword [kw] occurs in a code cell of the notebook.  Keywords are
    reserved in Python, so a NAME token spelled like one is that keyword. *)
Definition uses_keyword (nb : notebook) (kw : string) : Prop :=
  Exists (fun src => NAME kw ∈ tokenize src) (code_cells nb).

#[global] Instance uses_keyword_dec nb kw : Decision (uses_keyword nb kw).
Proof. unfold uses_keyword. apply _. Defined.

#[global] Instance cell_eq_dec : EqDecision cell.
Proof. solve_decision. Defined.

(** What intercepts a failure: [try] with its clauses, and [with], whose
    context manager may swallow an exception. *)
Definition interception_keywords : list string :=
  ["try"; "except"; "finally"; "with"].

(** What defines a function or a class. *)
Definition definition_keywords : list string := ["def"; "class"; "lambda"].

(** What starts or awaits concurrent work in the language itself. *)
Definition concurrency_keywords : list string := ["async"; "await"].

(** *** On the syntax *)

Fixpoint subexprs (e : expr) : list expr :=
  e :: match e with
       | EName _ | EConst _ | EFString _ => []
       | EList elts | ETuple elts => concat (map subexprs elts)
       | EDict items =>
           concat (map (fun kv => let '(k, v) := kv in subexprs k ++ subexprs v) items)
       | EAttr value _ => subexprs value
       | ECall func args keywords =>
           subexprs func ++ concat (map subexprs args)
             ++ concat (map (fun kw => let '(_, v) := kw in subexprs v) keywords)
       end.

Fixpoint stmt_exprs (s : stmt) : list expr :=
  match s with
  | SImport _ => []
  | SAssign (TName _) value => subexprs value
  | SAssign (TSubscript obj key) value => subexprs obj ++ subexprs key ++ subexprs value
  | SExpr value => subexprs value
  | SFor _ iter body => subexprs iter ++ concat (map stmt_exprs body)
  end.

Fixpoint stmt_imports (s : stmt) : list string :=
  match s with
  | SImport module => [module]
  | SFor _ _ body => concat (map stmt_imports body)
  | _ => []
  end.

(** Item assignments [obj[key] = value], as (obj, key, value). *)
Fixpoint stmt_item_assignments (s : stmt) : list (expr * expr * expr) :=
  match s with
  | SAssign (TSubscript obj key) value => [(obj, key, value)]
  | SFor _ _ body => concat (map stmt_item_assignments body)
  | _ => []
  end.

Definition statements (p : list (list stmt)) : list stmt := concat p.

Definition exprs_of (p : list (list stmt)) : list expr :=
  concat (map stmt_exprs (statements p)).

Record call_site : Type := CallSite {
  cs_func : expr;
  cs_args : list expr;
  cs_keywords : list (string * expr)
}.

Definition call_sites (p : list (list stmt)) : list call_site :=
  omap (fun e => match e with
                 | ECall func args keywords => Some (CallSite func args keywords)
                 | _ => None
                 end) (exprs_of p).

(** The name an attribute path starts from. *)
Fixpoint root (e : expr) : option string :=
  match e with
  | EName id => Some id
  | EAttr value _ => root value
  | _ => None
  end.

Inductive call_kind : Type :=
| LibraryFunction     (* pybamm.f(...), pybamm.lithium_ion.C(...) *)
| LibraryMethod       (* x.solve(...), x.plot(...) *)
| ListMethod          (* x.append(...) *)
| BuiltinFunction.    (* print(...), range(...) *)

Definition library_methods : list string := ["solve"; "plot"].

Definition call_kind_of (func : expr) : option call_kind :=
  match func with
  | EName id => if bool_decide (id ∈ builtins) then Some BuiltinFunction else None
  | EAttr (EName id) attr =>
      if bool_decide (id = "pybamm") then Some LibraryFunction
      else if bool_decide (attr = "append") then Some ListMethod
      else if bool_decide (attr ∈ library_methods) then Some LibraryMethod
      else None
  | EAttr value _ =>
      if bool_decide (root value = Some "pybamm") then Some LibraryFunction else None
  | _ => None
  end.

Definition is_library_call (c : call_site) : bool :=
  match call_kind_of (cs_func c) with
  | Some LibraryFunction | Some LibraryMethod => true
  | _ => false
  end.

Definition is_method_call (name : string) (c : call_site) : bool :=
  match cs_func c with
  | EAttr _ attr => bool_decide (attr = name)
  | _ => false
  end.

(** Everything the code hands to the library: the positional and keyword
    arguments of its calls, and the key and value of item assignments. *)
Definition library_args (p : list (list stmt)) : list expr :=
  concat (map (fun c => cs_args c ++ map snd (cs_keywords c))
              (filter (fun c => is_library_call c = true) (call_sites p)))
  ++ concat (map (fun okv => let '(_, k, v) := okv in [k; v])
                 (concat (map stmt_item_assignments (statements p)))).

(** A literal: a constant, or a display of literals. *)
Fixpoint is_literal (e : expr) : bool :=
  match e with
  | EConst _ => true
  | EList elts | ETuple elts => forallb is_literal elts
  | EDict items =>
      forallb (fun kv => let '(k, v) := kv in is_literal k && is_literal v) items
  | _ => false
  end.

Definition is_name (e : expr) : bool :=
  match e with EName _ => true | _ => false end.

(** A literal, a variable, or a dictionary display with literal keys whose
    values are literals or variables. *)
Definition is_plain_arg (e : expr) : bool :=
  is_literal e || is_name e
  || match e with
     | EDict items =>
         forallb (fun kv => let '(k, v) := kv in
                            is_literal k && (is_literal v || is_name v)) items
     | _ => false
     end.

(** Computed on the spot: a call, an attribute access or a formatted
    string, anywhere inside the expression. *)
Definition is_computed (e : expr) : bool :=
  existsb (fun x => match x with
                    | ECall _ _ _ | EAttr _ _ | EFString _ => true
                    | _ => false
                    end) (subexprs e).

(** *** On the run *)

Definition ev_callee (ev : event) : callee := lc_callee (ev_call ev).
Definition ev_args (ev : event) : list data := lc_args (ev_call ev).
Definition ev_keywords (ev : event) : list (string * data) := lc_keywords (ev_call ev).

Definition ev_result_object (ev : event) : option loc :=
  match ev_result ev with Returned (DObject l) => Some l | _ => None end.

Definition lc_method (c : libcall) : option string :=
  match lc_callee c with
  | Method _ name => Some name
  | _ => None
  end.

(** [m = pybamm.lithium_ion.C(...)]: the new model. *)
Definition ev_new_model (ev : event) : option loc :=
  match ev_callee ev with
  | Function [m; sub; _] =>
      if bool_decide (m = "pybamm" ∧ sub = "lithium_ion") then ev_result_object ev else None
  | _ => None
  end.

(** [sim = pybamm.Simulation(model, ...)]: the new simulation and its model. *)
Definition ev_new_simulation (ev : event) : option (loc * loc) :=
  match ev_callee ev, ev_args ev with
  | Function [m; f], DObject model :: _ =>
      if bool_decide (m = "pybamm" ∧ f = "Simulation")
      then sim ← ev_result_object ev; Some (sim, model)
      else None
  | _, _ => None
  end.

(** [sol = sim.solve(...)]: the simulation and the solution. *)
Definition ev_solve (ev : event) : option (loc * loc) :=
  match ev_callee ev with
  | Method sim name =>
      if bool_decide (name = "solve") then sol ← ev_result_object ev; Some (sim, sol)
      else None
  | _ => None
  end.

Definition objects_in (d : data) : list loc :=
  match d with
  | DObject l => [l]
  | DList elts => omap (fun x => match x with DObject l => Some l | _ => None end) elts
  | _ => []
  end.

(** What a plotting call plots: the receiver of [x.plot(...)], the
    elements of the list given to [pybamm.dynamic_plot]. *)
Definition ev_plotted (ev : event) : list loc :=
  match ev_callee ev, ev_args ev with
  | Method self name, _ => if bool_decide (name = "plot") then [self] else []
  | Function [m; f], d :: _ =>
      if bool_decide (m = "pybamm" ∧ f = "dynamic_plot") then objects_in d else []
  | _, _ => []
  end.

(** A model [m] has been constructed by one of the events. *)
Definition model_made (evs : list event) (m : loc) : Prop :=
  ∃ ev, ev ∈ evs ∧ ev_new_model ev = Some m.

(** A simulation has been constructed, from a model constructed before it. *)
Definition simulation_made (evs : list event) (sim : loc) : Prop :=
  ∃ before ev after m,
    evs = before ++ ev :: after ∧ ev_new_simulation ev = Some (sim, m)
    ∧ model_made before m.

(** [l] is a simulation that has been solved, or the solution of one. *)
Definition solved (evs : list event) (l : loc) : Prop :=
  ∃ ev sim sol, ev ∈ evs ∧ ev_solve ev = Some (sim, sol) ∧ (l = sim ∨ l = sol).

(** The call [ev], made after the calls [before], is in order: a
    simulation is constructed from a model constructed before, [solve] is
    called on a simulation constructed before, and what is plotted has
    been solved before. *)
Definition in_order (before : list event) (ev : event) : Prop :=
  (∀ sim m, ev_new_simulation ev = Some (sim, m) → model_made before m)
  ∧ (∀ sim sol, ev_solve ev = Some (sim, sol) → simulation_made before sim)
  ∧ (∀ l, l ∈ ev_plotted ev → solved before l).

(** The order of the calls: construct the model, construct the simulation
    from it, solve, plot. *)
Definition lifecycle (tr : list event) : Prop :=
  ∀ before ev after, tr = before ++ ev :: after → in_order before ev.

(** The same order, checked by one pass over the calls. *)
Record monitor : Type := Monitor {
  mon_models : list loc;
  mon_simulations : list loc;
  mon_solved : list loc
}.

Definition monitor_step (k : monitor) (ev : event) : option monitor :=
  let ok_sim :=
    match ev_new_simulation ev with
    | Some (_, m) => bool_decide (m ∈ mon_models k)
    | None => true
    end in
  let ok_solve :=
    match ev_solve ev with
    | Some (sim, _) => bool_decide (sim ∈ mon_simulations k)
    | None => true
    end in
  let ok_plot := forallb (fun l => bool_decide (l ∈ mon_solved k)) (ev_plotted ev) in
  if ok_sim && ok_solve && ok_plot then
    Some (Monitor
            (match ev_new_model ev with Some m => m :: mon_models k | None => mon_models k end)
            (match ev_new_simulation ev with
             | Some (sim, _) => sim :: mon_simulations k
             | None => mon_simulations k
             end)
            (match ev_solve ev with
             | Some (sim, sol) => sim :: sol :: mon_solved k
             | None => mon_solved k
             end))
  else None.

Fixpoint monitor_run (k : monitor) (tr : list event) : bool :=
  match tr with
  | [] => true
  | ev :: rest =>
      match monitor_step k ev with
      | Some k' => monitor_run k' rest
      | None => false
      end
  end.

(** What the monitor has noted has happened. *)
Definition monitor_sound (k : monitor) (pre : list event) : Prop :=
  (∀ m, m ∈ mon_models k → model_made pre m)
  ∧ (∀ sim, sim ∈ mon_simulations k → simulation_made pre sim)
  ∧ (∀ l, l ∈ mon_solved k → solved pre l).

(** *** Stages of the run *)

Definition outcome_state {A} (o : outcome A) : option state :=
  match o with
  | Ok _ s => Some s
  | Raised _ s => Some s
  | OutOfFuel => None
  end.

(** The run up to a point: the first [k] cells, then the first [n]
    statements of the next cell. *)
Definition reach (L : library) (k n : nat) : M unit :=
  run_cells L fuel (take k program) ;;
  run_block (exec L fuel) (take n (nth k program [])) ;;
  ret tt.

(** The rest of the run from that point. *)
Definition rest_of_run (L : library) (k n : nat) : M unit :=
  r <- run_block (exec L fuel) (drop n (nth k program [])) ;;
  display r ;;
  run_cells L fuel (drop (S k) program).

Definition state_at (L : library) (k n : nat) : state :=
  match reach (quiet L) k n initial with
  | Ok _ s => s
  | _ => initial
  end.

(** The state when Run All is done, for a library that does not raise. *)
Definition final (L : library) : state := state_at L (length program) 0.

(** The calls of Run All, in order.  They do not depend on the library. *)
Definition calls_of_run : list libcall :=
  Eval vm_compute in map ev_call (trace (final (Library (fun _ _ => None) (fun _ => ∅)))).

(** The calls a cell made: those of the run up to its end that were not
    there at its start. *)
Definition cell_events (L : library) (k : nat) : list event :=
  drop (length (trace (state_at L k 0))) (trace (state_at L (S k) 0)).

(** Positions of the cells in the program. *)
Definition i_model : nat := 1.
Definition i_update : nat := 7.
Definition i_sweep : nat := 8.
Definition i_submodels : nat := 9.

(** The store entry a name leads to. *)
Definition object_named (s : state) (id : string) : option (loc * object) :=
  match env s !! id with
  | Some (VRef l) => o ← heap s !! l; Some (l, o)
  | _ => None
  end.

Definition list_named (s : state) (id : string) : option (list value) :=
  match object_named s id with
  | Some (_, OList items) => Some items
  | _ => None
  end.

(** The lists [solutions] and [labels], as they are in a state. *)
Definition collected (s : state) : option (list value * list value) :=
  sols ← list_named s "solutions"; labs ← list_named s "labels"; Some (sols, labs).

(** *** The sweep *)

Definition span : data := DList [DInt 0; DInt 3600].

Definition sweep_inputs (i : Z) : data := DDict [(DStr "Current function [A]", DInt i)].

Definition sweep_solve (sim : loc) (i : Z) : libcall :=
  LibCall (Method sim "solve") [span] [("inputs", sweep_inputs i)].

Definition sweep_label (i : Z) : string := "Current = " +:+ string_of_Z i +:+ " [A]".

Definition sweep_currents : list Z := [1; 2; 3; 4]%Z.

(** The state in which the sweep loop starts: the cells before the sweep
    cell have run, and the statements of the sweep cell before the loop. *)
Definition sweep_entry (L : library) : state := state_at L i_sweep (length sweep_setup).

(** The state in which the sweep loop ends, and the plot is called. *)
Definition sweep_exit (L : library) : state := state_at L i_sweep (S (length sweep_setup)).

(** The sweep loop after [k] turns. *)
Definition sweep_turns (L : library) (k : nat) : outcome iterator :=
  iterations k (for_body (exec (quiet L) (pred fuel)) "i" sweep_body) (IterRange 1 5)
    (sweep_entry L).

Definition collected_after (L : library) (k : nat) : option (list value * list value) :=
  s ← outcome_state (sweep_turns L k); collected s.

(** *** Libraries that raise *)

Definition is_returned (ev : event) : bool :=
  match ev_result ev with Returned _ => true | Failed _ => false end.

(** The calls made so far, without their outcomes. *)
Definition calls (s : state) : list libcall := map ev_call (trace s).

(** The run that ended in [s] with the exception [e] was cut short by the
    library: its last call raised [e], and the outcome [o'] of the same code
    against the library that does not raise has the same calls up to that
    one, which there returns or is refused. *)
Definition cut_short (L : library) {A} (e : exn) (s : state) (o' : outcome A) : Prop :=
  ∃ tr c msg,
    trace s = tr ++ [Event c (Failed msg)]
    ∧ e = LibraryError msg
    ∧ lib_raises L tr c = Some msg
    ∧ ∀ s', outcome_state o' = Some s' → ∃ r rest, trace s' = tr ++ Event c r :: rest.

(** The trace only grows, and a computation that ends normally has seen
    all its calls return. *)
Definition steps {A} (m : M A) : Prop :=
  ∀ s, match m s with
       | Ok _ s1 =>
           ∃ evs, trace s1 = trace s ++ evs ∧ Forall (fun ev => is_returned ev = true) evs
       | Raised _ s1 => ∃ evs, trace s1 = trace s ++ evs
       | OutOfFuel => True
       end.

(** [m], run against a library that may raise, follows [m'], the same
    code run against the library when it does not: they end alike, unless
    the library cuts [m] short. *)
Definition follows (L : library) {A} (m m' : M A) : Prop :=
  ∀ s, match m s with
       | Ok a s1 => m' s = Ok a s1
       | Raised e s1 => m' s = Raised e s1 ∨ cut_short L e s1 (m' s)
       | OutOfFuel => m' s = OutOfFuel
       end.

(** *** Two libraries to try the statements on

    One never raises and has empty parameter sets; the other raises in
    the call made after twenty-four have returned. *)
Definition plain_library : library := Library (fun _ _ => None) (fun _ => ∅).

Definition failing_library : library :=
  Library (fun tr _ => if bool_decide (length tr = 24%nat) then Some "SolverError" else None)
          (fun _ => ∅).

(** ** The loops, from any state

    What the loops of the notebooks do when they are started in any state
    of the kernel and run against any library. *)

(** How a computation started in [s] ends: normally, with a value and in
    a state as [Q] says, or with an exception and in a state as [E] says. *)
Definition wp {A} (m : M A) (Q : A -> state -> Prop) (E : exn -> state -> Prop)
  (s : state) : Prop :=
  match m s with
  | Ok a s' => Q a s'
  | Raised e s' => E e s'
  | OutOfFuel => False
  end.

(** From [s] to [s'], no name has been bound or rebound but the names
    [ids], no object that was in the store has been written to but those
    at the places [ls], and no cell has shown a value. *)
Definition touches_only (ids : list string) (ls : list loc) (s s' : state) : Prop :=
  (∀ id, id ∉ ids → env s' !! id = env s !! id)
  ∧ (∀ l o, l ∉ ls → heap s !! l = Some o → heap s' !! l = Some o)
  ∧ displayed s' = displayed s.

(** The integers a loop over [range(a, ...)] goes through in [k] turns. *)
Fixpoint currents (a : Z) (k : nat) : list Z :=
  match k with
  | O => []
  | S k => a :: currents (a + 1) k
  end.

(** *** The sweep loop *)

(** The names the sweep loop reads lead to a simulation and to two lists
    that are not one and the same. *)
Record sweep_names (s : state) (sim sols labs : loc) : Prop := SweepNames {
  sn_sim : env s !! "sim" = Some (VRef sim);
  sn_sols : env s !! "solutions" = Some (VRef sols);
  sn_labs : env s !! "labels" = Some (VRef labs);
  sn_distinct : sols ≠ labs
}.

(** In [s], [sim] is a simulation, and [solutions] and [labels] are the
    lists [xs] and [ys]. *)
Definition sweep_lists (s : state) (sim sols labs : loc) (xs ys : list value) : Prop :=
  sweep_names s sim sols labs
  ∧ (∃ m p sol, heap s !! sim = Some (OSimulation m p sol))
  ∧ heap s !! sols = Some (OList xs)
  ∧ heap s !! labs = Some (OList ys).

(** A turn of the sweep loop for the current [i] that took [s] to [s']:
    one [solve] call, which returned a new solution; the solution is at
    the end of [solutions], its label at the end of [labels]. *)
Definition sweep_turn (i : Z) (sim sols labs : loc) (xs ys : list value)
  (s s' : state) : Prop :=
  ∃ sol,
    trace s' = trace s ++ [Event (sweep_solve sim i) (Returned (DObject sol))]
    ∧ heap s !! sol = None
    ∧ heap s' !! sol = Some (OSolution sim span [("inputs", sweep_inputs i)])
    ∧ sweep_lists s' sim sols labs (xs ++ [VRef sol]) (ys ++ [VStr (sweep_label i)])
    ∧ touches_only ["i"; "sol"] [sim; sols; labs] s s'.

(** A turn of the sweep loop for the current [i] that ended with the
    exception [e]: the library raised it in the [solve] call, and the
    lists are as they were. *)
Definition sweep_cut (L : library) (i : Z) (sim sols labs : loc) (xs ys : list value)
  (s : state) (e : exn) (s' : state) : Prop :=
  ∃ msg,
    e = LibraryError msg
    ∧ lib_raises L (trace s) (sweep_solve sim i) = Some msg
    ∧ trace s' = trace s ++ [Event (sweep_solve sim i) (Failed msg)]
    ∧ sweep_lists s' sim sols labs xs ys
    ∧ touches_only ["i"; "sol"] [] s s'.

(** The [solve] calls of the turns that returned the solutions [news],
    for the currents from [a] on. *)
Definition sweep_events (sim : loc) (a : Z) (news : list loc) : list event :=
  zip_with (fun i sol => Event (sweep_solve sim i) (Returned (DObject sol)))
    (currents a (length news)) news.

(** The turns for the currents from [a] on that returned the solutions
    [news] took [s] to [s']: the solutions are at the end of [solutions]
    in the order of their currents, their labels at the end of [labels]
    in the same order. *)
Definition swept (sim sols labs : loc) (xs ys : list value) (a : Z) (news : list loc)
  (s s' : state) : Prop :=
  sweep_lists s' sim sols labs
    (xs ++ (VRef <$> news))
    (ys ++ ((fun i => VStr (sweep_label i)) <$> currents a (length news)))
  ∧ Forall2 (fun sol i => heap s' !! sol
                          = Some (OSolution sim span [("inputs", sweep_inputs i)]))
      news (currents a (length news))
  ∧ touches_only ["i"; "sol"] [sim; sols; labs] s s'.

(** The sweep loop went through [k] turns for the currents from [a] on,
    from [s] to [s']. *)
Definition sweep_done (sim sols labs : loc) (xs ys : list value) (a : Z) (k : nat)
  (s s' : state) : Prop :=
  ∃ news,
    length news = k
    ∧ trace s' = trace s ++ sweep_events sim a news
    ∧ swept sim sols labs xs ys a news s s'.

(** The sweep loop was to go through [k] turns for the currents from [a]
    on, and ended with the exception [e] in a turn before the last was
    done: the turns before it were made, and in this one the library raised
    [e] in the [solve] call. *)
Definition sweep_stopped (L : library) (sim sols labs : loc) (xs ys : list value)
  (a : Z) (k : nat) (s : state) (e : exn) (s' : state) : Prop :=
  ∃ news msg,
    (length news < k)%nat
    ∧ e = LibraryError msg
    ∧ lib_raises L (trace s ++ sweep_events sim a news)
        (sweep_solve sim (a + Z.of_nat (length news))) = Some msg
    ∧ trace s' = trace s ++ sweep_events sim a news
                 ++ [Event (sweep_solve sim (a + Z.of_nat (length news))) (Failed msg)]
    ∧ swept sim sols labs xs ys a news s s'.

(** *** The comparison loop *)

(** The body and the [for] statement of the comparison cell. *)
Definition compare_body : list stmt :=
  [ SAssign (TName "simulation") (ECall (pybamm_ "Simulation") [EName "model"] []);
    SExpr (ECall (EAttr (EName "simulation") "solve") [EList [int 0; int 3600]] []);
    SExpr (ECall (EAttr (EName "simulations") "append") [EName "simulation"] []) ].

Definition compare_loop : stmt := SFor "model" (EName "models") compare_body.

Definition new_simulation (m : loc) : libcall :=
  LibCall (Function ["pybamm"; "Simulation"]) [DObject m] [].

Definition plain_solve (sim : loc) : libcall := LibCall (Method sim "solve") [span] [].

(** [pybamm] is the module, and [models] and [simulations] lead to two
    lists that are not one and the same. *)
Record compare_names (s : state) (ms sims : loc) : Prop := CompareNames {
  cn_pybamm : env s !! "pybamm" = Some (VLibrary ["pybamm"]);
  cn_models : env s !! "models" = Some (VRef ms);
  cn_simulations : env s !! "simulations" = Some (VRef sims);
  cn_distinct : ms ≠ sims
}.

Definition is_model (s : state) (m : loc) : Prop :=
  ∃ cls kws, heap s !! m = Some (OModel cls kws).

(** In [s], [models] is the list of the models [models], and
    [simulations] is the list [xs]. *)
Definition compare_lists (s : state) (ms sims : loc) (models : list loc)
  (xs : list value) : Prop :=
  compare_names s ms sims
  ∧ heap s !! ms = Some (OList (VRef <$> models))
  ∧ heap s !! sims = Some (OList xs)
  ∧ Forall (is_model s) models.

(** In [s], [sim] is a simulation of the model [m] that has been solved
    over the hour and holds its solution [sol]. *)
Definition solved_simulation (s : state) (m sim sol : loc) : Prop :=
  heap s !! sim = Some (OSimulation m None (Some sol))
  ∧ heap s !! sol = Some (OSolution sim span []).

(** The calls of a turn of the comparison loop for the model [m]. *)
Definition compare_events (m sim sol : loc) : list event :=
  [ Event (new_simulation m) (Returned (DObject sim));
    Event (plain_solve sim) (Returned (DObject sol)) ].

(** A turn of the comparison loop for the model [m] that took [s] to
    [s']: a new simulation of [m] was constructed and solved, and is at
    the end of [simulations]. *)
Definition compare_turn (m ms sims : loc) (models : list loc) (xs : list value)
  (s s' : state) : Prop :=
  ∃ sim sol,
    trace s' = trace s ++ compare_events m sim sol
    ∧ heap s !! sim = None
    ∧ solved_simulation s' m sim sol
    ∧ compare_lists s' ms sims models (xs ++ [VRef sim])
    ∧ touches_only ["model"; "simulation"] [sims] s s'.

(** The calls of a turn for the model [m] in which the library raised:
    when the simulation was constructed, or when it was solved. *)
Definition compare_failed (m : loc) (msg : string) (evs : list event) : Prop :=
  evs = [Event (new_simulation m) (Failed msg)]
  ∨ ∃ sim, evs = [Event (new_simulation m) (Returned (DObject sim));
                  Event (plain_solve sim) (Failed msg)].

(** A turn of the comparison loop for the model [m] that ended with the
    exception [e]: the library raised it, and [simulations] is as it
    was. *)
Definition compare_cut (m ms sims : loc) (models : list loc)
  (xs : list value) (s : state) (e : exn) (s' : state) : Prop :=
  ∃ msg evs,
    e = LibraryError msg
    ∧ compare_failed m msg evs
    ∧ trace s' = trace s ++ evs
    ∧ compare_lists s' ms sims models xs
    ∧ touches_only ["model"; "simulation"] [] s s'.

(** The calls of the turns for the models [todo] that gave the
    simulations and solutions [news]. *)
Definition compared_events (todo : list loc) (news : list (loc * loc)) : list event :=
  concat (zip_with (fun m new => compare_events m new.1 new.2) todo news).

(** The turns for the models [todo] that gave [news] took [s] to [s']:
    [simulations] has grown by the new simulations, one for each model
    in the order of the models, each solved. *)
Definition compared (ms sims : loc) (models : list loc) (xs : list value)
  (todo : list loc) (news : list (loc * loc)) (s s' : state) : Prop :=
  trace s' = trace s ++ compared_events todo news
  ∧ compare_lists s' ms sims models (xs ++ (VRef <$> news.*1))
  ∧ Forall2 (fun m new => solved_simulation s' m new.1 new.2) todo news
  ∧ touches_only ["model"; "simulation"] [sims] s s'.

(** The loop went through all the models [todo]. *)
Definition compare_done (ms sims : loc) (models : list loc) (xs : list value)
  (todo : list loc) (s s' : state) : Prop :=
  ∃ news, compared ms sims models xs todo news s s'.

(** The loop ended with the exception [e] in the turn of one of the
    models [todo]: the turns of the models before it were made, in this
    one the library raised [e], and [simulations] has grown by the
    simulations of the models before and by no other. *)
Definition compare_stopped (ms sims : loc) (models : list loc) (xs : list value)
  (todo : list loc) (s : state) (e : exn) (s' : state) : Prop :=
  ∃ before m after news msg evs,
    todo = before ++ m :: after
    ∧ e = LibraryError msg
    ∧ compare_failed m msg evs
    ∧ trace s' = trace s ++ compared_events before news ++ evs
    ∧ compare_lists s' ms sims models (xs ++ (VRef <$> news.*1))
    ∧ Forall2 (fun m new => solved_simulation s' m new.1 new.2) before news
    ∧ touches_only ["model"; "simulation"] [sims] s s'.

(** *** The loop over the thermal options *)

(** The body and the [for] statement of the thermal cell. *)
Definition thermal_body : list stmt :=
  [ SAssign (TName "model")
      (ECall (lithium_ion "DFN") []
         [("name", EName "option");
          ("options", EDict [(str "thermal", EName "option")])]);
    SAssign (TName "simulation") (ECall (pybamm_ "Simulation") [EName "model"] []);
    SExpr (ECall (EAttr (EName "solutions") "append")
             [ECall (EAttr (EName "simulation") "solve") [EList [int 0; int 3600]] []] []) ].

Definition thermal_loop : stmt := SFor "option" (EName "thermal_options") thermal_body.

(** What the model of the option [o] is constructed with. *)
Definition thermal_keywords (o : string) : list (string * data) :=
  [("name", DStr o); ("options", DDict [(DStr "thermal", DStr o)])].

Definition thermal_model (o : string) : libcall :=
  LibCall (Function ["pybamm"; "lithium_ion"; "DFN"]) [] (thermal_keywords o).

(** [pybamm] is the module, and [thermal_options] and [solutions] lead to
    two lists that are not one and the same. *)
Record thermal_names (s : state) (os sols : loc) : Prop := ThermalNames {
  tn_pybamm : env s !! "pybamm" = Some (VLibrary ["pybamm"]);
  tn_options : env s !! "thermal_options" = Some (VRef os);
  tn_solutions : env s !! "solutions" = Some (VRef sols);
  tn_distinct : os ≠ sols
}.

(** In [s], [thermal_options] is the list of the strings [options], and
    [solutions] is the list [xs]. *)
Definition thermal_lists (s : state) (os sols : loc) (options : list string)
  (xs : list value) : Prop :=
  thermal_names s os sols
  ∧ heap s !! os = Some (OList (VStr <$> options))
  ∧ heap s !! sols = Some (OList xs).

(** The objects of a turn: the model, its simulation, the solution. *)
Record thermal_new : Type := ThermalNew {
  th_model : loc;
  th_simulation : loc;
  th_solution : loc
}.

(** In [s], the objects [new] are a DFN model constructed for the
    option [o], a simulation of it that has been solved over the hour,
    and the solution. *)
Definition thermal_made (s : state) (o : string) (new : thermal_new) : Prop :=
  heap s !! th_model new = Some (OModel "DFN" (thermal_keywords o))
  ∧ solved_simulation s (th_model new) (th_simulation new) (th_solution new).

(** The calls of a turn of the loop for the option [o]. *)
Definition thermal_events (o : string) (new : thermal_new) : list event :=
  [ Event (thermal_model o) (Returned (DObject (th_model new)));
    Event (new_simulation (th_model new)) (Returned (DObject (th_simulation new)));
    Event (plain_solve (th_simulation new)) (Returned (DObject (th_solution new))) ].

(** A turn of the loop for the option [o] that took [s] to [s']: a model
    was constructed for the option, a simulation of it was constructed
    and solved, and the solution is at the end of [solutions]. *)
Definition thermal_turn (o : string) (os sols : loc) (options : list string)
  (xs : list value) (s s' : state) : Prop :=
  ∃ new,
    trace s' = trace s ++ thermal_events o new
    ∧ heap s !! th_model new = None
    ∧ thermal_made s' o new
    ∧ thermal_lists s' os sols options (xs ++ [VRef (th_solution new)])
    ∧ touches_only ["option"; "model"; "simulation"] [sols] s s'.

(** The calls of a turn for the option [o] in which the library raised:
    when the model was constructed, when the simulation was, or when it
    was solved. *)
Definition thermal_failed (o : string) (msg : string) (evs : list event) : Prop :=
  evs = [Event (thermal_model o) (Failed msg)]
  ∨ (∃ m, evs = [Event (thermal_model o) (Returned (DObject m));
                 Event (new_simulation m) (Failed msg)])
  ∨ (∃ m sim, evs = [Event (thermal_model o) (Returned (DObject m));
                     Event (new_simulation m) (Returned (DObject sim));
                     Event (plain_solve sim) (Failed msg)]).

(** A turn of the loop for the option [o] that ended with the exception
    [e]: the library raised it, and [solutions] is as it was. *)
Definition thermal_cut (o : string) (os sols : loc) (options : list string)
  (xs : list value) (s : state) (e : exn) (s' : state) : Prop :=
  ∃ msg evs,
    e = LibraryError msg
    ∧ thermal_failed o msg evs
    ∧ trace s' = trace s ++ evs
    ∧ thermal_lists s' os sols options xs
    ∧ touches_only ["option"; "model"; "simulation"] [] s s'.

Definition thermal_loop_events (todo : list string) (news : list thermal_new)
  : list event :=
  concat (zip_with thermal_events todo news).

(** The turns for the options [todo] that gave the objects [news] took
    [s] to [s']: [solutions] has grown by the new solutions, one for each
    option in the order of the options. *)
Definition thermal_turns (os sols : loc) (options : list string) (xs : list value)
  (todo : list string) (news : list thermal_new) (s s' : state) : Prop :=
  trace s' = trace s ++ thermal_loop_events todo news
  ∧ thermal_lists s' os sols options (xs ++ (VRef <$> (th_solution <$> news)))
  ∧ Forall2 (thermal_made s') todo news
  ∧ touches_only ["option"; "model"; "simulation"] [sols] s s'.

(** The loop went through all the options [todo]. *)
Definition thermal_done (os sols : loc) (options : list string) (xs : list value)
  (todo : list string) (s s' : state) : Prop :=
  ∃ news, thermal_turns os sols options xs todo news s s'.

(** The loop ended with the exception [e] in the turn of one of the
    options [todo]: the turns of the options before it were made, in this
    one the library raised [e], and [solutions] has grown by the
    solutions of the options before and by no other. *)
Definition thermal_stopped (os sols : loc) (options : list string) (xs : list value)
  (todo : list string) (s : state) (e : exn) (s' : state) : Prop :=
  ∃ before o after news msg evs,
    todo = before ++ o :: after
    ∧ e = LibraryError msg
    ∧ thermal_failed o msg evs
    ∧ trace s' = trace s ++ thermal_loop_events before news ++ evs
    ∧ thermal_lists s' os sols options (xs ++ (VRef <$> (th_solution <$> news)))
    ∧ Forall2 (thermal_made s') before news
    ∧ touches_only ["option"; "model"; "simulation"] [sols] s s'.

(** *** The sweep cell *)

(** The calls that set the sweep up, with what they returned. *)
Definition sweep_setup_events (pv model sim : loc) : list event :=
  [ Event (LibCall (Function ["pybamm"; "ParameterValues"]) [DStr "Chen2020"] [])
      (Returned (DObject pv));
    Event (LibCall (SetItem pv) [DStr "Current function [A]"; DStr "[input]"] [])
      (Returned DNone);
    Event (LibCall (Function ["pybamm"; "lithium_ion"; "SPM"]) [] [])
      (Returned (DObject model));
    Event (LibCall (Function ["pybamm"; "Simulation"]) [DObject model]
             [("parameter_values", DObject pv)])
      (Returned (DObject sim)) ].

(** The call that plots the solutions [news], which returned [plot]. *)
Definition sweep_plot_event (news : list loc) (plot : loc) : event :=
  Event (LibCall (Function ["pybamm"; "dynamic_plot"]) [DList (DObject <$> news)]
           [("labels", DList ((fun i => DStr (sweep_label i)) <$> sweep_currents))])
    (Returned (DObject plot)).

(** The names the sweep cell binds. *)
Definition sweep_cell_names : list string :=
  ["parameter_values"; "model"; "sim"; "solutions"; "labels"; "i"; "sol"].

(** The sweep cell ran from [s] to its end in [s']: it made its calls,
    all of which returned; [solutions] and [labels] are lists that were
    not there before, of the four solutions and of their four labels; the
    cell shows the plot; and nothing that was in the store before has
    been written to. *)
Definition sweep_cell_done (s s' : state) : Prop :=
  ∃ pv model sim sols labs news plot,
    trace s' = trace s ++ sweep_setup_events pv model sim ++ sweep_events sim 1 news
               ++ [sweep_plot_event news plot]
    ∧ length news = 4%nat
    ∧ heap s !! sols = None ∧ heap s !! labs = None
    ∧ sweep_lists s' sim sols labs
        (VRef <$> news) ((fun i => VStr (sweep_label i)) <$> sweep_currents)
    ∧ Forall2 (fun sol i => heap s' !! sol
                            = Some (OSolution sim span [("inputs", sweep_inputs i)]))
        news sweep_currents
    ∧ displayed s' = displayed s ++ [Some (VRef plot)]
    ∧ (∀ id, id ∉ sweep_cell_names → env s' !! id = env s !! id)
    ∧ (∀ l o, heap s !! l = Some o → heap s' !! l = Some o).

(** A cell that ran from [s] ended in [s'] with the exception [e]: the
    library raised it in the last call made; the cell shows nothing, and
    nothing that was in the store before has been written to. *)
Definition cell_stopped (s : state) (e : exn) (s' : state) : Prop :=
  ∃ msg evs c,
    e = LibraryError msg
    ∧ trace s' = trace s ++ evs ++ [Event c (Failed msg)]
    ∧ Forall (fun ev => is_returned ev = true) evs
    ∧ displayed s' = displayed s
    ∧ (∀ l o, heap s !! l = Some o → heap s' !! l = Some o).

(** The cells that read no name but [pybamm], names they have bound
    themselves, and the built-in functions. *)
Definition self_contained_cells : list (list stmt) :=
  [cell_model; cell_compare; cell_parameters; cell_sweep; cell_thermal; cell_mechanics].

(** The kernel has imported the module, and has not rebound the built-in
    functions. *)
Definition imported (s : state) : Prop :=
  env s !! "pybamm" = Some (VLibrary ["pybamm"])
  ∧ ∀ id, id ∈ builtins → env s !! id = None.

(** A kernel that has imported the module and has rebound the names of
    the two built-in functions. *)
Definition rebound_kernel : state :=
  State (<["range" := VInt 5]> (<["print" := VInt 5]> {["pybamm" := VLibrary ["pybamm"]]}))
        [] [] [].

(** A cell ran from [s] to its end in [s']: the calls it made all
    returned, it shows one value (or none), nothing that was in the store
    before has been written to, and the module is still imported. *)
Definition cell_done (s s' : state) : Prop :=
  imported s'
  ∧ (∃ evs, trace s' = trace s ++ evs ∧ Forall (fun ev => is_returned ev = true) evs)
  ∧ (∃ v, displayed s' = displayed s ++ [v])
  ∧ (∀ l o, heap s !! l = Some o → heap s' !! l = Some o).

(** Cells ran one after the other from [s], all to their end, and the
    last in [s']. *)
Definition cells_done (n : nat) (s s' : state) : Prop :=
  imported s'
  ∧ (∃ evs, trace s' = trace s ++ evs ∧ Forall (fun ev => is_returned ev = true) evs)
  ∧ length (displayed s') = (length (displayed s) + n)%nat
  ∧ (∀ l o, heap s !! l = Some o → heap s' !! l = Some o).

(** Cells ran one after the other from [s], and one ended in [s'] with
    the exception [e]: the library raised it in the last call made, and
    nothing that was in the store before has been written to. *)
Definition cells_stopped (s : state) (e : exn) (s' : state) : Prop :=
  ∃ msg evs c,
    e = LibraryError msg
    ∧ trace s' = trace s ++ evs ++ [Event c (Failed msg)]
    ∧ Forall (fun ev => is_returned ev = true) evs
    ∧ (∀ l o, heap s !! l = Some o → heap s' !! l = Some o).

(** A cell ended in [s'] with a NameError for [id] before it had made
    any call: it shows nothing, and nothing that was in the store has been
    written to. *)
Definition name_missing (id : string) (s : state) (e : exn) (s' : state) : Prop :=
  e = NameError id
  ∧ trace s' = trace s
  ∧ displayed s' = displayed s
  ∧ (∀ l o, heap s !! l = Some o → heap s' !! l = Some o).

(** Positions of two more cells in the program. *)
Definition i_compare : nat := 5.
Definition i_thermal : nat := 10.

(** *** The comparison, thermal and mechanics cells *)

(** A cell ran from [s] to its end in [s']: it made the calls [evs], it
    shows [shown], it bound no name but the names [names], and it wrote
    to no object that was in the store before. *)
Definition cell_ran (names : list string) (evs : list event) (shown : option value)
  (s s' : state) : Prop :=
  trace s' = trace s ++ evs
  ∧ displayed s' = displayed s ++ [shown]
  ∧ (∀ id, id ∉ names → env s' !! id = env s !! id)
  ∧ (∀ l o, heap s !! l = Some o → heap s' !! l = Some o).

(** The calls that construct the three models of the comparison. *)
Definition compare_setup_events (spm spme dfn : loc) : list event :=
  [ Event (LibCall (Function ["pybamm"; "lithium_ion"; "SPM"]) [] [])
      (Returned (DObject spm));
    Event (LibCall (Function ["pybamm"; "lithium_ion"; "SPMe"]) [] [])
      (Returned (DObject spme));
    Event (LibCall (Function ["pybamm"; "lithium_ion"; "DFN"]) [] [])
      (Returned (DObject dfn)) ].

Definition compare_plot_event (sims : list loc) (plot : loc) : event :=
  Event (LibCall (Function ["pybamm"; "dynamic_plot"]) [DList (DObject <$> sims)] [])
    (Returned (DObject plot)).

Definition compare_cell_names : list string :=
  ["models"; "simulations"; "model"; "simulation"].

(** The comparison cell ran from [s] to its end in [s']: it constructed
    an SPM, an SPMe and a DFN model, and for each of them in this order a
    simulation, which it solved; [models] and [simulations] are lists
    that were not in the store before, of the three models and of the
    three simulations; and [pybamm.dynamic_plot] was given the three
    simulations, each of them solved, and the cell shows its plot. *)
Definition compare_cell_done (s s' : state) : Prop :=
  ∃ spm spme dfn ms sims news plot,
    cell_ran compare_cell_names
      (compare_setup_events spm spme dfn ++ compared_events [spm; spme; dfn] news
       ++ [compare_plot_event news.*1 plot])
      (Some (VRef plot)) s s'
    ∧ heap s !! ms = None ∧ heap s !! sims = None
    ∧ heap s' !! spm = Some (OModel "SPM" [])
    ∧ heap s' !! spme = Some (OModel "SPMe" [])
    ∧ heap s' !! dfn = Some (OModel "DFN" [])
    ∧ compare_lists s' ms sims [spm; spme; dfn] (VRef <$> news.*1)
    ∧ Forall2 (fun m new => solved_simulation s' m new.1 new.2) [spm; spme; dfn] news.

Definition thermal_options : list string := ["isothermal"; "x-full"].

Definition thermal_variables : list string :=
  [ "Negative particle surface concentration [mol.m-3]";
    "Electrolyte concentration [mol.m-3]";
    "Positive particle surface concentration [mol.m-3]";
    "Negative electrode potential [V]";
    "Electrolyte potential [V]";
    "Positive electrode potential [V]";
    "Current [A]";
    "Voltage [V]";
    "Cell temperature [K]" ].

Definition thermal_plot_event (sols : list loc) (plot : loc) : event :=
  Event (LibCall (Function ["pybamm"; "dynamic_plot"]) [DList (DObject <$> sols)]
           [("output_variables", DList (DStr <$> thermal_variables))])
    (Returned (DObject plot)).

Definition thermal_cell_names : list string :=
  ["thermal_options"; "solutions"; "option"; "model"; "simulation"].

(** The thermal cell ran from [s] to its end in [s']: for each of the two
    thermal options in their order it constructed a model and a
    simulation, which it solved; [thermal_options] and [solutions] are
    lists that were not in the store before, of the two options and of the
    two solutions; and [pybamm.dynamic_plot] was given the two solutions
    and the nine output variables, and the cell shows its plot. *)
Definition thermal_cell_done (s s' : state) : Prop :=
  ∃ os sols news plot,
    cell_ran thermal_cell_names
      (thermal_loop_events thermal_options news
       ++ [thermal_plot_event (th_solution <$> news) plot])
      (Some (VRef plot)) s s'
    ∧ heap s !! os = None ∧ heap s !! sols = None
    ∧ thermal_lists s' os sols thermal_options (VRef <$> (th_solution <$> news))
    ∧ Forall2 (thermal_made s') thermal_options news.

Definition mechanics_keywords : list (string * data) :=
  [("options",
    DDict [(DStr "particle mechanics",
            DTuple [DStr "swelling only"; DStr "swelling and cracking"])])].

Definition mechanics_variables : list string :=
  [ "Negative particle surface radial stress [Pa]";
    "Negative particle surface tangential stress [Pa]";
    "Negative particle surface displacement [m]";
    "Negative particle crack length [m]";
    "Positive particle surface radial stress [Pa]";
    "Positive particle surface tangential stress [Pa]";
    "Positive particle surface displacement [m]";
    "Positive particle crack length [m]" ].

(** The calls of the mechanics cell, with what they returned. *)
Definition mechanics_events (model pv sim sol plot : loc) : list event :=
  [ Event (LibCall (Function ["pybamm"; "lithium_ion"; "DFN"]) [] mechanics_keywords)
      (Returned (DObject model));
    Event (LibCall (Function ["pybamm"; "ParameterValues"]) [DStr "Ai2020"] [])
      (Returned (DObject pv));
    Event (LibCall (Function ["pybamm"; "Simulation"]) [DObject model]
             [("parameter_values", DObject pv)])
      (Returned (DObject sim));
    Event (plain_solve sim) (Returned (DObject sol));
    Event (LibCall (Method sol "plot") [DList (DStr <$> mechanics_variables)] [])
      (Returned (DObject plot)) ].

Definition mechanics_cell_names : list string :=
  ["model"; "parameter_values"; "simulation"; "solution"].

(** The mechanics cell ran from [s] to its end in [s']: it constructed a
    DFN model with the particle mechanics options and the parameter set
    Ai2020, and from these two a simulation, solved it, and plotted the
    eight variables of the solution that [solve] returned; the four
    objects were not in the store before, and the cell shows the plot. *)
Definition mechanics_cell_done (L : library) (s s' : state) : Prop :=
  ∃ model pv sim sol plot,
    cell_ran mechanics_cell_names (mechanics_events model pv sim sol plot)
      (Some (VRef plot)) s s'
    ∧ heap s !! model = None ∧ heap s !! pv = None
    ∧ heap s !! sim = None ∧ heap s !! sol = None
    ∧ object_named s' "model" = Some (model, OModel "DFN" mechanics_keywords)
    ∧ object_named s' "parameter_values"
      = Some (pv, OParameterValues (lib_parameter_set L "Ai2020"))
    ∧ object_named s' "simulation" = Some (sim, OSimulation model (Some pv) (Some sol))
    ∧ object_named s' "solution" = Some (sol, OSolution sim span []).

(** *** Cells that go together *)

(** The first example: the model cell, the simulation cell, the solve
    cell and the plot cell. *)
Definition basic_example : list (list stmt) :=
  [cell_model; cell_simulation; cell_solve; cell_plot].

Definition basic_example_events (model sim sol plot : loc) : list event :=
  [ Event (LibCall (Function ["pybamm"; "lithium_ion"; "DFN"]) [] [])
      (Returned (DObject model));
    Event (new_simulation model) (Returned (DObject sim));
    Event (plain_solve sim) (Returned (DObject sol));
    Event (LibCall (Method sim "plot") [] []) (Returned (DObject plot)) ].

(** The four cells of the first example ran from [s] to their end in
    [s']: a DFN model was constructed, a simulation of it, the
    simulation was solved and then plotted; the model and the simulation
    were not in the store before; the first two cells show nothing, the
    third the solution and the fourth the plot. *)
Definition basic_example_done (s s' : state) : Prop :=
  ∃ model sim sol plot,
    trace s' = trace s ++ basic_example_events model sim sol plot
    ∧ displayed s' = displayed s ++ [None; None; Some (VRef sol); Some (VRef plot)]
    ∧ heap s !! model = None ∧ heap s !! sim = None
    ∧ object_named s' "model" = Some (model, OModel "DFN" [])
    ∧ object_named s' "simulation" = Some (sim, OSimulation model None (Some sol))
    ∧ heap s' !! sol = Some (OSolution sim span [])
    ∧ (∀ id, id ∉ ["model"; "simulation"] → env s' !! id = env s !! id)
    ∧ (∀ l o, heap s !! l = Some o → heap s' !! l = Some o).




(** The import cell ran from [s] to its end in [s']: [pybamm] is bound
    to the module, the one call made is the import, the cell shows
    nothing, and nothing else has changed. *)
Definition import_done (s s' : state) : Prop :=
  trace s' = trace s ++ [Event (LibCall (Import "pybamm") [] [])
                           (Returned DOther)]
  ∧ displayed s' = displayed s ++ [None]
  ∧ env s' = <["pybamm" := VLibrary ["pybamm"]]> (env s)
  ∧ heap s' = heap s.

(** * Proofs *)

(** ** The monad *)

Lemma bind_assoc {A B C} (m : M A) (f : A -> M B) (g : B -> M C) s :
  bind (bind m f) g s = bind m (fun a => bind (f a) g) s.
Proof. unfold bind. destruct (m s); reflexivity. Qed.

Lemma bind_ext {A B} (m : M A) (f g : A -> M B) s :
  (∀ a s', f a s' = g a s') → bind m f s = bind m g s.
Proof. intros H. unfold bind. destruct (m s); auto. Qed.

Lemma bind_cong {A B} (m m' : M A) (k : A -> M B) s :
  (∀ s', m s' = m' s') → bind m k s = bind m' k s.
Proof. intros H. unfold bind. by rewrite H. Qed.

(** ** Every computation of the interpreter logs its calls and nothing else *)

Create HintDb steps.

Section Steps.

Variable L : library.

Lemma steps_ret {A} (a : A) : steps (ret a).
Proof. intros s. exists []. by rewrite app_nil_r. Qed.

Lemma steps_raise {A} (e : exn) : steps (@raise A e).
Proof. intros s. exists []. by rewrite app_nil_r. Qed.

Lemma steps_out_of_fuel {A} : steps (@out_of_fuel A).
Proof. intros s. exact I. Qed.

Lemma steps_bind {A B} (m : M A) (k : A -> M B) :
  steps m → (∀ a, steps (k a)) → steps (bind m k).
Proof.
  intros Hm Hk s. unfold bind. specialize (Hm s).
  destruct (m s) as [a s1 | e s1 |]; [| assumption | exact I].
  destruct Hm as (evs1 & E1 & F1). specialize (Hk a s1).
  destruct (k a s1) as [b s2 | e s2 |]; [| | exact I].
  - destruct Hk as (evs2 & E2 & F2). exists (evs1 ++ evs2).
    rewrite E2, E1, app_assoc. split; [reflexivity | by apply Forall_app].
  - destruct Hk as (evs2 & E2). exists (evs1 ++ evs2).
    by rewrite E2, E1, app_assoc.
Qed.

Lemma steps_get_heap : steps get_heap.
Proof. intros s. exists []. by rewrite app_nil_r. Qed.

Lemma steps_alloc o : steps (alloc o).
Proof. intros s. exists []. by rewrite app_nil_r. Qed.

Lemma steps_store l o : steps (store l o).
Proof. intros s. exists []. by rewrite app_nil_r. Qed.

Lemma steps_bind_name id v : steps (bind_name id v).
Proof. intros s. exists []. by rewrite app_nil_r. Qed.

Lemma steps_display v : steps (display v).
Proof. intros s. exists []. by rewrite app_nil_r. Qed.

Lemma steps_lookup_name id : steps (lookup_name id).
Proof.
  intros s. unfold lookup_name.
  destruct (env s !! id); [| case_bool_decide]; exists []; by rewrite app_nil_r.
Qed.

Lemma steps_library_call c : steps (library_call L c).
Proof.
  intros s. unfold library_call.
  destruct (lib_raises L (trace s) c); [by eexists |].
  destruct (lib_apply L c (heap s)) as [msg | [v h]]; [by eexists |].
  eexists. split; [reflexivity |]. by repeat constructor.
Qed.

Lemma steps_mapM {A B} (f : A -> M B) (l : list A) :
  (∀ a, steps (f a)) → steps (mapM f l).
Proof.
  intros Hf. induction l as [| a l IH]; simpl.
  - apply steps_ret.
  - apply steps_bind; [apply Hf |]. intros b.
    apply steps_bind; [apply IH |]. intros bs. apply steps_ret.
Qed.

Hint Resolve steps_ret steps_raise steps_out_of_fuel steps_get_heap
  steps_alloc steps_store steps_bind_name steps_display steps_lookup_name
  steps_library_call : steps.

(** Takes a goal [steps m] apart along the shape of [m]. *)
Ltac steps :=
  repeat first
    [ progress eauto with steps
    | apply steps_bind; [| intro]
    | apply steps_mapM; intro
    | match goal with
      | |- steps (match ?x with _ => _ end) => destruct x
      | |- steps (if ?b then _ else _) => destruct b
      | |- steps (let '(_, _) := ?x in _) => destruct x
      end ].

Lemma steps_py_str v : steps (py_str v).
Proof. unfold py_str. steps. Qed.

Lemma steps_format_part p : steps (format_part p).
Proof. unfold format_part. pose proof steps_py_str. steps. Qed.

Lemma steps_get_attr v attr : steps (get_attr v attr).
Proof. unfold get_attr. steps. Qed.

Lemma steps_call f args kws : steps (call L f args kws).
Proof. unfold call. steps. Qed.

Lemma steps_set_item obj key v : steps (set_item L obj key v).
Proof. unfold set_item. steps. Qed.

Lemma steps_get_iter v : steps (get_iter v).
Proof. unfold get_iter. steps. Qed.

Hint Resolve steps_format_part steps_get_attr steps_call steps_set_item
  steps_get_iter : steps.

Lemma steps_eval fuel e : steps (eval L fuel e).
Proof.
  revert e. induction fuel as [| fuel IH]; intros e; simpl; [apply steps_out_of_fuel |].
  destruct e; steps.
Qed.

Lemma steps_run_block (run : stmt -> M (option value)) ss :
  (∀ s, steps (run s)) → steps (run_block run ss).
Proof.
  intros Hrun. induction ss as [| s ss IH]; simpl; [apply steps_ret |].
  destruct ss; [apply Hrun |]. apply steps_bind; [apply Hrun | intros _; apply IH].
Qed.

Lemma steps_iterate n body it :
  (∀ v, steps (body v)) → steps (iterate n body it).
Proof.
  intros Hbody. revert it. induction n as [| n IH]; intros it; simpl; steps.
Qed.

Lemma steps_iterations k body it :
  (∀ v, steps (body v)) → steps (iterations k body it).
Proof.
  intros Hbody. revert it. induction k as [| k IH]; intros it; simpl; steps.
Qed.

Lemma steps_exec fuel s : steps (exec L fuel s).
Proof.
  revert s. induction fuel as [| fuel IH]; intros s; simpl; [apply steps_out_of_fuel |].
  pose proof (steps_eval fuel) as He.
  destruct s as [module | [id | obj key] value | value | id iter body]; steps.
  apply steps_iterate. intros x. unfold for_body. steps. apply steps_run_block, IH.
Qed.

Lemma steps_run_cell fuel c : steps (run_cell L fuel c).
Proof.
  unfold run_cell. apply steps_bind; [| intros; apply steps_display].
  apply steps_run_block, steps_exec.
Qed.

Lemma steps_run_cells fuel p : steps (run_cells L fuel p).
Proof.
  induction p as [| c p IH]; simpl; [apply steps_ret |].
  apply steps_bind; [apply steps_run_cell | intros _; apply IH].
Qed.

End Steps.

(** ** A library that raises against the same library when it does not *)

Create HintDb follows.

Section Follows.

Variable L : library.

Lemma follows_refl {A} (m : M A) : follows L m m.
Proof. intros s. destruct (m s); auto. Qed.

Lemma trace_grows {A} (m : M A) s s' :
  steps m → outcome_state (m s) = Some s' → ∃ evs, trace s' = trace s ++ evs.
Proof.
  intros Hm E. specialize (Hm s).
  destruct (m s) as [a s1 | e s1 |]; simplify_eq/=.
  - destruct Hm as (evs & -> & _). by eexists.
  - destruct Hm as (evs & ->). by eexists.
Qed.

Lemma follows_bind {A B} (m m' : M A) (k k' : A -> M B) :
  follows L m m' → (∀ a, follows L (k a) (k' a)) → (∀ a, steps (k' a)) →
  follows L (bind m k) (bind m' k').
Proof.
  intros Hm Hk Hs s. unfold bind. specialize (Hm s).
  destruct (m s) as [a s1 | e s1 |].
  - rewrite Hm. apply Hk.
  - destruct Hm as [-> | (tr & c & msg & E1 & -> & Hr & Hp)]; [by left | right].
    exists tr, c, msg. repeat split; try assumption. intros s' E.
    destruct (m' s) as [a s2 | e2 s2 |] eqn:E'; simplify_eq/=.
    + destruct (Hp s2 eq_refl) as (r & rest & E2).
      destruct (trace_grows (k' a) s2 s' (Hs a) E) as (evs & ->).
      exists r, (rest ++ evs). by rewrite E2, <- app_assoc.
    + by apply Hp.
  - by rewrite Hm.
Qed.

Lemma lib_apply_quiet c h : lib_apply (quiet L) c h = lib_apply L c h.
Proof. reflexivity. Qed.

Lemma follows_library_call c :
  follows L (library_call L c) (library_call (quiet L) c).
Proof.
  intros s. unfold library_call. cbn [lib_raises quiet]. rewrite lib_apply_quiet.
  destruct (lib_raises L (trace s) c) as [msg |] eqn:E.
  - right. exists (trace s), c, msg. repeat split; try done.
    intros s' E'.
    destruct (lib_apply L c (heap s)) as [m | [v h]]; simplify_eq/=; by eexists _, [].
  - destruct (lib_apply L c (heap s)) as [m | [v h]]; auto.
Qed.

Lemma follows_mapM {A B} (f f' : A -> M B) (l : list A) :
  (∀ a, follows L (f a) (f' a)) → (∀ a, steps (f' a)) →
  follows L (mapM f l) (mapM f' l).
Proof.
  intros Hf Hs. induction l as [| a l IH]; simpl; [apply follows_refl |].
  apply follows_bind; [apply Hf | |].
  - intros b. apply follows_bind; [apply IH | intro; apply follows_refl |].
    intro. apply steps_ret.
  - intros b. apply steps_bind; [by apply steps_mapM | intro; apply steps_ret].
Qed.

Hint Resolve follows_refl follows_library_call : follows.
Hint Resolve steps_ret steps_raise steps_out_of_fuel steps_get_heap
  steps_alloc steps_store steps_bind_name steps_display steps_lookup_name
  steps_library_call steps_format_part steps_get_attr steps_call
  steps_set_item steps_get_iter steps_eval steps_exec : steps.

Ltac steps :=
  repeat first
    [ progress eauto with steps
    | apply steps_bind; [| intro]
    | apply steps_mapM; intro
    | apply steps_iterate; intro
    | apply steps_run_block; intro
    | match goal with
      | |- steps (match ?x with _ => _ end) => destruct x
      | |- steps (if ?b then _ else _) => destruct b
      end ].

Ltac follows :=
  repeat first
    [ progress eauto with follows
    | apply follows_bind; [| intro | intro; steps]
    | apply follows_mapM; [intro | intro; steps]
    | match goal with
      | |- follows _ (match ?x with _ => _ end) _ => destruct x
      | |- follows _ (if ?b then _ else _) _ => destruct b
      end ].

Lemma follows_call f args kws :
  follows L (call L f args kws) (call (quiet L) f args kws).
Proof. unfold call. follows. Qed.

Lemma follows_set_item obj key v :
  follows L (set_item L obj key v) (set_item (quiet L) obj key v).
Proof. unfold set_item. follows. Qed.

Hint Resolve follows_call follows_set_item : follows.

Lemma follows_eval fuel e :
  follows L (eval L fuel e) (eval (quiet L) fuel e).
Proof.
  revert e. induction fuel as [| fuel IH]; intros e; simpl; [apply follows_refl |].
  destruct e; follows.
Qed.

Lemma follows_run_block (run run' : stmt -> M (option value)) ss :
  (∀ s, follows L (run s) (run' s)) → (∀ s, steps (run' s)) →
  follows L (run_block run ss) (run_block run' ss).
Proof.
  intros Hrun Hs. induction ss as [| s ss IH]; simpl; [apply follows_refl |].
  destruct ss; [apply Hrun |].
  apply follows_bind; [apply Hrun | intros _; apply IH |].
  intros _. by apply steps_run_block.
Qed.

Lemma follows_iterate n body body' it :
  (∀ v, follows L (body v) (body' v)) → (∀ v, steps (body' v)) →
  follows L (iterate n body it) (iterate n body' it).
Proof.
  intros Hbody Hs. revert it.
  induction n as [| n IH]; intros it; simpl; [apply follows_refl |].
  apply follows_bind; [apply follows_refl | | intro; steps].
  intros h. destruct (iter_next h it) as [[v it'] |]; [| apply follows_refl].
  apply follows_bind; [apply Hbody | intros _; apply IH | intro; steps].
Qed.

Lemma follows_exec fuel s :
  follows L (exec L fuel s) (exec (quiet L) fuel s).
Proof.
  revert s. induction fuel as [| fuel IH]; intros s; simpl; [apply follows_refl |].
  pose proof (follows_eval fuel) as He.
  destruct s as [module | [id | obj key] value | value | id iter body]; follows.
  apply follows_iterate.
  - intros x. unfold for_body. follows. apply follows_run_block; [apply IH | intro; steps].
  - intros x. unfold for_body. steps.
Qed.

Lemma follows_run_cells fuel p :
  follows L (run_cells L fuel p) (run_cells (quiet L) fuel p).
Proof.
  induction p as [| c p IH]; simpl; [apply follows_refl |].
  apply follows_bind; [| intros _; apply IH | intros _; apply steps_run_cells].
  unfold run_cell. apply follows_bind; [| intro; apply follows_refl | intro; steps].
  apply follows_run_block; [apply follows_exec | apply steps_exec].
Qed.

End Follows.

(** ** The notebooks *)

(** The syntax [program] is the syntax of the code cells of both notebooks. *)
Lemma program_is_source nb : nb ∈ notebooks → parses_as nb program.
Proof.
  unfold notebooks. intros H.
  apply elem_of_cons in H as [-> | H]; [vm_compute; reflexivity |].
  apply list_elem_of_singleton in H as ->. vm_compute; reflexivity.
Qed.

(** Run All ends normally when the library does not raise. *)
Lemma run_returns L : run (quiet L) program = Ok tt (final L).
Proof. vm_compute. reflexivity. Qed.

Lemma run_cells_returns L : run_cells (quiet L) fuel program initial = Ok tt (final L).
Proof. vm_compute. reflexivity. Qed.

(** Run All against any library follows Run All against the quiet one. *)
Lemma run_follows L p :
  match run L p with
  | Ok a s1 => run (quiet L) p = Ok a s1
  | Raised e s1 => run (quiet L) p = Raised e s1 ∨ cut_short L e s1 (run (quiet L) p)
  | OutOfFuel => run (quiet L) p = OutOfFuel
  end.
Proof. exact (follows_run_cells L fuel p initial). Qed.

(** Run All logs its calls, and ends normally only if all returned. *)
Lemma run_steps L p :
  match run L p with
  | Ok _ s1 => Forall (fun ev => is_returned ev = true) (trace s1)
  | _ => True
  end.
Proof.
  pose proof (steps_run_cells L fuel p initial) as H. unfold run.
  destruct (run_cells L fuel p initial); [| exact I | exact I].
  by destruct H as (evs & -> & H).
Qed.

Lemma cut_or_same L (o o' : outcome unit) (s' : state) :
  match o with
  | Ok a s1 => o' = Ok a s1
  | Raised e s1 => o' = Raised e s1 ∨ cut_short L e s1 o'
  | OutOfFuel => o' = OutOfFuel
  end →
  o' = Ok tt s' →
  match o with
  | Ok _ s => s = s'
  | Raised e s => cut_short L e s (Ok tt s')
  | OutOfFuel => False
  end.
Proof.
  intros H ->. destruct o as [a s1 | e s1 |].
  - by simplify_eq.
  - by destruct H.
  - discriminate.
Qed.

(** Whatever the library does, Run All ends as it does with the library
    that does not raise, or is cut short by the library. *)
Lemma run_any L :
  match run L program with
  | Ok _ s => s = final L
  | Raised e s => cut_short L e s (Ok tt (final L))
  | OutOfFuel => False
  end.
Proof.
  exact (cut_or_same L (run L program) (run (quiet L) program) (final L)
           (run_follows L program) (run_returns L)).
Qed.

(** The calls of any run are calls of the run that is not cut short. *)
Lemma run_calls L s :
  outcome_state (run L program) = Some s → calls s `prefix_of` calls (final L).
Proof.
  intros E. pose proof (run_any L) as H. revert E H.
  generalize (final L) (run L program).
  intros f [[] s1 | e s1 |] E H; cbn [outcome_state] in E; simplify_eq.
  - reflexivity.
  - destruct H as (tr & c & msg & E1 & _ & _ & H).
    destruct (H _ eq_refl) as (r & rest & E2).
    unfold calls. rewrite E1, E2, !map_app. cbn [map ev_call].
    apply prefix_app, prefix_cons, prefix_nil.
Qed.

Lemma calls_final L : calls (final L) = calls_of_run.
Proof. vm_compute. reflexivity. Qed.

Lemma each_of {A} (P : A → Prop) (l : list A) : Forall P l → ∀ x, x ∈ l → P x.
Proof. apply Forall_forall. Qed.

(** A decidable statement about concrete data holds when its decision
    procedure says so. *)
Ltac by_computing := apply (bool_decide_unpack _); vm_compute; exact I.

(** Membership in a concrete list, by looking for the element. *)
Ltac by_finding :=
  apply list_elem_of_In; vm_compute; repeat first [left; reflexivity | right].

(** Splits conjunctions, and nothing else. *)
Ltac conjuncts := repeat match goal with |- _ ∧ _ => split end.

(** An equation between concrete data, by evaluating both sides. *)
Ltac by_running := vm_compute; reflexivity.

(** ** The order of the calls *)

Lemma model_made_app pre evs m : model_made pre m → model_made (pre ++ evs) m.
Proof.
  intros (ev & Hin & E). exists ev. split; [| assumption].
  apply elem_of_app. by left.
Qed.

Lemma simulation_made_app pre evs sim :
  simulation_made pre sim → simulation_made (pre ++ evs) sim.
Proof.
  intros (before & ev & after & m & -> & E & Hm).
  exists before, ev, (after ++ evs), m. split; [| by split].
  by rewrite <- app_assoc.
Qed.

Lemma solved_app pre evs l : solved pre l → solved (pre ++ evs) l.
Proof.
  intros (ev & sim & sol & Hin & E & Hl). exists ev, sim, sol.
  split; [| by split]. apply elem_of_app. by left.
Qed.

Lemma in_last pre (ev : event) : ev ∈ pre ++ [ev].
Proof. apply elem_of_app. right. by apply list_elem_of_singleton. Qed.

(** A step the monitor accepts is in order, and the monitor stays sound. *)
Lemma monitor_step_sound k k' pre ev :
  monitor_sound k pre → monitor_step k ev = Some k' →
  in_order pre ev ∧ monitor_sound k' (pre ++ [ev]).
Proof.
  intros (Hm & Hs & Hp) Hstep. unfold monitor_step in Hstep.
  destruct (_ && _ && _) eqn:Hok in Hstep; [| discriminate]. injection Hstep as <-.
  apply andb_prop in Hok as [Hok Hplot]. apply andb_prop in Hok as [Hsim Hsolve].
  assert (in_order pre ev) as Hord.
  { repeat split.
    - intros sim m E. rewrite E in Hsim. apply bool_decide_eq_true in Hsim. by apply Hm.
    - intros sim sol E. rewrite E in Hsolve. apply bool_decide_eq_true in Hsolve.
      by apply Hs.
    - intros l Hl. apply Hp.
      rewrite forallb_forall in Hplot. apply list_elem_of_In in Hl.
      apply Hplot in Hl. by apply bool_decide_eq_true in Hl. }
  split; [exact Hord |]. destruct Hord as (O1 & O2 & O3).
  repeat split; cbn [mon_models mon_simulations mon_solved].
  - intros m Hin. destruct (ev_new_model ev) as [m0 |] eqn:E.
    + apply elem_of_cons in Hin as [-> | Hin].
      * exists ev. split; [apply in_last | assumption].
      * by apply model_made_app, Hm.
    + by apply model_made_app, Hm.
  - intros sim Hin. destruct (ev_new_simulation ev) as [[sim0 m0] |] eqn:E.
    + apply elem_of_cons in Hin as [-> | Hin].
      * exists pre, ev, [], m0. repeat split; [assumption |]. by eapply O1.
      * by apply simulation_made_app, Hs.
    + by apply simulation_made_app, Hs.
  - intros l Hin. destruct (ev_solve ev) as [[sim0 sol0] |] eqn:E.
    + apply elem_of_cons in Hin as [-> | Hin].
      { exists ev, sim0, sol0. repeat split; [apply in_last | assumption | by left]. }
      apply elem_of_cons in Hin as [-> | Hin].
      { exists ev, sim0, sol0. repeat split; [apply in_last | assumption | by right]. }
      by apply solved_app, Hp.
    + by apply solved_app, Hp.
Qed.

Lemma monitor_run_sound tr : ∀ k pre,
  monitor_sound k pre → monitor_run k tr = true →
  ∀ before ev after, tr = before ++ ev :: after → in_order (pre ++ before) ev.
Proof.
  induction tr as [| x tr IH]; intros k pre Hk Hrun before ev after E.
  - by destruct before.
  - cbn [monitor_run] in Hrun.
    destruct (monitor_step k x) as [k' |] eqn:Hstep; [| discriminate].
    destruct (monitor_step_sound _ _ _ _ Hk Hstep) as [Hord Hk'].
    destruct before as [| b before]; simplify_eq/=.
    + by rewrite app_nil_r.
    + replace (pre ++ b :: before) with ((pre ++ [b]) ++ before)
        by (by rewrite <- app_assoc).
      by eapply IH.
Qed.

(** A trace the monitor accepts has its calls in order. *)
Lemma monitor_lifecycle tr : monitor_run (Monitor [] [] []) tr = true → lifecycle tr.
Proof.
  intros Hrun before ev after E.
  apply (monitor_run_sound tr (Monitor [] [] []) [] ) with (after := after);
    [| assumption | assumption].
  repeat split; cbn; intros ? Hin; by apply elem_of_nil in Hin.
Qed.

Lemma lifecycle_prefix tr rest : lifecycle (tr ++ rest) → lifecycle tr.
Proof.
  intros H before ev after ->. apply (H before ev (after ++ rest)).
  by rewrite <- app_assoc.
Qed.

(** A call that raised has constructed and solved nothing. *)
Lemma failed_new_simulation c msg : ev_new_simulation (Event c (Failed msg)) = None.
Proof.
  unfold ev_new_simulation, ev_callee, ev_args, ev_result_object. cbn [ev_call ev_result].
  by repeat case_match.
Qed.

Lemma failed_solve c msg : ev_solve (Event c (Failed msg)) = None.
Proof.
  unfold ev_solve, ev_callee, ev_result_object. cbn [ev_call ev_result].
  by repeat case_match.
Qed.

(** The order does not depend on how the last call ended. *)
Lemma lifecycle_failed tr c r msg :
  lifecycle (tr ++ [Event c r]) → lifecycle (tr ++ [Event c (Failed msg)]).
Proof.
  intros H before ev after E.
  destruct after as [| y after _] using rev_ind.
  - apply app_inj_tail in E as [<- <-].
    destruct (H tr (Event c r) [] eq_refl) as (_ & _ & O3).
    repeat split; [| | exact O3].
    + intros sim m E. by rewrite failed_new_simulation in E.
    + intros sim sol E. by rewrite failed_solve in E.
  - rewrite app_comm_cons, app_assoc in E. apply app_inj_tail in E as [-> _].
    apply (H before ev (after ++ [Event c r])). by rewrite <- app_assoc.
Qed.

(** Whatever the library does, the calls of Run All are in order. *)
Lemma run_lifecycle L s :
  outcome_state (run L program) = Some s → lifecycle (trace s).
Proof.
  assert (lifecycle (trace (final L))) as Hf.
  { apply monitor_lifecycle. vm_compute. reflexivity. }
  intros E. pose proof (run_any L) as H. revert Hf E H.
  generalize (final L) (run L program).
  intros f [[] s1 | e s1 |] Hf E H; cbn [outcome_state] in E; simplify_eq.
  - assumption.
  - destruct H as (tr & c & msg & E1 & _ & _ & H).
    destruct (H _ eq_refl) as (r & rest & E2). rewrite E1.
    apply (lifecycle_failed tr c r). apply (lifecycle_prefix _ rest).
    rewrite E2 in Hf. rewrite <- app_assoc. exact Hf.
Qed.

(** ** Loops, turn by turn *)

Lemma bind_get_heap {A} (f : list object -> M A) s : bind get_heap f s = f (heap s) s.
Proof. reflexivity. Qed.

(** A loop that has fuel for [k] turns and more does its first [k] turns
    and goes on from there. *)
Lemma iterate_iterations k n body it s :
  iterate (k + S n) body it s
  = bind (iterations k body it) (fun it' => iterate (S n) body it') s.
Proof.
  revert it s. induction k as [| k IH]; intros it s; [reflexivity |].
  cbn [Nat.add iterate iterations]. rewrite bind_assoc, !bind_get_heap.
  destruct (iter_next (heap s) it) as [[v it'] |] eqn:E.
  - rewrite bind_assoc. apply bind_ext. intros _ s2. apply IH.
  - unfold bind at 1. unfold ret at 2. cbn [iterate]. by rewrite bind_get_heap, E.
Qed.

(** A loop whose iterator runs out after [k] turns ends there. *)
Lemma iterate_exhausted k n body it it' s s' :
  iterations k body it s = Ok it' s' → iter_next (heap s') it' = None →
  iterate (k + S n) body it s = Ok tt s'.
Proof.
  intros E1 E2. rewrite iterate_iterations. unfold bind at 1. rewrite E1.
  cbn [iterate]. by rewrite bind_get_heap, E2.
Qed.

(** A [for] statement is the turns of its loop, until the iterator runs
    out. *)
Lemma exec_for L f id iter body k n v it it' s s' :
  f = (k + S n)%nat →
  eval L f iter s = Ok v s → get_iter v s = Ok it s →
  iterations k (for_body (exec L f) id body) it s = Ok it' s' →
  iter_next (heap s') it' = None →
  exec L (S f) (SFor id iter body) s = Ok None s'.
Proof.
  intros -> E1 E2 E3 E4. cbn [exec]. unfold bind at 1. rewrite E1.
  unfold bind at 1. rewrite E2. unfold bind at 1.
  by rewrite (iterate_exhausted _ _ _ _ _ _ _ E3 E4).
Qed.

(** ** The run, stage by stage *)

Lemma run_block_app run ss1 s ss2 st :
  run_block run (ss1 ++ s :: ss2) st
  = bind (run_block run ss1) (fun _ => run_block run (s :: ss2)) st.
Proof.
  revert st. induction ss1 as [| a ss1 IH]; intros st; [reflexivity |].
  destruct ss1 as [| b ss1]; [reflexivity |].
  change (run_block run ((a :: b :: ss1) ++ s :: ss2) st)
    with (bind (run a) (fun _ => run_block run ((b :: ss1) ++ s :: ss2)) st).
  change (run_block run (a :: b :: ss1))
    with (bind (run a) (fun _ => run_block run (b :: ss1))).
  rewrite bind_assoc. apply bind_ext. intros _ st'. apply IH.
Qed.

Lemma run_cells_app L f p1 p2 st :
  run_cells L f (p1 ++ p2) st = bind (run_cells L f p1) (fun _ => run_cells L f p2) st.
Proof.
  revert st. induction p1 as [| c p1 IH]; intros st; [reflexivity |].
  cbn [app run_cells]. rewrite bind_assoc. apply bind_ext. intros _ st'. apply IH.
Qed.

(** Run All is the run up to a point, then the rest of the run. *)
Lemma run_through_stage L k n st :
  (k < length program)%nat → (n < length (nth k program []))%nat →
  run_cells L fuel program st = bind (reach L k n) (fun _ => rest_of_run L k n) st.
Proof.
  unfold reach, rest_of_run. generalize program. intros p Hk Hn.
  destruct (lookup_lt_is_Some_2 p k Hk) as [c Ec].
  rewrite (nth_lookup_Some _ _ [] _ Ec) in *.
  rewrite <- (take_drop_middle p k c Ec) at 1.
  rewrite run_cells_app, !bind_assoc. apply bind_ext. intros _ st1.
  cbn [run_cells]. unfold run_cell. rewrite !bind_assoc.
  destruct (drop n c) as [| s ss] eqn:Ed.
  { apply (f_equal length) in Ed. rewrite length_drop in Ed. cbn in Ed. lia. }
  rewrite <- (take_drop n c) at 1. rewrite Ed.
  etrans; [apply bind_cong; intros; apply run_block_app |].
  rewrite bind_assoc. apply bind_ext. intros _ st2. reflexivity.
Qed.

Lemma bind_returns {A B} (m : M A) (k : A -> M B) st b st' :
  bind m k st = Ok b st' → ∃ a st1, m st = Ok a st1 ∧ k a st1 = Ok b st'.
Proof. unfold bind. destruct (m st) as [a st1 | |]; [by exists a, st1 | done | done]. Qed.

(** The states of the stages are states Run All passes through: the run
    reaches them, and goes on from them to its end. *)
Lemma stage_on_the_way L k n :
  (k < length program)%nat → (n < length (nth k program []))%nat →
  reach (quiet L) k n initial = Ok tt (state_at L k n)
  ∧ rest_of_run (quiet L) k n (state_at L k n) = Ok tt (final L).
Proof.
  intros Hk Hn. pose proof (run_cells_returns L) as E.
  rewrite (run_through_stage _ k n) in E by assumption.
  apply bind_returns in E as ([] & st1 & E1 & E2).
  unfold state_at. rewrite E1. by split.
Qed.

(** ** The vocabulary at work *)

(** A [try] statement would be seen: its keywords are NAME tokens. *)
Example tokenize_sees_try :
  tokenize ["try:"; "    sim.solve([0, 3600])"; "except Exception:"; "    pass"]
  = [NAME "try"; OP ":"; NEWLINE; INDENT;
     NAME "sim"; OP "."; NAME "solve"; OP "("; OP "["; NUMBER "0"; OP ",";
     NUMBER "3600"; OP "]"; OP ")"; NEWLINE; DEDENT;
     NAME "except"; NAME "Exception"; OP ":"; NEWLINE; INDENT;
     NAME "pass"; NEWLINE; DEDENT].
Proof. reflexivity. Qed.

Example uses_keyword_sees_def :
  uses_keyword [markdown ["# title"]; code ["def f(x):"; tab +:+ "return x"]] "def".
Proof. by_computing. Qed.

(** Line ends inside brackets and trailing commas do not count. *)
Example tokenize_joins_lines :
  strip_trailing_commas (tokenize ["models = ["; tab +:+ "a(),"; tab +:+ "b(),"; "]"])
  = [NAME "models"; OP "="; OP "["; NAME "a"; OP "("; OP ")"; OP ",";
     NAME "b"; OP "("; OP ")"; OP "]"; NEWLINE].
Proof. reflexivity. Qed.

(** Plotting a simulation that has not been solved is out of order, and
    the monitor says so. *)
Example unsolved_plot_out_of_order :
  let made := [ Event (LibCall (Function ["pybamm"; "lithium_ion"; "SPM"]) [] [])
                  (Returned (DObject 0));
                Event (LibCall (Function ["pybamm"; "Simulation"]) [DObject 0] [])
                  (Returned (DObject 1)) ] in
  let plot := Event (LibCall (Method 1 "plot") [] []) (Returned (DObject 2)) in
  monitor_run (Monitor [] [] []) (made ++ [plot]) = false
  ∧ ¬ lifecycle (made ++ [plot]).
Proof.
  cbv zeta. split; [reflexivity |]. intros H.
  destruct (H _ _ [] eq_refl) as (_ & _ & Hplot).
  destruct (Hplot 1%nat) as (ev & sim & sol & Hin & E & _).
  { by_finding. }
  apply elem_of_cons in Hin as [-> | Hin]; [discriminate E |].
  apply list_elem_of_singleton in Hin as ->. discriminate E.
Qed.

(** A library call that raises ends the run, with that exception. *)
Example failing_run :
  ∃ s, run failing_library program = Raised (LibraryError "SolverError") s
       ∧ length (trace s) = 25%nat
       ∧ last (trace s) = Some (Event (sweep_solve 26 2) (Failed "SolverError")).
Proof. eexists. split; [by_running |]. split; by_running. Qed.

(** ** Running code from any state *)

Lemma wp_ret {A} (a : A) Q E s : Q a s → wp (ret a) Q E s.
Proof. done. Qed.

Lemma wp_raise {A} e (Q : A → state → Prop) E s : E e s → wp (raise e) Q E s.
Proof. done. Qed.

Lemma wp_bind {A B} (m : M A) (k : A -> M B) Q E s :
  wp m (fun a s' => wp (k a) Q E s') E s → wp (bind m k) Q E s.
Proof. unfold wp, bind. by destruct (m s). Qed.

Lemma wp_mono {A} (m : M A) (Q Q' : A → state → Prop) (E E' : exn → state → Prop) s :
  wp m Q E s → (∀ a s', Q a s' → Q' a s') → (∀ e s', E e s' → E' e s') → wp m Q' E' s.
Proof. unfold wp. destruct (m s); auto. Qed.

Lemma wp_get_heap Q E s : Q (heap s) s → wp get_heap Q E s.
Proof. done. Qed.

Lemma wp_lookup_name id v Q E s :
  env s !! id = Some v → Q v s → wp (lookup_name id) Q E s.
Proof. intros H HQ. unfold wp, lookup_name. by rewrite H. Qed.

Lemma wp_lookup_builtin id Q E s :
  env s !! id = None → id ∈ builtins → Q (VBuiltin id) s → wp (lookup_name id) Q E s.
Proof.
  intros H Hb HQ. unfold wp, lookup_name. by rewrite H, bool_decide_eq_true_2.
Qed.

Lemma wp_alloc o Q E s :
  Q (VRef (length (heap s))) (State (env s) (heap s ++ [o]) (trace s) (displayed s)) →
  wp (alloc o) Q E s.
Proof. done. Qed.

Lemma wp_store l o Q E s :
  Q tt (State (env s) (<[l := o]> (heap s)) (trace s) (displayed s)) →
  wp (store l o) Q E s.
Proof. done. Qed.

Lemma wp_bind_name id v Q E s :
  Q tt (State (<[id := v]> (env s)) (heap s) (trace s) (displayed s)) →
  wp (bind_name id v) Q E s.
Proof. done. Qed.

Lemma wp_display v Q E s :
  Q tt (State (env s) (heap s) (trace s) (displayed s ++ [v])) → wp (display v) Q E s.
Proof. done. Qed.

(** A call into the library either raises what the library raises, or
    does what the library does. *)
Lemma wp_library_call L c v h Q E s :
  lib_apply L c (heap s) = inr (v, h) →
  match lib_raises L (trace s) c with
  | Some msg =>
      E (LibraryError msg)
        (State (env s) (heap s) (trace s ++ [Event c (Failed msg)]) (displayed s))
  | None =>
      Q v (State (env s) h (trace s ++ [Event c (Returned (frozen h v))]) (displayed s))
  end →
  wp (library_call L c) Q E s.
Proof.
  intros Ha H. unfold wp, library_call.
  destruct (lib_raises L (trace s) c); [exact H | by rewrite Ha].
Qed.

(** The interpreter, one step at a time. *)
Lemma eval_S L f e :
  eval L (S f) e
  = match e with
    | EName id => lookup_name id
    | EConst c => ret (value_of_constant c)
    | EFString parts => ss <- mapM format_part parts ;; ret (VStr (String.concat "" ss))
    | EList elts => vs <- mapM (eval L f) elts ;; alloc (OList vs)
    | ETuple elts => vs <- mapM (eval L f) elts ;; ret (VTuple vs)
    | EDict items =>
        kvs <- mapM (fun kv => k <- eval L f kv.1 ;; v <- eval L f kv.2 ;; ret (k, v))
                    items ;;
        alloc (ODict kvs)
    | EAttr value attr => v <- eval L f value ;; get_attr v attr
    | ECall func args keywords =>
        f' <- eval L f func ;;
        vs <- mapM (eval L f) args ;;
        kws <- mapM (fun kw => v <- eval L f kw.2 ;; ret (kw.1, v)) keywords ;;
        call L f' vs kws
    end.
Proof. reflexivity. Qed.

Lemma exec_S L f s :
  exec L (S f) s
  = match s with
    | SImport module =>
        v <- library_call L (LibCall (Import module) [] []) ;;
        bind_name module v ;; ret None
    | SAssign (TName id) value => v <- eval L f value ;; bind_name id v ;; ret None
    | SAssign (TSubscript obj key) value =>
        v <- eval L f value ;;
        o <- eval L f obj ;;
        k <- eval L f key ;;
        set_item L o k v ;; ret None
    | SExpr value => v <- eval L f value ;; ret (Some v)
    | SFor id iter body =>
        v <- eval L f iter ;;
        it <- get_iter v ;;
        iterate f (for_body (exec L f) id body) it ;;
        ret None
    end.
Proof. reflexivity. Qed.

Lemma mapM_cons {A B} (f : A -> M B) a l :
  mapM f (a :: l) = (b <- f a ;; bs <- mapM f l ;; ret (b :: bs)).
Proof. reflexivity. Qed.

Lemma run_block_cons run s s' ss :
  run_block run (s :: s' :: ss) = (run s ;; run_block run (s' :: ss)).
Proof. reflexivity. Qed.

Lemma freeze_S d h v :
  freeze (S d) h v
  = match v with
    | VNone => DNone
    | VInt n => DInt n
    | VFloat x => DFloat x
    | VStr s => DStr s
    | VTuple elts => DTuple (map (freeze d h) elts)
    | VRef l =>
        match h !! l with
        | Some (OList items) => DList (map (freeze d h) items)
        | Some (ODict items) =>
            DDict (map (fun kv => (freeze d h kv.1, freeze d h kv.2)) items)
        | Some _ => DObject l
        | None => DOther
        end
    | VRange _ _ | VAttr _ _ | VLibrary _ | VBuiltin _ => DOther
    end.
Proof. reflexivity. Qed.

Lemma frozen_list h l items :
  h !! l = Some (OList items) →
  frozen h (VRef l) = DList (map (freeze (pred freeze_depth) h) items).
Proof. intros H. unfold frozen, freeze_depth. by rewrite freeze_S, H. Qed.

Lemma frozen_dict h l items :
  h !! l = Some (ODict items) →
  frozen h (VRef l)
  = DDict (map (fun kv => (freeze (pred freeze_depth) h kv.1,
                           freeze (pred freeze_depth) h kv.2)) items).
Proof. intros H. unfold frozen, freeze_depth. by rewrite freeze_S, H. Qed.

(** A library object is handed to the library by its identity. *)
Lemma frozen_object h l o :
  h !! l = Some o → is_library_object o = true → frozen h (VRef l) = DObject l.
Proof.
  intros H Ho. unfold frozen, freeze_depth. rewrite freeze_S, H.
  by destruct o.
Qed.

Lemma frozen_str h x : frozen h (VStr x) = DStr x.
Proof. reflexivity. Qed.

Ltac lengths :=
  repeat first [rewrite length_insert | rewrite length_app]; cbn [length]; lia.

(** Looking up a place in a store that has been added to and written to. *)
Ltac heap_lookup :=
  unfold loc in *; cbn [heap];
  repeat first
    [ rewrite list_lookup_insert_eq by lengths
    | rewrite list_lookup_insert_ne by lengths
    | rewrite lookup_app_l by lengths
    | rewrite list_lookup_middle by lengths ];
  try match goal with
      | H : heap ?s !! ?l = Some _ |- context [heap ?s !! ?l] => rewrite H
      end.

(** Places in the store, counted from the end of the store at the start. *)
Ltac places := rewrite ?length_insert, ?length_app; cbn [length].

Ltac wp_name :=
  eapply wp_lookup_name;
  [ cbn [env]; rewrite ?lookup_insert_ne by done;
    first [apply lookup_insert_eq | eassumption]
  | ].

Ltac wp_step :=
  lazymatch goal with
  | |- wp (bind _ _) _ _ _ => apply wp_bind
  | |- wp (ret _) _ _ _ => apply wp_ret
  | |- wp get_heap _ _ _ => apply wp_get_heap
  | |- wp (alloc _) _ _ _ => apply wp_alloc; cbn [env heap trace displayed]; places
  | |- wp (store _ _) _ _ _ => apply wp_store; cbn [env heap trace displayed]
  | |- wp (bind_name _ _) _ _ _ => apply wp_bind_name; cbn [env heap trace displayed]
  | |- wp (display _) _ _ _ => apply wp_display; cbn [env heap trace displayed]
  | |- wp (lookup_name _) _ _ _ => wp_name
  | |- wp (eval _ (S _) _) _ _ _ =>
      rewrite eval_S; lazy beta iota delta [int str float pybamm_ lithium_ion]
  | |- wp (exec _ (S _) (SAssign _ _)) _ _ _ => rewrite exec_S; lazy beta iota
  | |- wp (exec _ (S _) (SExpr _)) _ _ _ => rewrite exec_S; lazy beta iota
  | |- wp (exec _ (S _) (SImport _)) _ _ _ => rewrite exec_S; lazy beta iota
  | |- wp (exec _ (S _) (SFor _ _ _)) _ _ _ => rewrite exec_S; lazy beta iota
  | |- wp (mapM _ (_ :: _)) _ _ _ => rewrite mapM_cons
  | |- wp (mapM _ []) _ _ _ => apply wp_ret
  | |- wp (run_block _ (_ :: _ :: _)) _ _ _ => rewrite run_block_cons
  | |- wp (run_block _ [_]) _ _ _ => cbn [run_block]
  | |- wp (format_part _) _ _ _ => cbn [format_part]
  | |- wp (py_str _) _ _ _ => cbn [py_str]
  | |- wp (get_attr _ _) _ _ _ => unfold get_attr at 1; lazy beta iota; cbn [app]
  | |- wp (get_iter _) _ _ _ => unfold get_iter at 1; lazy beta iota
  | |- wp (call _ _ _ _) _ _ _ => unfold call at 1; lazy beta iota
  | |- wp (set_item _ _ _ _) _ _ _ => unfold set_item at 1; lazy beta iota
  | |- wp (match _ with Some _ => _ | None => _ end) _ _ _ =>
      progress heap_lookup; lazy beta iota; cbn [is_library_object]
  | |- wp (if bool_decide _ then _ else _) _ _ _ =>
      first [ rewrite bool_decide_eq_true_2 by done
            | rewrite bool_decide_eq_false_2 by done ]
  end.

Ltac wp_steps := repeat (progress (repeat wp_step; cbn [value_of_constant fst snd])).

(** The arguments of a call, as the library receives them. *)
Ltac wp_freeze :=
  unfold freeze_keywords; cbn [map fst snd];
  repeat first
    [ rewrite frozen_str
    | erewrite frozen_object by (heap_lookup; first [eassumption | reflexivity])
    | erewrite frozen_list by (heap_lookup; first [eassumption | reflexivity])
    | erewrite frozen_dict by (heap_lookup; first [eassumption | reflexivity]) ];
  unfold freeze_depth; cbn [map freeze fst snd pred].

(** What the library does with a call, step by step. *)
Ltac lib_apply_step :=
  unfold lib_apply, new_object; cbn [lc_callee lc_args lc_keywords keyword];
  repeat first
    [ rewrite bool_decide_eq_true_2 by done
    | rewrite bool_decide_eq_false_2 by (by intros [? ?])
    | rewrite bool_decide_eq_false_2 by done ];
  cbn [keyword]; heap_lookup; repeat (heap_lookup; lazy beta iota).

(** The two ways a call into the library can go. *)
Ltac wp_raises msg R :=
  lazymatch goal with
  | |- match ?x with Some _ => _ | None => _ end => destruct x as [msg |] eqn:R
  end.

Lemma touches_only_refl ids ls s : touches_only ids ls s s.
Proof. by split; [| split; [intros l o _ H |]]. Qed.

Lemma touches_only_trans ids ls s1 s2 s3 :
  touches_only ids ls s1 s2 → touches_only ids ls s2 s3 → touches_only ids ls s1 s3.
Proof.
  intros (E1 & H1 & D1) (E2 & H2 & D2). split; [| split].
  - intros id Hid. by rewrite E2, E1.
  - intros l o Hl H. by apply H2, H1.
  - by rewrite D2.
Qed.

Lemma touches_only_nil ids ls s s' : touches_only ids [] s s' → touches_only ids ls s s'.
Proof.
  intros (E & H & D). split; [exact E |]. split; [| exact D].
  intros l o _. apply H, not_elem_of_nil.
Qed.

Lemma touches_heap ids ls s s' l o :
  touches_only ids ls s s' → l ∉ ls → heap s !! l = Some o → heap s' !! l = Some o.
Proof. intros (_ & H & _). apply H. Qed.

Lemma touches_env ids ls s s' id v :
  touches_only ids ls s s' → id ∉ ids → env s !! id = v → env s' !! id = v.
Proof. intros (E & _ & _) Hid <-. by apply E. Qed.

(** A state made from [s] by binding names and by adding to the store
    and writing to it touches only what has been bound and written to. *)
Ltac frame :=
  split; [| split; [| reflexivity]];
  [ let Hid := fresh in
    intros ? Hid; cbn [env]; rewrite ?not_elem_of_cons in Hid;
    rewrite ?lookup_insert_ne by (intros <-; intuition congruence); reflexivity
  | let Hl := fresh in let E := fresh in
    intros ? ? Hl E; pose proof (lookup_lt_Some _ _ _ E);
    rewrite ?not_elem_of_cons in Hl; unfold loc in *; by heap_lookup ].

(** ** The sweep loop, from any state *)

Lemma wp_sweep_body L f i s sim sols labs xs ys :
  sweep_lists s sim sols labs xs ys →
  wp (for_body (exec L (4 + f)) "i" sweep_body (VInt i))
     (fun _ s' => sweep_turn i sim sols labs xs ys s s')
     (fun e s' => sweep_cut L i sim sols labs xs ys s e s') s.
Proof.
  intros ([Hsim Hsols Hlabs D] & (m & p & sol0 & Hs) & Hx & Hy).
  unfold loc in *.
  assert (sim ≠ sols ∧ sim ≠ labs) as [D1 D2] by (split; congruence).
  pose proof (lookup_lt_Some _ _ _ Hs) as Bs.
  pose proof (lookup_lt_Some _ _ _ Hx) as Bx.
  pose proof (lookup_lt_Some _ _ _ Hy) as By.
  unfold for_body, sweep_body. cbn [Nat.add].
  wp_steps. wp_freeze.
  eapply wp_library_call; [lib_apply_step; reflexivity |].
  cbn [env heap trace displayed]. places. wp_raises msg R.
  { exists msg. split; [reflexivity |]. split; [exact R |]. split; [reflexivity |].
    split; [| frame].
    split; [| split; [| split]]; cbn [env heap].
    - split; cbn [env]; rewrite ?lookup_insert_ne by done; assumption.
    - heap_lookup. eauto.
    - by heap_lookup.
    - by heap_lookup. }
  wp_freeze. wp_steps.
  eexists. split; [reflexivity |]. cbn [env heap trace displayed].
  split; [apply lookup_ge_None_2; lengths |].
  split; [by heap_lookup |].
  split; [split; [| split; [| split]] |]; cbn [env heap].
  - split; cbn [env]; rewrite ?lookup_insert_ne by done; assumption.
  - heap_lookup. eauto.
  - by heap_lookup.
  - by heap_lookup.
  - frame.
Qed.

Lemma sweep_events_cons sim a sol news :
  sweep_events sim a (sol :: news)
  = Event (sweep_solve sim a) (Returned (DObject sol)) :: sweep_events sim (a + 1) news.
Proof. reflexivity. Qed.

(** A solution is none of the objects the loop writes to. *)
Lemma solution_apart s (sim sols labs : nat) xs ys sol sim' t kws :
  sweep_lists s sim sols labs xs ys → heap s !! sol = Some (OSolution sim' t kws) →
  sol ∉ [sim; sols; labs].
Proof.
  intros (_ & (m & p & sl & Hs) & Hx & Hy) H. unfold loc in *.
  rewrite !not_elem_of_cons. repeat split; [congruence .. | apply not_elem_of_nil].
Qed.

(** The turns of the sweep loop over [range(a, b)]: all of them, unless
    the library raises in one. *)
Lemma wp_sweep_iterate L f sim sols labs :
  ∀ k a b n s xs ys,
    sweep_lists s sim sols labs xs ys → k = Z.to_nat (b - a) → (k < n)%nat →
    wp (iterate n (for_body (exec L (4 + f)) "i" sweep_body) (IterRange a b))
       (fun _ s' => sweep_done sim sols labs xs ys a k s s')
       (fun e s' => sweep_stopped L sim sols labs xs ys a k s e s') s.
Proof.
  induction k as [| k IH]; intros a b n s xs ys H Hk Hn;
    (destruct n as [| n]; [lia |]); cbn [iterate];
    apply wp_bind, wp_get_heap; cbn [iter_next];
    (destruct (Z.ltb_spec a b) as [Hab | Hab]; [| try lia]); try lia.
  - apply wp_ret. exists []. split; [reflexivity |].
    split; [by rewrite app_nil_r |]. unfold swept. cbn [length currents fmap list_fmap].
    rewrite !app_nil_r. split; [exact H |]. split; [constructor |].
    apply touches_only_refl.
  - apply wp_bind. eapply wp_mono; [apply wp_sweep_body, H | |].
    + intros [] s1 (sol & Et & Fr & Os & H1 & U1).
      eapply wp_mono; [apply (IH (a + 1)%Z b n s1 _ _ H1); lia | |].
      * intros [] s' (news & Hl & Et' & H' & O' & U').
        exists (sol :: news). split; [cbn [length]; lia |].
        split; [by rewrite Et', Et, <- app_assoc |].
        unfold swept. cbn [length currents fmap list_fmap]. rewrite <- !app_assoc in H'.
        split; [exact H' |]. split; [| by eapply touches_only_trans].
        constructor; [| exact O'].
        exact (touches_heap _ _ _ _ _ _ U' (solution_apart _ _ _ _ _ _ _ _ _ _ H1 Os) Os).
      * intros e s' (news & msg & Hl & -> & R & Et' & H' & O' & U').
        exists (sol :: news), msg. split; [cbn [length]; lia |].
        split; [reflexivity |].
        replace (a + Z.of_nat (length (sol :: news)))%Z
          with (a + 1 + Z.of_nat (length news))%Z by (cbn [length]; lia).
        rewrite sweep_events_cons.
        split; [by rewrite Et, <- app_assoc in R |].
        split; [by rewrite Et', Et, <- !app_assoc |].
        unfold swept. cbn [length currents fmap list_fmap]. rewrite <- !app_assoc in H'.
        split; [exact H' |]. split; [| by eapply touches_only_trans].
        constructor; [| exact O'].
        exact (touches_heap _ _ _ _ _ _ U' (solution_apart _ _ _ _ _ _ _ _ _ _ H1 Os) Os).
    + intros e s1 (msg & -> & R & Et & H1 & U1).
      exists [], msg. split; [cbn [length]; lia |]. split; [reflexivity |].
      unfold swept, sweep_events.
      cbn [length currents zip_with fmap list_fmap app].
      rewrite Z.add_0_r, !app_nil_r.
      split; [exact R |]. split; [exact Et |]. split; [exact H1 |].
      split; [constructor | by apply touches_only_nil].
Qed.

(** The [for] statement of the sweep. *)
Lemma wp_sweep_loop L f s sim sols labs xs ys :
  sweep_lists s sim sols labs xs ys → env s !! "range" = None →
  wp (exec L (6 + f) sweep_loop)
     (fun _ s' => sweep_done sim sols labs xs ys 1 4 s s')
     (fun e s' => sweep_stopped L sim sols labs xs ys 1 4 s e s') s.
Proof.
  intros H Hr. unfold sweep_loop. cbn [Nat.add].
  wp_steps. apply wp_lookup_builtin; [exact Hr | by_finding |].
  wp_steps.
  eapply wp_mono;
    [apply (wp_sweep_iterate L (S f) sim sols labs 4 1 5 _ s xs ys H); [reflexivity | lia]
    | |].
  - intros [] s' Hd. wp_steps. exact Hd.
  - intros e s' Hd. exact Hd.
Qed.

(** ** The comparison loop, from any state *)

Lemma is_model_untouched ids s s' m :
  touches_only ids [] s s' → is_model s m → is_model s' m.
Proof.
  intros U (cls & kws & H). exists cls, kws.
  exact (touches_heap _ _ _ _ _ _ U (not_elem_of_nil _) H).
Qed.

Lemma wp_compare_body L f m s ms sims models xs :
  compare_lists s ms sims models xs → is_model s m →
  wp (for_body (exec L (4 + f)) "model" compare_body (VRef m))
     (fun _ s' => compare_turn m ms sims models xs s s')
     (fun e s' => compare_cut m ms sims models xs s e s') s.
Proof.
  intros ([Hpy Hms Hsims D] & Hm & Hx & Hmodels) (cls & kws & Hmod).
  unfold loc in *.
  pose proof (lookup_lt_Some _ _ _ Hm) as Bm.
  pose proof (lookup_lt_Some _ _ _ Hx) as Bx.
  pose proof (lookup_lt_Some _ _ _ Hmod) as Bmod.
  assert (∀ s', env s' !! "pybamm" = Some (VLibrary ["pybamm"]) →
                env s' !! "models" = Some (VRef ms) →
                env s' !! "simulations" = Some (VRef sims) →
                heap s' !! sims = Some (OList xs) →
                touches_only ["model"; "simulation"] [] s s' →
                compare_lists s' ms sims models xs) as Hcut.
  { intros s' E1 E2 E3 E4 U. split; [by split |]. split; [| split; [exact E4 |]].
    - exact (touches_heap _ _ _ _ _ _ U (not_elem_of_nil _) Hm).
    - eapply Forall_impl; [exact Hmodels |]. intros ?. by eapply is_model_untouched. }
  unfold for_body, compare_body. cbn [Nat.add].
  wp_steps. wp_freeze.
  eapply wp_library_call; [lib_apply_step; reflexivity |].
  cbn [env heap trace displayed]. places. wp_raises msg R.
  { exists msg, [Event (new_simulation m) (Failed msg)].
    split; [reflexivity |]. split; [by left |]. split; [reflexivity |].
    match goal with |- compare_lists ?s' _ _ _ _ ∧ _ =>
      assert (touches_only ["model"; "simulation"] [] s s') as U by frame
    end.
    split; [| exact U]. apply Hcut; cbn [env heap]; rewrite ?lookup_insert_ne by done;
      assumption. }
  wp_freeze. wp_steps. wp_freeze.
  eapply wp_library_call; [lib_apply_step; reflexivity |].
  cbn [env heap trace displayed]. places. wp_raises msg R2.
  { eexists msg, [_; _].
    split; [reflexivity |]. split; [right; by eexists |].
    split; [cbn [trace]; by rewrite <- app_assoc |].
    match goal with |- compare_lists ?s' _ _ _ _ ∧ _ =>
      assert (touches_only ["model"; "simulation"] [] s s') as U by frame
    end.
    split; [| exact U]. apply Hcut; cbn [env heap]; rewrite ?lookup_insert_ne by done;
      try assumption. by heap_lookup. }
  wp_freeze. wp_steps.
  eexists _, _. cbn [env heap trace displayed].
  split; [by rewrite <- app_assoc |].
  split; [by apply lookup_ge_None_2 |].
  split; [split; heap_lookup; reflexivity |].
  split.
  - split; [split; cbn [env]; rewrite ?lookup_insert_ne by done; assumption |].
    split; [by heap_lookup |]. split; [by heap_lookup |].
    eapply Forall_impl; [exact Hmodels |]. intros m' (cls' & kws' & Hm').
    exists cls', kws'. unfold loc in *. pose proof (lookup_lt_Some _ _ _ Hm').
    assert (m' ≠ sims) by congruence. by heap_lookup.
  - frame.
Qed.

Lemma compared_events_cons m new todo news :
  compared_events (m :: todo) (new :: news)
  = compare_events m new.1 new.2 ++ compared_events todo news.
Proof. reflexivity. Qed.

(** A solved simulation stays one when only the list is written to. *)
Lemma solved_untouched ids s s' (sims : nat) xs m sim sol :
  heap s !! sims = Some (OList xs) → touches_only ids [sims] s s' →
  solved_simulation s m sim sol → solved_simulation s' m sim sol.
Proof.
  intros Hx U [H1 H2]. unfold loc in *.
  split; (eapply touches_heap;
          [exact U | apply not_elem_of_cons; split; [congruence | apply not_elem_of_nil] |]);
    assumption.
Qed.

(** The turns of the comparison loop over the rest [todo] of the list. *)
Lemma wp_compare_iterate L f ms sims models :
  ∀ todo before n s xs,
    models = before ++ todo → compare_lists s ms sims models xs →
    (length todo < n)%nat →
    wp (iterate n (for_body (exec L (4 + f)) "model" compare_body)
          (IterList ms (length before)))
       (fun _ s' => compare_done ms sims models xs todo s s')
       (fun e s' => compare_stopped ms sims models xs todo s e s') s.
Proof.
  induction todo as [| m todo IH]; intros before n s xs Hm H Hn;
    (destruct n as [| n]; [cbn [length] in Hn; lia |]); cbn [iterate];
    apply wp_bind, wp_get_heap; cbn [iter_next];
    pose proof H as (_ & Hms & Hx & Hmodels); unfold loc in *; rewrite Hms.
  - assert ((VRef <$> models) !! length before = None) as El.
    { rewrite list_lookup_fmap, Hm, app_nil_r, lookup_ge_None_2; done. }
    unfold loc in El. rewrite El.
    apply wp_ret. exists []. unfold compared, compared_events.
    cbn [zip_with concat fmap list_fmap]. rewrite !app_nil_r.
    split; [reflexivity |]. split; [exact H |]. split; [constructor |].
    apply touches_only_refl.
  - assert ((VRef <$> models) !! length before = Some (VRef m)) as El.
    { rewrite list_lookup_fmap, Hm, list_lookup_middle; done. }
    unfold loc in El. rewrite El.
    assert (is_model s m) as Him.
    { rewrite Forall_forall in Hmodels. apply Hmodels. rewrite Hm.
      apply elem_of_app. right. apply elem_of_cons. by left. }
    apply wp_bind. eapply wp_mono; [apply wp_compare_body; [exact H | exact Him] | |].
    + intros [] s1 (sim & sol & Et & Fr & Hsolved & H1 & U1).
      replace (S (length before)) with (length (before ++ [m]))
        by (rewrite length_app; cbn [length]; lia).
      eapply wp_mono;
        [apply (IH (before ++ [m]) n s1 (xs ++ [VRef sim]));
           [by rewrite <- app_assoc | exact H1 | cbn [length] in Hn; lia]
        | |].
      * intros [] s' (news & Et' & H' & O' & U').
        exists ((sim, sol) :: news). unfold compared.
        rewrite compared_events_cons. cbn [fmap list_fmap fst snd].
        rewrite <- !app_assoc in H'.
        split; [by rewrite Et', Et, <- app_assoc |]. split; [exact H' |].
        split; [| by eapply touches_only_trans].
        constructor; [| exact O']. destruct H1 as (_ & _ & Hx1 & _).
        exact (solved_untouched _ _ _ _ _ _ _ _ Hx1 U' Hsolved).
      * intros e s' (before' & m' & after & news & msg & evs
                     & Htodo & -> & Hf & Et' & H' & O' & U').
        exists (m :: before'), m', after, ((sim, sol) :: news), msg, evs.
        rewrite compared_events_cons. cbn [fmap list_fmap fst snd].
        rewrite <- !app_assoc in H'.
        split; [by rewrite Htodo |]. split; [reflexivity |]. split; [exact Hf |].
        split; [by rewrite Et', Et, <- !app_assoc |]. split; [exact H' |].
        split; [| by eapply touches_only_trans].
        constructor; [| exact O']. destruct H1 as (_ & _ & Hx1 & _).
        exact (solved_untouched _ _ _ _ _ _ _ _ Hx1 U' Hsolved).
    + intros e s1 (msg & evs & -> & Hf & Et & H1 & U1).
      exists [], m, todo, [], msg, evs. unfold compared_events.
      cbn [zip_with concat fmap list_fmap app]. rewrite !app_nil_r.
      split; [reflexivity |]. split; [reflexivity |]. split; [exact Hf |].
      split; [exact Et |]. split; [exact H1 |].
      split; [constructor | by apply touches_only_nil].
Qed.

(** The [for] statement of the comparison cell. *)
Lemma wp_compare_loop L f s ms sims models xs :
  compare_lists s ms sims models xs →
  wp (exec L (6 + length models + f) compare_loop)
     (fun _ s' => compare_done ms sims models xs models s s')
     (fun e s' => compare_stopped ms sims models xs models s e s') s.
Proof.
  intros H. pose proof H as ([Hpy Hms Hsims D] & Hm & Hx & Hmodels).
  unfold compare_loop. cbn [Nat.add].
  wp_steps.
  eapply wp_mono;
    [apply (wp_compare_iterate L (S (length models + f)) ms sims models models [] _ s xs);
       [reflexivity | exact H | unfold loc in *; lia]
    | |].
  - intros [] s' Hd. wp_steps. exact Hd.
  - intros e s' Hd. exact Hd.
Qed.

(** ** The loop over the thermal options, from any state *)

Lemma wp_thermal_body L f o s os sols options xs :
  thermal_lists s os sols options xs →
  wp (for_body (exec L (5 + f)) "option" thermal_body (VStr o))
     (fun _ s' => thermal_turn o os sols options xs s s')
     (fun e s' => thermal_cut o os sols options xs s e s') s.
Proof.
  intros ([Hpy Hos Hsols D] & Ho & Hx).
  unfold loc in *.
  pose proof (lookup_lt_Some _ _ _ Ho) as Bo.
  pose proof (lookup_lt_Some _ _ _ Hx) as Bx.
  assert (∀ s', env s' !! "pybamm" = Some (VLibrary ["pybamm"]) →
                env s' !! "thermal_options" = Some (VRef os) →
                env s' !! "solutions" = Some (VRef sols) →
                heap s' !! sols = Some (OList xs) →
                touches_only ["option"; "model"; "simulation"] [] s s' →
                thermal_lists s' os sols options xs) as Hcut.
  { intros s' E1 E2 E3 E4 U. split; [by split |]. split; [| exact E4].
    exact (touches_heap _ _ _ _ _ _ U (not_elem_of_nil _) Ho). }
  unfold for_body, thermal_body. cbn [Nat.add].
  wp_steps. wp_freeze.
  eapply wp_library_call; [lib_apply_step; reflexivity |].
  cbn [env heap trace displayed]. places. wp_raises msg R.
  { exists msg, [Event (thermal_model o) (Failed msg)].
    split; [reflexivity |]. split; [by left |]. split; [reflexivity |].
    match goal with |- thermal_lists ?s' _ _ _ _ ∧ _ =>
      assert (touches_only ["option"; "model"; "simulation"] [] s s') as U by frame
    end.
    split; [| exact U]. apply Hcut; cbn [env heap]; rewrite ?lookup_insert_ne by done;
      try assumption. by heap_lookup. }
  wp_freeze. wp_steps. wp_freeze.
  eapply wp_library_call; [lib_apply_step; reflexivity |].
  cbn [env heap trace displayed]. places. wp_raises msg R2.
  { eexists msg, [_; _].
    split; [reflexivity |]. split; [right; left; by eexists |].
    split; [cbn [trace]; by rewrite <- app_assoc |].
    match goal with |- thermal_lists ?s' _ _ _ _ ∧ _ =>
      assert (touches_only ["option"; "model"; "simulation"] [] s s') as U by frame
    end.
    split; [| exact U]. apply Hcut; cbn [env heap]; rewrite ?lookup_insert_ne by done;
      try assumption. by heap_lookup. }
  wp_freeze. wp_steps. wp_freeze.
  eapply wp_library_call; [lib_apply_step; reflexivity |].
  cbn [env heap trace displayed]. places. wp_raises msg R3.
  { eexists msg, [_; _; _].
    split; [reflexivity |]. split; [right; right; by eexists _, _ |].
    split; [cbn [trace]; by rewrite <- !app_assoc |].
    match goal with |- thermal_lists ?s' _ _ _ _ ∧ _ =>
      assert (touches_only ["option"; "model"; "simulation"] [] s s') as U by frame
    end.
    split; [| exact U]. apply Hcut; cbn [env heap]; rewrite ?lookup_insert_ne by done;
      try assumption. by heap_lookup. }
  wp_freeze. wp_steps.
  lazymatch goal with
  | |- thermal_turn _ _ _ _ _ _
         (State _ _ (((_ ++ [Event _ (Returned (DObject ?a))])
                        ++ [Event _ (Returned (DObject ?b))])
                       ++ [Event _ (Returned (DObject ?c))]) _) =>
      exists (ThermalNew a b c)
  end.
  cbn [env heap trace displayed th_model th_simulation th_solution].
  split; [rewrite <- !app_assoc; reflexivity |].
  split; [apply lookup_ge_None_2; lengths |].
  split; [split; [| split]; cbn [th_model th_simulation th_solution]; heap_lookup;
          reflexivity |].
  split.
  - split; [split; cbn [env]; rewrite ?lookup_insert_ne by done; assumption |].
    split; by heap_lookup.
  - frame.
Qed.

Lemma thermal_loop_events_cons o new todo news :
  thermal_loop_events (o :: todo) (new :: news)
  = thermal_events o new ++ thermal_loop_events todo news.
Proof. reflexivity. Qed.

(** What a turn has made stays when only the list is written to. *)
Lemma thermal_made_untouched ids s s' (sols : nat) xs o new :
  heap s !! sols = Some (OList xs) → touches_only ids [sols] s s' →
  thermal_made s o new → thermal_made s' o new.
Proof.
  intros Hx U (H1 & H2 & H3). unfold loc in *.
  repeat split;
    (eapply touches_heap;
     [exact U | apply not_elem_of_cons; split; [congruence | apply not_elem_of_nil] |]);
    assumption.
Qed.

(** The turns of the loop over the rest [todo] of the options. *)
Lemma wp_thermal_iterate L f os sols options :
  ∀ todo before n s xs,
    options = before ++ todo → thermal_lists s os sols options xs →
    (length todo < n)%nat →
    wp (iterate n (for_body (exec L (5 + f)) "option" thermal_body)
          (IterList os (length before)))
       (fun _ s' => thermal_done os sols options xs todo s s')
       (fun e s' => thermal_stopped os sols options xs todo s e s') s.
Proof.
  induction todo as [| o todo IH]; intros before n s xs Ho H Hn;
    (destruct n as [| n]; [cbn [length] in Hn; lia |]); cbn [iterate];
    apply wp_bind, wp_get_heap; cbn [iter_next];
    pose proof H as (_ & Hos & Hx); unfold loc in *; rewrite Hos.
  - assert ((VStr <$> options) !! length before = None) as ->.
    { rewrite list_lookup_fmap, Ho, app_nil_r, lookup_ge_None_2; done. }
    apply wp_ret. exists []. unfold thermal_turns, thermal_loop_events.
    cbn [zip_with concat fmap list_fmap]. rewrite !app_nil_r.
    split; [reflexivity |]. split; [exact H |]. split; [constructor |].
    apply touches_only_refl.
  - assert ((VStr <$> options) !! length before = Some (VStr o)) as ->.
    { rewrite list_lookup_fmap, Ho, list_lookup_middle; done. }
    apply wp_bind. eapply wp_mono; [apply wp_thermal_body, H | |].
    + intros [] s1 (new & Et & Fr & Hmade & H1 & U1).
      replace (S (length before)) with (length (before ++ [o]))
        by (rewrite length_app; cbn [length]; lia).
      eapply wp_mono;
        [apply (IH (before ++ [o]) n s1 (xs ++ [VRef (th_solution new)]));
           [by rewrite <- app_assoc | exact H1 | cbn [length] in Hn; lia]
        | |].
      * intros [] s' (news & Et' & H' & O' & U').
        exists (new :: news). unfold thermal_turns.
        rewrite thermal_loop_events_cons. cbn [fmap list_fmap].
        rewrite <- !app_assoc in H'.
        split; [by rewrite Et', Et, <- app_assoc |]. split; [exact H' |].
        split; [| by eapply touches_only_trans].
        constructor; [| exact O'].
        destruct H1 as (_ & _ & Hx1).
        exact (thermal_made_untouched _ _ _ _ _ _ _ Hx1 U' Hmade).
      * intros e s' (before' & o' & after & news & msg & evs
                     & Htodo & -> & Hf & Et' & H' & O' & U').
        exists (o :: before'), o', after, (new :: news), msg, evs.
        rewrite thermal_loop_events_cons. cbn [fmap list_fmap].
        rewrite <- !app_assoc in H'.
        split; [by rewrite Htodo |]. split; [reflexivity |]. split; [exact Hf |].
        split; [by rewrite Et', Et, <- !app_assoc |]. split; [exact H' |].
        split; [| by eapply touches_only_trans].
        constructor; [| exact O'].
        destruct H1 as (_ & _ & Hx1).
        exact (thermal_made_untouched _ _ _ _ _ _ _ Hx1 U' Hmade).
    + intros e s1 (msg & evs & -> & Hf & Et & H1 & U1).
      exists [], o, todo, [], msg, evs. unfold thermal_loop_events.
      cbn [zip_with concat fmap list_fmap app]. rewrite !app_nil_r.
      split; [reflexivity |]. split; [reflexivity |]. split; [exact Hf |].
      split; [exact Et |]. split; [exact H1 |].
      split; [constructor | by apply touches_only_nil].
Qed.

(** The [for] statement of the thermal cell. *)
Lemma wp_thermal_loop L f s os sols options xs :
  thermal_lists s os sols options xs →
  wp (exec L (7 + length options + f) thermal_loop)
     (fun _ s' => thermal_done os sols options xs options s s')
     (fun e s' => thermal_stopped os sols options xs options s e s') s.
Proof.
  intros H. pose proof H as ([Hpy Hos Hsols D] & Ho & Hx).
  unfold thermal_loop. cbn [Nat.add].
  wp_steps.
  eapply wp_mono;
    [apply (wp_thermal_iterate L (S (length options + f)) os sols options options [] _ s xs);
       [reflexivity | exact H | unfold loc in *; lia]
    | |].
  - intros [] s' Hd. wp_steps. exact Hd.
  - intros e s' Hd. exact Hd.
Qed.

(** ** The cells, from any state *)

Lemma frozen_none h : frozen h VNone = DNone.
Proof. reflexivity. Qed.

(** A list of library objects is handed over as the list of their
    identities, a list of strings as the list of the strings. *)
Lemma freeze_objects d h (ls : list nat) :
  Forall (fun l => ∃ o, h !! l = Some o ∧ is_library_object o = true) ls →
  map (freeze (S d) h) (VRef <$> ls) = DObject <$> ls.
Proof.
  induction 1 as [| l ls (o & Hl & Ho) _ IH]; [reflexivity |].
  cbn [fmap list_fmap map]. rewrite freeze_S. unfold loc in *. rewrite Hl.
  cbn [fmap list_fmap] in IH. rewrite IH. by destruct o.
Qed.

Lemma returned_app evs evs' :
  Forall (fun ev => is_returned ev = true) evs →
  Forall (fun ev => is_returned ev = true) evs' →
  Forall (fun ev => is_returned ev = true) (evs ++ evs').
Proof. apply Forall_app_2. Qed.

Lemma sweep_events_returned sim a news :
  Forall (fun ev => is_returned ev = true) (sweep_events sim a news).
Proof.
  unfold sweep_events. revert a. induction news as [| sol news IH]; intros a.
  - constructor.
  - cbn [length currents zip_with]. constructor; [reflexivity | apply IH].
Qed.

(** The names the loops bind are not names of built-in functions. *)
Lemma builtin_not_bound ids id :
  id ∈ builtins → Forall (fun x => x ∉ builtins) ids → id ∉ ids.
Proof. intros Hid Hf Hin. rewrite Forall_forall in Hf. exact (Hf _ Hin Hid). Qed.

(** The events logged after those of [s]. *)
Ltac events_after s tr :=
  lazymatch tr with
  | trace s => constr:(@nil event)
  | ?tr' ++ ?evs => let r := events_after s tr' in constr:(r ++ evs)
  end.

(** The exceptional end of a cell, when the library raises in a call
    made after calls that returned. *)
Ltac stopped :=
  lazymatch goal with
  | |- cell_stopped ?s (LibraryError ?msg) (State _ _ (?tr ++ [Event ?c (Failed _)]) _) =>
      let evs := events_after s tr in
      exists msg, evs, c; split; [reflexivity |];
      split; [cbn [trace app]; rewrite <- ?app_assoc; reflexivity |];
      split; [cbn [app]; repeat first [apply Forall_app_2 | assumption | constructor] |];
      split; [reflexivity |];
      let E := fresh in
      intros ? ? E; pose proof (lookup_lt_Some _ _ _ E); unfold loc in *; by heap_lookup
  end.

Lemma wp_cell_sweep L s :
  env s !! "pybamm" = Some (VLibrary ["pybamm"]) → env s !! "range" = None →
  wp (run_cell L fuel cell_sweep)
     (fun _ s' => sweep_cell_done s s') (fun e s' => cell_stopped s e s') s.
Proof.
  intros Hpy Hrange.
  unfold run_cell, cell_sweep, sweep_setup, sweep_plot, fuel. cbn [app].
  wp_steps. wp_freeze.
  eapply wp_library_call; [lib_apply_step; reflexivity |].
  cbn [env heap trace displayed]. places. wp_raises msg R; [stopped |].
  wp_freeze. wp_steps. wp_freeze.
  eapply wp_library_call; [lib_apply_step; reflexivity |].
  cbn [env heap trace displayed]. places. wp_raises msg R2; [stopped |].
  rewrite frozen_none. wp_steps. wp_freeze.
  eapply wp_library_call; [lib_apply_step; reflexivity |].
  cbn [env heap trace displayed]. places. wp_raises msg R3; [stopped |].
  wp_freeze. wp_steps. wp_freeze.
  eapply wp_library_call; [lib_apply_step; reflexivity |].
  cbn [env heap trace displayed]. places. wp_raises msg R4; [stopped |].
  wp_freeze. wp_steps.
  eapply wp_mono; [eapply (wp_sweep_loop L 58) | |].
  - split; [split | split; [| split]].
    + cbn [env]. rewrite ?lookup_insert_ne by done. apply lookup_insert_eq.
    + cbn [env]. rewrite ?lookup_insert_ne by done. apply lookup_insert_eq.
    + cbn [env]. rewrite ?lookup_insert_ne by done. apply lookup_insert_eq.
    + lengths.
    + eexists _, _, _. heap_lookup. reflexivity.
    + heap_lookup. reflexivity.
    + heap_lookup. reflexivity.
  - cbn [env]. rewrite ?lookup_insert_ne by done. exact Hrange.
  - intros r s6 (news & Hlen & Et & Hlists & O & U). cbn [trace] in Et.
    rewrite Hlen in Hlists, O.
    pose proof Hlists as ([Hsim Hsols Hlabs D] & (m6 & p6 & sl6 & Hs6) & Hx & Hy).
    destruct U as (Ue & Uh & Ud). cbn [env heap displayed] in Ue, Uh, Ud.
    assert (env s6 !! "pybamm" = Some (VLibrary ["pybamm"])) as Hpy6.
    { rewrite Ue by (rewrite !not_elem_of_cons; repeat split;
                     [done .. | apply not_elem_of_nil]).
      rewrite ?lookup_insert_ne by done. exact Hpy. }
    assert (∀ l o, heap s !! l = Some o → heap s6 !! l = Some o) as Hframe.
    { intros l o E. pose proof (lookup_lt_Some _ _ _ E). unfold loc in *.
      apply Uh; [| by heap_lookup].
      rewrite !not_elem_of_cons. repeat split; [lengths .. | apply not_elem_of_nil]. }
    unfold loc in *.
    pose proof (lookup_lt_Some _ _ _ Hs6) as Bs.
    pose proof (lookup_lt_Some _ _ _ Hx) as Bx.
    pose proof (lookup_lt_Some _ _ _ Hy) as By.
    wp_steps.
    unfold freeze_keywords. cbn [map fst snd].
    erewrite !frozen_list by eassumption.
    unfold freeze_depth. cbn [pred app].
    rewrite freeze_objects
      by (eapply Forall2_Forall_l; [exact O |]; apply Forall_true;
          intros i sol Hsol; eexists; split; [exact Hsol | reflexivity]).
    cbn [currents fmap list_fmap map freeze].
    eapply wp_library_call; [lib_apply_step; reflexivity |].
    wp_raises msg R5.
    { rewrite Et.
      lazymatch goal with
      | |- cell_stopped ?s (LibraryError ?msg) (State _ _ (?tr ++ [Event ?c (Failed _)]) _) =>
          let evs := events_after s tr in exists msg, evs, c
      end.
      split; [reflexivity |].
      split; [cbn [trace app]; rewrite <- ?app_assoc; reflexivity |].
      split; [cbn [app]; repeat first [apply Forall_app_2 | apply sweep_events_returned
                                      | constructor] |].
      split; [exact Ud | exact Hframe]. }
    erewrite frozen_object by (heap_lookup; reflexivity).
    wp_steps.
    lazymatch type of Et with
    | trace _ = ((((_ ++ [Event _ (Returned (DObject ?pv))]) ++ _)
                    ++ [Event _ (Returned (DObject ?model))])
                   ++ [Event _ (Returned (DObject ?sim))]) ++ _ =>
        lazymatch type of Hsols with
        | _ = Some (VRef ?sols) =>
            lazymatch type of Hlabs with
            | _ = Some (VRef ?labs) =>
                exists pv, model, sim, sols, labs, news, (length (heap s6))
            end
        end
    end.
    cbn [env heap trace displayed].
    split; [rewrite Et, <- ?app_assoc; reflexivity |].
    split; [exact Hlen |].
    split; [apply lookup_ge_None_2; lengths |].
    split; [apply lookup_ge_None_2; lengths |].
    split; [split; [by split | split; [| split]]; cbn [heap];
            rewrite lookup_app_l by assumption; [eauto | exact Hx | exact Hy] |].
    split.
    { refine (Forall2_impl _ _ _ _ O _). intros sol i Hsol. cbn [heap].
      rewrite lookup_app_l by (by eapply lookup_lt_Some). exact Hsol. }
    split; [by rewrite Ud |].
    split.
    { intros id Hid. unfold sweep_cell_names in Hid. rewrite !not_elem_of_cons in Hid.
      destruct Hid as (N1 & N2 & N3 & N4 & N5 & N6 & N7 & _).
      rewrite Ue by (rewrite !not_elem_of_cons; repeat split;
                     [done .. | apply not_elem_of_nil]).
      by rewrite !lookup_insert_ne by done. }
    intros l o E. rewrite lookup_app_l by (eapply lookup_lt_Some, Hframe, E).
    by apply Hframe.
  - intros e s6 (news & msg & Hlen & -> & R5 & Et & Hlists & O & U). cbn [trace] in Et.
    destruct U as (Ue & Uh & Ud). cbn [env heap displayed] in Ue, Uh, Ud.
    lazymatch type of Et with
    | _ = ?tr ++ ?evs ++ [Event ?c _] =>
        let evs0 := events_after s tr in exists msg, (evs0 ++ evs), c
    end.
    split; [reflexivity |].
    split; [rewrite Et; cbn [app]; rewrite <- ?app_assoc; reflexivity |].
    split; [cbn [app]; repeat first [apply Forall_app_2 | apply sweep_events_returned
                                    | constructor] |].
    split; [exact Ud |].
    intros l o E. pose proof (lookup_lt_Some _ _ _ E). unfold loc in *.
    apply Uh; [| by heap_lookup].
    rewrite !not_elem_of_cons. repeat split; [lengths .. | apply not_elem_of_nil].
Qed.

(** The normal end of a cell that has allocated and called, and nothing
    else. *)
Ltac still_imported Hpy Hb :=
  split;
  [ cbn [env]; rewrite ?lookup_insert_ne by done; exact Hpy
  | let Hid := fresh in
    intros ? Hid; cbn [env]; unfold builtins in Hid; rewrite !elem_of_cons in Hid;
    destruct Hid as [-> | [-> | Hid]]; [| | by apply elem_of_nil in Hid];
    rewrite ?lookup_insert_ne by done; apply Hb; by_finding ].

Ltac finished Hpy Hb :=
  lazymatch goal with
  | |- cell_done ?s (State _ _ ?tr _) =>
      let evs := events_after s tr in
      split; [still_imported Hpy Hb |];
      split; [exists evs; split;
              [cbn [trace app]; rewrite <- ?app_assoc; reflexivity
              | cbn [app]; repeat first [apply Forall_app_2 | assumption | constructor]] |];
      split; [eexists; reflexivity |];
      let E := fresh in
      intros ? ? E; pose proof (lookup_lt_Some _ _ _ E); unfold loc in *; by heap_lookup
  end.

(** A call into the library, and the end of the cell if it raises. *)
Ltac wp_call msg R :=
  wp_freeze;
  eapply wp_library_call; [lib_apply_step; reflexivity |];
  cbn [env heap trace displayed]; places; wp_raises msg R; [stopped |];
  rewrite ?frozen_none; wp_freeze.

Lemma wp_cell_model L s :
  imported s →
  wp (run_cell L fuel cell_model) (fun _ s' => cell_done s s')
     (fun e s' => cell_stopped s e s') s.
Proof.
  intros [Hpy Hb]. unfold run_cell, cell_model, fuel.
  wp_steps. wp_call msg R. wp_steps. finished Hpy Hb.
Qed.

Lemma wp_cell_parameters L s :
  imported s →
  wp (run_cell L fuel cell_parameters) (fun _ s' => cell_done s s')
     (fun e s' => cell_stopped s e s') s.
Proof.
  intros [Hpy Hb]. unfold run_cell, cell_parameters, fuel.
  wp_steps. wp_call msg R. wp_steps.
  apply wp_lookup_builtin;
    [cbn [env]; rewrite ?lookup_insert_ne by done; apply Hb; by_finding | by_finding |].
  wp_steps. finished Hpy Hb.
Qed.

(** The names a cell binds, and no other. *)
Ltac env_frame :=
  let Hid := fresh in
  intros ? Hid; cbn [env];
  unfold compare_cell_names, thermal_cell_names, mechanics_cell_names in Hid;
  rewrite ?not_elem_of_cons in Hid;
  rewrite ?lookup_insert_ne by (intros <-; intuition congruence); reflexivity.

Ltac heap_frame :=
  let E := fresh in
  intros ? ? E; pose proof (lookup_lt_Some _ _ _ E); unfold loc in *; by heap_lookup.

(** The object a name leads to. *)
Ltac named :=
  unfold object_named; cbn [env]; rewrite ?lookup_insert_ne by done;
  rewrite lookup_insert_eq; heap_lookup; reflexivity.

Lemma wp_cell_mechanics L s :
  env s !! "pybamm" = Some (VLibrary ["pybamm"]) →
  wp (run_cell L fuel cell_mechanics) (fun _ s' => mechanics_cell_done L s s')
     (fun e s' => cell_stopped s e s') s.
Proof.
  intros Hpy. unfold run_cell, cell_mechanics, fuel.
  wp_steps. wp_call msg R. wp_steps. wp_call msg R2. wp_steps. wp_call msg R3.
  wp_steps. wp_call msg R4. wp_steps. wp_call msg R5. wp_steps.
  lazymatch goal with
  | |- mechanics_cell_done _ _
         (State _ _ (((((_ ++ [Event _ (Returned (DObject ?a))])
                          ++ [Event _ (Returned (DObject ?b))])
                         ++ [Event _ (Returned (DObject ?c))])
                        ++ [Event _ (Returned (DObject ?d))])
                       ++ [Event _ (Returned (DObject ?e))]) _) =>
      exists a, b, c, d, e
  end.
  split.
  { split; [cbn [trace]; rewrite <- ?app_assoc; reflexivity |].
    split; [reflexivity |]. split; [env_frame | heap_frame]. }
  split; [apply lookup_ge_None_2; lengths |].
  split; [apply lookup_ge_None_2; lengths |].
  split; [apply lookup_ge_None_2; lengths |].
  split; [apply lookup_ge_None_2; lengths |].
  split; [named |]. split; [named |]. split; named.
Qed.

(** A cell that has run to its end is done. *)
Lemma cell_ran_done names evs shown s s' :
  imported s → "pybamm" ∉ names → Forall (fun x => x ∉ builtins) names →
  Forall (fun ev => is_returned ev = true) evs →
  cell_ran names evs shown s s' → cell_done s s'.
Proof.
  intros [Hpy Hb] Hn Hnb Hevs (Et & Ed & Ue & Uh).
  split; [| split; [by exists evs | split; [by exists shown | exact Uh]]].
  split.
  - by rewrite Ue.
  - intros id Hid. rewrite Ue; [by apply Hb |]. by apply builtin_not_bound.
Qed.

Lemma compared_events_returned todo news :
  Forall (fun ev => is_returned ev = true) (compared_events todo news).
Proof.
  unfold compared_events. revert news.
  induction todo as [| m todo IH]; intros [| new news]; cbn [zip_with concat];
    try constructor; [reflexivity |]. constructor; [reflexivity | apply IH].
Qed.

Lemma thermal_loop_events_returned todo news :
  Forall (fun ev => is_returned ev = true) (thermal_loop_events todo news).
Proof.
  unfold thermal_loop_events. revert news.
  induction todo as [| o todo IH]; intros [| new news]; cbn [zip_with concat];
    try constructor; [reflexivity |]. repeat (constructor; [reflexivity |]). apply IH.
Qed.

(** The calls of a turn in which the library raised: calls that
    returned, then the call that raised. *)
Lemma compare_failed_last m msg evs :
  compare_failed m msg evs →
  ∃ evs' c, evs = evs' ++ [Event c (Failed msg)]
            ∧ Forall (fun ev => is_returned ev = true) evs'.
Proof.
  intros [-> | [sim ->]].
  - by exists [], (new_simulation m).
  - exists [Event (new_simulation m) (Returned (DObject sim))], (plain_solve sim).
    split; [reflexivity | by repeat constructor].
Qed.

Lemma thermal_failed_last o msg evs :
  thermal_failed o msg evs →
  ∃ evs' c, evs = evs' ++ [Event c (Failed msg)]
            ∧ Forall (fun ev => is_returned ev = true) evs'.
Proof.
  intros [-> | [[m ->] | (m & sim & ->)]].
  - by exists [], (thermal_model o).
  - exists [Event (thermal_model o) (Returned (DObject m))], (new_simulation m).
    split; [reflexivity | by repeat constructor].
  - exists [Event (thermal_model o) (Returned (DObject m));
            Event (new_simulation m) (Returned (DObject sim))], (plain_solve sim).
    split; [reflexivity | by repeat constructor].
Qed.

Lemma wp_cell_compare L s :
  env s !! "pybamm" = Some (VLibrary ["pybamm"]) →
  wp (run_cell L fuel cell_compare) (fun _ s' => compare_cell_done s s')
     (fun e s' => cell_stopped s e s') s.
Proof.
  intros Hpy. unfold run_cell, cell_compare, fuel.
  fold compare_body. fold compare_loop.
  wp_steps. wp_call msg R. wp_steps. wp_call msg R2. wp_steps. wp_call msg R3.
  wp_steps.
  eapply wp_mono; [eapply (wp_compare_loop L 55 _ _ _ [_; _; _] []) | |].
  - split; [split | split; [| split]].
    + cbn [env]. rewrite ?lookup_insert_ne by done. exact Hpy.
    + cbn [env]. rewrite ?lookup_insert_ne by done. apply lookup_insert_eq.
    + cbn [env]. rewrite ?lookup_insert_ne by done. apply lookup_insert_eq.
    + lia.
    + heap_lookup. reflexivity.
    + heap_lookup. reflexivity.
    + repeat constructor; eexists _, _; heap_lookup; reflexivity.
  - intros r s6 (news & Et & Hlists & O & U). cbn [trace] in Et.
    pose proof Hlists as ([Hpy6 Hms Hsims D] & Hm & Hx & Hmodels).
    destruct U as (Ue & Uh & Ud). cbn [env heap displayed] in Ue, Uh, Ud.
    assert (∀ l o, heap s !! l = Some o → heap s6 !! l = Some o) as Hframe.
    { intros l o E. pose proof (lookup_lt_Some _ _ _ E). unfold loc in *.
      apply Uh; [| by heap_lookup].
      rewrite !not_elem_of_cons. repeat split; [lia .. | apply not_elem_of_nil]. }
    unfold loc in *.
    pose proof (lookup_lt_Some _ _ _ Hm) as Bm.
    pose proof (lookup_lt_Some _ _ _ Hx) as Bx.
    wp_steps. unfold freeze_keywords. cbn [map].
    erewrite frozen_list by eassumption.
    unfold freeze_depth. cbn [pred app].
    rewrite freeze_objects
      by (apply Forall_fmap; eapply Forall2_Forall_r; [exact O |]; apply Forall_true;
          intros m new [Hsim _]; eexists; split; [exact Hsim | reflexivity]).
    eapply wp_library_call; [lib_apply_step; reflexivity |].
    wp_raises msg R5.
    { rewrite Et.
      lazymatch goal with
      | |- cell_stopped ?s (LibraryError ?msg) (State _ _ (?tr ++ [Event ?c (Failed _)]) _) =>
          let evs := events_after s tr in exists msg, evs, c
      end.
      split; [reflexivity |].
      split; [cbn [trace app]; rewrite <- ?app_assoc; reflexivity |].
      split; [cbn [app]; repeat first [apply Forall_app_2 | apply compared_events_returned
                                      | constructor] |].
      split; [exact Ud | exact Hframe]. }
    erewrite frozen_object by (heap_lookup; reflexivity).
    wp_steps.
    lazymatch type of Et with
    | trace _ = (((_ ++ [Event _ (Returned (DObject ?spm))])
                    ++ [Event _ (Returned (DObject ?spme))])
                   ++ [Event _ (Returned (DObject ?dfn))]) ++ _ =>
        lazymatch type of Hms with
        | _ = Some (VRef ?ms) =>
            lazymatch type of Hsims with
            | _ = Some (VRef ?sims) =>
                exists spm, spme, dfn, ms, sims, news, (length (heap s6))
            end
        end
    end.
    assert (∀ o0 l o, heap s6 !! l = Some o → (heap s6 ++ [o0]) !! l = Some o)
      as Hmore by (intros o0 l o E; by rewrite lookup_app_l by (by eapply lookup_lt_Some)).
    split.
    { split; [cbn [trace]; rewrite Et, <- ?app_assoc; reflexivity |].
      split; [cbn [displayed]; by rewrite Ud |]. split.
      - intros id Hid. cbn [env]. unfold compare_cell_names in Hid.
        rewrite !not_elem_of_cons in Hid. destruct Hid as (N1 & N2 & N3 & N4 & _).
        rewrite Ue by (rewrite !not_elem_of_cons; repeat split;
                       [done .. | apply not_elem_of_nil]).
        by rewrite !lookup_insert_ne by done.
      - intros l o E. cbn [heap]. by apply Hmore, Hframe. }
    cbn [env heap].
    split; [apply lookup_ge_None_2; lengths |].
    split; [apply lookup_ge_None_2; lengths |].
    split; [apply Hmore, Uh; [| by heap_lookup];
            rewrite !not_elem_of_cons; split; [lia | apply not_elem_of_nil] |].
    split; [apply Hmore, Uh; [| by heap_lookup];
            rewrite !not_elem_of_cons; split; [lia | apply not_elem_of_nil] |].
    split; [apply Hmore, Uh; [| by heap_lookup];
            rewrite !not_elem_of_cons; split; [lia | apply not_elem_of_nil] |].
    split.
    { split; [by split |]. split; [by apply Hmore |]. split; [by apply Hmore |].
      eapply Forall_impl; [exact Hmodels |]. intros m (cm & km & Hcm).
      exists cm, km. by apply Hmore. }
    refine (Forall2_impl _ _ _ _ O _). intros m new [Hs1 Hs2].
    split; by apply Hmore.
  - intros e s6 (before & m & after & news & msg & evs & _ & -> & Hf & Et & _ & _ & U).
    cbn [trace] in Et.
    destruct U as (Ue & Uh & Ud). cbn [env heap displayed] in Ue, Uh, Ud.
    destruct (compare_failed_last _ _ _ Hf) as (evs' & c & -> & Hevs').
    lazymatch type of Et with
    | _ = ?tr ++ ?evs ++ _ ++ [Event _ _] =>
        let evs0 := events_after s tr in exists msg, (evs0 ++ evs ++ evs'), c
    end.
    split; [reflexivity |].
    split; [rewrite Et; cbn [app]; rewrite <- ?app_assoc; reflexivity |].
    split; [cbn [app]; repeat first [apply Forall_app_2 | apply compared_events_returned
                                    | assumption | constructor] |].
    split; [exact Ud |].
    intros l o E. pose proof (lookup_lt_Some _ _ _ E). unfold loc in *.
    apply Uh; [| by heap_lookup].
    rewrite !not_elem_of_cons. repeat split; [lia .. | apply not_elem_of_nil].
Qed.

Lemma wp_cell_thermal L s :
  env s !! "pybamm" = Some (VLibrary ["pybamm"]) →
  wp (run_cell L fuel cell_thermal) (fun _ s' => thermal_cell_done s s')
     (fun e s' => cell_stopped s e s') s.
Proof.
  intros Hpy. unfold run_cell, cell_thermal, fuel.
  fold thermal_body. fold thermal_loop.
  wp_steps.
  eapply wp_mono; [eapply (wp_thermal_loop L 55 _ _ _ thermal_options []) | |].
  - split; [split | split].
    + cbn [env]. rewrite ?lookup_insert_ne by done. exact Hpy.
    + cbn [env]. rewrite ?lookup_insert_ne by done. apply lookup_insert_eq.
    + cbn [env]. rewrite ?lookup_insert_ne by done. apply lookup_insert_eq.
    + lia.
    + heap_lookup. reflexivity.
    + heap_lookup. reflexivity.
  - intros r s6 (news & Et & Hlists & O & U). cbn [trace] in Et.
    pose proof Hlists as ([Hpy6 Hos Hsols D] & Ho & Hx).
    destruct U as (Ue & Uh & Ud). cbn [env heap displayed] in Ue, Uh, Ud.
    assert (∀ l o, heap s !! l = Some o → heap s6 !! l = Some o) as Hframe.
    { intros l o E. pose proof (lookup_lt_Some _ _ _ E). unfold loc in *.
      apply Uh; [| by heap_lookup].
      rewrite !not_elem_of_cons. repeat split; [lia .. | apply not_elem_of_nil]. }
    unfold loc in *.
    pose proof (lookup_lt_Some _ _ _ Ho) as Bo.
    pose proof (lookup_lt_Some _ _ _ Hx) as Bx.
    assert (∀ h l o, heap s6 !! l = Some o → (heap s6 ++ h) !! l = Some o)
      as Hmore by (intros h l o E; by rewrite lookup_app_l by (by eapply lookup_lt_Some)).
    wp_steps. unfold freeze_keywords. cbn [map fst snd].
    lazymatch type of Hsols with
    | _ = Some (VRef ?sols) => erewrite (frozen_list _ sols) by (by apply Hmore)
    end.
    erewrite (frozen_list _ (length (heap s6))) by (heap_lookup; reflexivity).
    unfold freeze_depth. cbn [pred app].
    rewrite freeze_objects
      by (apply Forall_fmap; eapply Forall2_Forall_r; [exact O |]; apply Forall_true;
          intros o new (_ & _ & Hsol); eexists; split; [by apply Hmore | reflexivity]).
    cbn [map freeze].
    eapply wp_library_call; [lib_apply_step; reflexivity |].
    cbn [env heap trace displayed]. wp_raises msg R5.
    { rewrite Et.
      lazymatch goal with
      | |- cell_stopped ?s (LibraryError ?msg) (State _ _ (?tr ++ [Event ?c (Failed _)]) _) =>
          let evs := events_after s tr in exists msg, evs, c
      end.
      split; [reflexivity |].
      split; [cbn [trace app]; rewrite <- ?app_assoc; reflexivity |].
      split; [cbn [app]; repeat first [apply Forall_app_2
                                      | apply thermal_loop_events_returned
                                      | constructor] |].
      split; [cbn [displayed]; exact Ud |].
      intros l o E. cbn [heap]. by apply Hmore, Hframe. }
    erewrite frozen_object by (heap_lookup; reflexivity).
    wp_steps.
    lazymatch type of Hos with
    | _ = Some (VRef ?os) =>
        lazymatch type of Hsols with
        | _ = Some (VRef ?sols) =>
            exists os, sols, news, (length (heap s6 ++ [OList (VStr <$> thermal_variables)]))
        end
    end.
    split.
    { split; [cbn [trace]; rewrite Et, <- ?app_assoc; reflexivity |].
      split; [cbn [displayed]; rewrite Ud; reflexivity |]. split.
      - intros id Hid. cbn [env]. unfold thermal_cell_names in Hid.
        rewrite !not_elem_of_cons in Hid. destruct Hid as (N1 & N2 & N3 & N4 & N5 & _).
        rewrite Ue by (rewrite !not_elem_of_cons; repeat split;
                       [done .. | apply not_elem_of_nil]).
        by rewrite !lookup_insert_ne by done.
      - intros l o E. cbn [heap]. rewrite <- app_assoc. by apply Hmore, Hframe. }
    cbn [env heap]. rewrite <- app_assoc.
    split; [apply lookup_ge_None_2; lengths |].
    split; [apply lookup_ge_None_2; lengths |].
    split.
    { split; [by split |]. split; by apply Hmore. }
    refine (Forall2_impl _ _ _ _ O _). intros o new (Hm1 & Hs1 & Hs2).
    repeat split; by apply Hmore.
  - intros e s6 (before & o & after & news & msg & evs & _ & -> & Hf & Et & _ & _ & U).
    cbn [trace] in Et.
    destruct U as (Ue & Uh & Ud). cbn [env heap displayed] in Ue, Uh, Ud.
    destruct (thermal_failed_last _ _ _ Hf) as (evs' & c & -> & Hevs').
    lazymatch type of Et with
    | _ = trace s ++ ?evs ++ _ ++ [Event _ _] => exists msg, (evs ++ evs'), c
    end.
    split; [reflexivity |].
    split; [rewrite Et; cbn [app]; rewrite <- ?app_assoc; reflexivity |].
    split; [cbn [app]; repeat first [apply Forall_app_2
                                    | apply thermal_loop_events_returned
                                    | assumption | constructor] |].
    split; [exact Ud |].
    intros l o' E. pose proof (lookup_lt_Some _ _ _ E). unfold loc in *.
    apply Uh; [| by heap_lookup].
    rewrite !not_elem_of_cons. repeat split; [lia .. | apply not_elem_of_nil].
Qed.

Lemma mechanics_cell_is_done L s s' : imported s → mechanics_cell_done L s s' → cell_done s s'.
Proof.
  intros Hs (model & pv & sim & sol & plot & Hran & _).
  eapply cell_ran_done; [exact Hs | | | | exact Hran].
  - by_computing.
  - repeat constructor; by_computing.
  - repeat constructor.
Qed.

Lemma compare_cell_is_done s s' : imported s → compare_cell_done s s' → cell_done s s'.
Proof.
  intros Hs (spm & spme & dfn & ms & sims & news & plot & Hran & _).
  eapply cell_ran_done; [exact Hs | | | | exact Hran].
  - by_computing.
  - repeat constructor; by_computing.
  - repeat first [apply Forall_app_2 | apply compared_events_returned | constructor].
Qed.

Lemma thermal_cell_is_done s s' : imported s → thermal_cell_done s s' → cell_done s s'.
Proof.
  intros Hs (os & sols & news & plot & Hran & _).
  eapply cell_ran_done; [exact Hs | | | | exact Hran].
  - by_computing.
  - repeat constructor; by_computing.
  - repeat first [apply Forall_app_2 | apply thermal_loop_events_returned | constructor].
Qed.

Lemma sweep_cell_is_done s s' : imported s → sweep_cell_done s s' → cell_done s s'.
Proof.
  intros [Hpy Hb] (pv & model & sim & sols & labs & news & plot
                   & Et & _ & _ & _ & _ & _ & Ed & Ue & Uh).
  split; [| split; [| split]].
  - split.
    + rewrite Ue; [exact Hpy | by_computing].
    + intros id Hid. rewrite Ue; [by apply Hb |].
      apply (builtin_not_bound _ _ Hid). repeat constructor; by_computing.
  - eexists. split; [exact Et |].
    repeat first [apply Forall_app_2 | apply sweep_events_returned | constructor].
  - by eexists.
  - exact Uh.
Qed.

(** Each of the self-contained cells, run in a state in which the module
    is imported, ends normally or with the exception of the library. *)
Lemma wp_self_contained L c s :
  c ∈ self_contained_cells → imported s →
  wp (run_cell L fuel c) (fun _ s' => cell_done s s') (fun e s' => cell_stopped s e s') s.
Proof.
  intros Hc Hs. unfold self_contained_cells in Hc. rewrite !elem_of_cons in Hc.
  destruct Hc as [E | [E | [E | [E | [E | [E | Hc]]]]]];
    [| | | | | | by apply elem_of_nil in Hc]; rewrite E; clear c E.
  - by apply wp_cell_model.
  - eapply wp_mono; [apply wp_cell_compare, Hs | | auto].
    intros [] s'. by apply compare_cell_is_done.
  - by apply wp_cell_parameters.
  - eapply wp_mono; [apply wp_cell_sweep; [apply Hs | apply Hs; by_finding] | |].
    + intros [] s'. by apply sweep_cell_is_done.
    + auto.
  - eapply wp_mono; [apply wp_cell_thermal, Hs | | auto].
    intros [] s'. by apply thermal_cell_is_done.
  - eapply wp_mono; [apply wp_cell_mechanics, Hs | | auto].
    intros [] s'. by apply mechanics_cell_is_done.
Qed.

(** Self-contained cells one after the other, in any order and any
    number of times. *)
Lemma wp_any_order L p :
  Forall (fun c => c ∈ self_contained_cells) p →
  ∀ s, imported s →
       wp (run_cells L fuel p) (fun _ s' => cells_done (length p) s s')
          (fun e s' => cells_stopped s e s') s.
Proof.
  induction 1 as [| c p Hc _ IH]; intros s Hs; cbn [run_cells length].
  - apply wp_ret. split; [exact Hs |]. split; [| split; [lia | auto]].
    exists []. split; [by rewrite app_nil_r | constructor].
  - apply wp_bind. eapply wp_mono; [by apply wp_self_contained | |].
    + intros [] s1 (Hs1 & (evs1 & Et1 & Hevs1) & (v & Ed1) & Uh1).
      eapply wp_mono; [by apply IH | |].
      * intros [] s' (Hs' & (evs & Et & Hevs) & Ed & Uh).
        split; [exact Hs' |]. split; [| split].
        -- exists (evs1 ++ evs). split; [by rewrite Et, Et1, app_assoc |].
           by apply Forall_app_2.
        -- rewrite Ed, Ed1, length_app. cbn [length]. lia.
        -- auto.
      * intros e s' (msg & evs & c' & -> & Et & Hevs & Uh).
        exists msg, (evs1 ++ evs), c'. split; [reflexivity |].
        split; [by rewrite Et, Et1, <- !app_assoc |].
        split; [by apply Forall_app_2 | auto].
    + intros e s1 (msg & evs & c' & -> & Et & Hevs & _ & Uh).
      by exists msg, evs, c'.
Qed.

(** ** What the other cells need *)

Lemma wp_lookup_unbound id (Q : value → state → Prop) E s :
  env s !! id = None → id ∉ builtins → E (NameError id) s → wp (lookup_name id) Q E s.
Proof.
  intros H Hb HE. unfold wp, lookup_name. by rewrite H, bool_decide_eq_false_2.
Qed.

Lemma wp_raised {A} (m : M A) e s s' :
  wp m (fun _ _ => False) (fun e' s'' => e' = e ∧ s'' = s') s → m s = Raised e s'.
Proof. unfold wp. destruct (m s) as [| e' s'' |]; [done | by intros [-> ->] | done]. Qed.

(** A cell that reads the name [id] before anything else that can fail,
    in a state in which the name is not bound. *)
Ltac unbound H :=
  apply wp_raised; unfold run_cell, fuel; wp_steps;
  apply wp_lookup_unbound; [cbn [env]; rewrite ?lookup_insert_ne by done; exact H
                           | by_computing | ];
  by split.

Lemma cell_solve_unbound L s :
  env s !! "simulation" = None →
  run_cell L fuel cell_solve s = Raised (NameError "simulation") s.
Proof. intros H. unfold cell_solve. unbound H. Qed.

Lemma cell_plot_unbound L s :
  env s !! "simulation" = None →
  run_cell L fuel cell_plot s = Raised (NameError "simulation") s.
Proof. intros H. unfold cell_plot. unbound H. Qed.

Lemma cell_submodels_unbound L s :
  env s !! "model" = None →
  run_cell L fuel cell_submodels s = Raised (NameError "model") s.
Proof. intros H. unfold cell_submodels. unbound H. Qed.

Lemma cell_update_unbound L s :
  env s !! "parameter_values" = None →
  run_cell L fuel cell_update s = Raised (NameError "parameter_values") s.
Proof. intros H. unfold cell_update. unbound H. Qed.

Lemma cell_simulation_unbound L s :
  env s !! "pybamm" = Some (VLibrary ["pybamm"]) → env s !! "model" = None →
  run_cell L fuel cell_simulation s = Raised (NameError "model") s.
Proof. intros Hpy H. unfold cell_simulation. unbound H. Qed.

Ltac missing :=
  split; [reflexivity |]; split; [reflexivity |]; split; [reflexivity |];
  let E := fresh in
  intros ? ? E; pose proof (lookup_lt_Some _ _ _ E); unfold loc in *; by heap_lookup.

(** Without the import, a self-contained cell ends with a NameError for
    [pybamm] before it makes any call. *)
Lemma wp_not_imported L c s :
  c ∈ self_contained_cells → env s !! "pybamm" = None →
  wp (run_cell L fuel c) (fun _ _ => False) (fun e s' => name_missing "pybamm" s e s') s.
Proof.
  intros Hc H. unfold self_contained_cells in Hc. rewrite !elem_of_cons in Hc.
  destruct Hc as [E | [E | [E | [E | [E | [E | Hc]]]]]];
    [| | | | | | by apply elem_of_nil in Hc]; rewrite E; clear c E;
    unfold run_cell, fuel.
  - unfold cell_model. wp_steps.
    apply wp_lookup_unbound; [exact H | by_computing | missing].
  - unfold cell_compare. wp_steps.
    apply wp_lookup_unbound; [exact H | by_computing | missing].
  - unfold cell_parameters. wp_steps.
    apply wp_lookup_unbound; [exact H | by_computing | missing].
  - unfold cell_sweep, sweep_setup. cbn [app]. wp_steps.
    apply wp_lookup_unbound; [exact H | by_computing | missing].
  - unfold cell_thermal. wp_steps. cbn [iterate]. wp_steps. cbn [iter_next].
    unfold loc. heap_lookup. cbn [lookup list_lookup]. unfold for_body. wp_steps.
    apply wp_lookup_unbound;
      [cbn [env]; rewrite ?lookup_insert_ne by done; exact H | by_computing | missing].
  - unfold cell_mechanics. wp_steps.
    apply wp_lookup_unbound; [exact H | by_computing | missing].
Qed.

(** ** Cells that go together *)

(** The exceptional end of a run of cells. *)
Ltac stopped_cells :=
  lazymatch goal with
  | |- cells_stopped ?s (LibraryError ?msg) (State _ _ (?tr ++ [Event ?c (Failed _)]) _) =>
      let evs := events_after s tr in
      exists msg, evs, c; split; [reflexivity |];
      split; [cbn [trace app]; rewrite <- ?app_assoc; reflexivity |];
      split; [cbn [app]; repeat first [apply Forall_app_2 | assumption | constructor] |];
      heap_frame
  end.

Ltac wp_calls msg R :=
  wp_freeze;
  eapply wp_library_call; [lib_apply_step; reflexivity |];
  cbn [env heap trace displayed]; places; wp_raises msg R; [stopped_cells |];
  rewrite ?frozen_none; wp_freeze.

Ltac wp_cells :=
  repeat (progress (cbn [run_cells]; unfold run_cell; wp_steps)).

Lemma wp_cell_import L s :
  wp (run_cell L fuel cell_import) (fun _ s' => import_done s s')
     (fun e s' => cell_stopped s e s') s.
Proof.
  unfold run_cell, cell_import, fuel. wp_steps.
  eapply wp_library_call; [reflexivity |]. wp_raises msg R.
  - exists msg, [], (LibCall (Import "pybamm") [] []). by repeat split.
  - wp_steps. by repeat split.
Qed.

Lemma wp_basic_example L s :
  env s !! "pybamm" = Some (VLibrary ["pybamm"]) →
  wp (run_cells L fuel basic_example) (fun _ s' => basic_example_done s s')
     (fun e s' => cells_stopped s e s') s.
Proof.
  intros Hpy.
  unfold basic_example, cell_model, cell_simulation, cell_solve, cell_plot, fuel.
  wp_cells. wp_calls msg R. wp_cells. wp_calls msg R2. wp_cells. wp_calls msg R3.
  wp_cells. wp_calls msg R4. wp_cells.
  lazymatch goal with
  | |- basic_example_done _
         (State _ _ ((((_ ++ [Event _ (Returned (DObject ?a))])
                         ++ [Event _ (Returned (DObject ?b))])
                        ++ [Event _ (Returned (DObject ?c))])
                       ++ [Event _ (Returned (DObject ?d))]) _) =>
      exists a, b, c, d
  end.
  split; [cbn [trace]; rewrite <- ?app_assoc; reflexivity |].
  split; [cbn [displayed]; rewrite <- ?app_assoc; reflexivity |].
  split; [apply lookup_ge_None_2; lengths |].
  split; [apply lookup_ge_None_2; lengths |].
  split; [named |]. split; [named |]. split; [by heap_lookup |].
  split; [| heap_frame].
  intros id Hid. cbn [env]. rewrite ?not_elem_of_cons in Hid.
  rewrite ?lookup_insert_ne by (intros <-; intuition congruence). reflexivity.
Qed.


(** The import cell, then self-contained cells. *)
Lemma wp_import_then L p s :
  Forall (fun c => c ∈ self_contained_cells) p →
  (∀ id, id ∈ builtins → env s !! id = None) →
  wp (run_cells L fuel (cell_import :: p)) (fun _ s' => cells_done (S (length p)) s s')
     (fun e s' => cells_stopped s e s') s.
Proof.
  intros Hp Hb. cbn [run_cells]. apply wp_bind.
  eapply wp_mono; [apply wp_cell_import | |].
  - intros [] s1 (Et1 & Ed1 & Ee1 & Eh1).
    assert (imported s1) as Hs1.
    { split; rewrite Ee1; [apply lookup_insert_eq |].
      intros id Hid. rewrite lookup_insert_ne; [by apply Hb |].
      intros <-. revert Hid. by_computing. }
    eapply wp_mono; [by apply wp_any_order | |].
    + intros [] s' (Hs' & (evs & Et & Hevs) & Ed & Uh).
      split; [exact Hs' |]. split; [| split].
      * exists ([Event (LibCall (Import "pybamm") [] []) (Returned DOther)] ++ evs).
        split; [by rewrite Et, Et1, <- app_assoc |].
        apply Forall_app_2; [by repeat constructor | exact Hevs].
      * rewrite Ed, Ed1, length_app. cbn [length]. lia.
      * intros l o E. apply Uh. by rewrite Eh1.
    + intros e s' (msg & evs & c' & -> & Et & Hevs & Uh).
      exists msg, ([Event (LibCall (Import "pybamm") [] []) (Returned DOther)] ++ evs), c'.
      split; [reflexivity |].
      split; [by rewrite Et, Et1, <- !app_assoc |].
      split; [apply Forall_app_2; [by repeat constructor | exact Hevs] |].
      intros l o E. apply Uh. by rewrite Eh1.
  - intros e s1 (msg & evs & c' & -> & Et & Hevs & _ & Uh). by exists msg, evs, c'.
Qed.

(** * Properties of the notebooks *)

(** C1.  Every call of a simulation's [solve] method, in both notebooks,
    is made over the time interval [[0, 3600]]: each of the six [solve]
    calls in the code has the list display [[0, 3600]] as its one
    positional argument, and in any run, whatever the library does, each
    [solve] call made receives the list [[0, 3600]]. *)
Theorem solve_over_one_hour :
  (∀ nb, nb ∈ notebooks → parses_as nb program)
  ∧ length (filter (fun c => is_method_call "solve" c = true) (call_sites program)) = 6%nat
  ∧ (∀ c, c ∈ call_sites program → is_method_call "solve" c = true →
       cs_args c = [EList [int 0; int 3600]])
  ∧ (∀ L s c, outcome_state (run L program) = Some s → c ∈ calls s →
       lc_method c = Some "solve" → lc_args c = [span]).
Proof.
  split; [exact program_is_source |]. split; [reflexivity |]. split.
  - refine (each_of _ _ _). vm_compute.
    repeat (constructor; [intros; first [discriminate | reflexivity] |]). constructor.
  - intros L s c Hs Hc.
    destruct (run_calls L s Hs) as [rest E].
    assert (c ∈ calls_of_run) as Hc'.
    { rewrite <- (calls_final L), E. apply elem_of_app. by left. }
    clear - Hc'. revert c Hc'. refine (each_of _ _ _). unfold calls_of_run.
    repeat (constructor; [intros; first [discriminate | reflexivity] |]). constructor.
Qed.

Lemma solve_over_one_hour_witness :
  ∃ s, outcome_state (run failing_library program) = Some s
       ∧ sweep_solve 26 1 ∈ calls s
       ∧ lc_args (sweep_solve 26 1) = [span].
Proof.
  eexists. split; [vm_compute; reflexivity |]. split.
  - by_finding.
  - destruct solve_over_one_hour as (_ & _ & _ & Hrun).
    eapply (Hrun failing_library).
    + vm_compute. reflexivity.
    + by_finding.
    + reflexivity.
Defined.

(** C2, as stated, fails: the first call of [pybamm.Simulation] is given
    the variable [model], which is no literal. *)
Lemma arguments_not_all_literal :
  ¬ (∀ a, a ∈ library_args program → is_literal a = true).
Proof.
  intros H. specialize (H (EName "model")).
  assert (EName "model" ∈ library_args program) as Hin.
  { by_finding. }
  apply H in Hin. discriminate Hin.
Qed.

(** C2, amended.  Every argument the code hands to a library call, and the
    key and value of every item assignment, is a literal, a variable, or
    a dictionary display with literal keys whose values are literals or
    variables; none is computed on the spot (no call, attribute access or
    formatted string stands in an argument); and the time spans of [solve],
    the names of the parameter sets and the keys and values of the item
    assignments are literals. *)
Theorem arguments_literal_or_variable :
  (∀ nb, nb ∈ notebooks → parses_as nb program)
  ∧ (∀ a, a ∈ library_args program → is_plain_arg a = true ∧ is_computed a = false)
  ∧ (∀ c, c ∈ call_sites program →
       is_method_call "solve" c = true ∨ is_method_call "ParameterValues" c = true →
       Forall (fun a => is_literal a = true) (cs_args c))
  ∧ (∀ okv, okv ∈ concat (map stmt_item_assignments (statements program)) →
       is_literal okv.1.2 = true ∧ is_literal okv.2 = true).
Proof.
  split; [exact program_is_source |]. split; [| split].
  - refine (each_of _ _ _). by_computing.
  - refine (each_of _ _ _). by_computing.
  - refine (each_of _ _ _). by_computing.
Qed.

Lemma arguments_literal_or_variable_witness :
  is_plain_arg (EDict [(str "Current function [A]", EName "i")]) = true
  ∧ is_computed (EDict [(str "Current function [A]", EName "i")]) = false.
Proof.
  destruct arguments_literal_or_variable as (_ & H & _).
  apply H. by_finding.
Defined.

(** C3.  No code cell of either notebook has a construct that intercepts a
    failure: the keywords [try], [except], [finally] and [with] occur in
    none.  So, whatever the library does: a run that ends with an
    exception ends with the exception the library raised in the last call
    made, as the library raised it; and a run that ends normally has seen
    every call return. *)
Theorem exceptions_pass_through :
  (∀ nb, nb ∈ notebooks → parses_as nb program)
  ∧ (∀ nb kw, nb ∈ notebooks → kw ∈ interception_keywords → ¬ uses_keyword nb kw)
  ∧ (∀ L e s, run L program = Raised e s →
       ∃ tr c msg, trace s = tr ++ [Event c (Failed msg)]
                   ∧ e = LibraryError msg
                   ∧ lib_raises L tr c = Some msg)
  ∧ (∀ L s, run L program = Ok tt s → Forall (fun ev => is_returned ev = true) (trace s)).
Proof.
  split; [exact program_is_source |]. split; [| split].
  - intros nb kw Hnb. revert kw. refine (each_of _ _ _).
    revert nb Hnb. refine (each_of _ _ _). by_computing.
  - intros L e s E. pose proof (run_any L) as H. revert E H.
    generalize (run L program). intros o -> (tr & c & msg & E1 & E2 & E3 & _).
    by exists tr, c, msg.
  - intros L s E. pose proof (run_steps L program) as H. revert E H.
    generalize (run L program). by intros o ->.
Qed.

Lemma exceptions_pass_through_witness :
  ∃ s tr c, run failing_library program = Raised (LibraryError "SolverError") s
            ∧ trace s = tr ++ [Event c (Failed "SolverError")]
            ∧ lib_raises failing_library tr c = Some "SolverError".
Proof.
  destruct exceptions_pass_through as (_ & _ & H & _).
  destruct (H failing_library (LibraryError "SolverError")
              (match run failing_library program with
               | Raised _ s => s
               | _ => initial
               end)) as (tr & c & msg & E1 & E2 & E3).
  { vm_compute. reflexivity. }
  eexists _, tr, c. split; [vm_compute; reflexivity |].
  injection E2 as <-. by split.
Defined.

(** C4.  The notebooks run as one sequence of library calls, in the order
    construct the model, construct the simulation from it, solve, plot.
    Whatever the library does, in any run: every simulation is
    constructed from a model constructed before; [solve] is only called
    on a simulation constructed before (from a model constructed before
    that); and [plot] and [pybamm.dynamic_plot] are only called on
    simulations that have been solved and on solutions that [solve] has
    returned.  Nothing runs beside this sequence: the calls of a run are
    one list in the order they were made, the code imports no module but
    [pybamm], and the keywords [async] and [await] occur in no code cell.
    A full run constructs eight models and nine simulations, solves
    twelve times and plots eleven objects in five calls. *)
Theorem calls_in_order :
  (∀ nb, nb ∈ notebooks → parses_as nb program)
  ∧ (∀ nb kw, nb ∈ notebooks → kw ∈ concurrency_keywords → ¬ uses_keyword nb kw)
  ∧ concat (map stmt_imports (statements program)) = ["pybamm"]
  ∧ (∀ L s, outcome_state (run L program) = Some s → lifecycle (trace s))
  ∧ (∀ L, length (omap ev_new_model (trace (final L))) = 8%nat
          ∧ length (omap ev_new_simulation (trace (final L))) = 9%nat
          ∧ length (omap ev_solve (trace (final L))) = 12%nat
          ∧ length (filter (fun ev => ev_plotted ev ≠ []) (trace (final L))) = 5%nat
          ∧ length (concat (map ev_plotted (trace (final L)))) = 11%nat).
Proof.
  split; [exact program_is_source |]. split; [| split; [| split]].
  - intros nb kw Hnb. revert kw. refine (each_of _ _ _).
    revert nb Hnb. refine (each_of _ _ _). by_computing.
  - reflexivity.
  - exact run_lifecycle.
  - intros L. conjuncts; by_running.
Qed.

Lemma calls_in_order_witness :
  ∃ s, outcome_state (run failing_library program) = Some s ∧ lifecycle (trace s).
Proof.
  destruct calls_in_order as (_ & _ & _ & H & _).
  eexists. split; [vm_compute; reflexivity |].
  apply (H failing_library). vm_compute. reflexivity.
Defined.

(** C5.  The sweep solves one simulation four times, once for each
    current 1, 2, 3, 4, over [[0, 3600]] with inputs
    [{"Current function [A]": i}].  The calls of the sweep cell are those
    that set it up, which end with the construction of the simulation and
    solve nothing, then the four [solve] calls in this order, then one
    call of [pybamm.dynamic_plot]; that call is given the list of the four
    solutions in the order they were returned, and as [labels] the list
    "Current = 1 [A]" to "Current = 4 [A]" in the same order; these are
    the lists [solutions] and [labels]. *)
Theorem sweep_solves_four_times :
  (∀ nb, nb ∈ notebooks → parses_as nb program)
  ∧ ∀ L, ∃ setup model sim sols plot,
      cell_events L i_sweep
      = setup
          ++ zip_with (fun i sol => Event (sweep_solve sim i) (Returned (DObject sol)))
               sweep_currents sols
          ++ [plot]
      ∧ length sols = 4%nat
      ∧ Forall (fun ev => ev_solve ev = None) setup
      ∧ ev_new_simulation <$> last setup = Some (Some (sim, model))
      ∧ plot = Event (LibCall (Function ["pybamm"; "dynamic_plot"])
                        [DList (DObject <$> sols)]
                        [("labels", DList ((fun i => DStr (sweep_label i)) <$> sweep_currents))])
                     (ev_result plot)
      ∧ list_named (state_at L (S i_sweep) 0) "solutions" = Some (VRef <$> sols)
      ∧ list_named (state_at L (S i_sweep) 0) "labels"
        = Some ((fun i => VStr (sweep_label i)) <$> sweep_currents).
Proof.
  split; [exact program_is_source |]. intros L.
  exists (take 4 (cell_events plain_library i_sweep)), 25%nat, 26%nat,
    [31; 34; 37; 40]%nat, (Event (LibCall (Function ["pybamm"; "dynamic_plot"])
      [DList (DObject <$> [31; 34; 37; 40]%nat)]
      [("labels", DList ((fun i => DStr (sweep_label i)) <$> sweep_currents))])
      (Returned (DObject 41))).
  split; [vm_compute; reflexivity |]. split; [reflexivity |].
  split; [vm_compute; repeat constructor |].
  conjuncts; by_running.
Qed.

(** C7.  The notebooks define nothing of their own: the keywords [def],
    [class] and [lambda] occur in no code cell, the only module imported
    is [pybamm], and every call in the code is a call of a function
    reached from the module [pybamm], of a method [solve] or [plot], of
    the list method [append], or of the built-in [print] or [range]. *)
Theorem nothing_defined :
  (∀ nb, nb ∈ notebooks → parses_as nb program)
  ∧ (∀ nb kw, nb ∈ notebooks → kw ∈ definition_keywords → ¬ uses_keyword nb kw)
  ∧ concat (map stmt_imports (statements program)) = ["pybamm"]
  ∧ (∀ c, c ∈ call_sites program → is_Some (call_kind_of (cs_func c))).
Proof.
  split; [exact program_is_source |]. split; [| split].
  - intros nb kw Hnb. revert kw. refine (each_of _ _ _).
    revert nb Hnb. refine (each_of _ _ _). by_computing.
  - reflexivity.
  - refine (each_of _ _ _). by_computing.
Qed.

Lemma nothing_defined_witness :
  is_Some (call_kind_of (EAttr (EName "labels") "append")).
Proof.
  destruct nothing_defined as (_ & _ & _ & H).
  apply (H (CallSite (EAttr (EName "labels") "append")
              [EFString [FText "Current = "; FValue "i"; FText " [A]"]] [])).
  by_finding.
Defined.

(** C8.  The two notebooks hold the same program: the code cells of
    [src/pybamm.ipynb] and of the second notebook are the same twelve
    cells, with the same source text, in the same order.  Cell for cell
    the second notebook is the first, except that markdown cells may
    differ, followed by one more markdown cell; so whatever syntax is that
    of the one is that of the other, and both are embedded as [program]. *)
Theorem same_code_cells :
  code_cells pybamm_ipynb = code_cells part_000
  ∧ length (code_cells pybamm_ipynb) = 12%nat
  ∧ (∃ body help,
       part_000 = body ++ [markdown help]
       ∧ Forall2 (fun c1 c2 => c1 = c2 ∨ (is_markdown c1 = true ∧ is_markdown c2 = true))
           pybamm_ipynb body)
  ∧ (∀ p, parses_as pybamm_ipynb p ↔ parses_as part_000 p)
  ∧ parses_as pybamm_ipynb program
  ∧ parses_as part_000 program.
Proof.
  assert (code_cells pybamm_ipynb = code_cells part_000) as E
    by (vm_compute; reflexivity).
  split; [exact E |]. split; [vm_compute; reflexivity |]. split; [| split; [| split]].
  - exists (take 26 part_000), (from_option source [] (last part_000)).
    split; [vm_compute; reflexivity | by_computing].
  - intros p. unfold parses_as. by rewrite E.
  - apply program_is_source. by_finding.
  - apply program_is_source. by_finding.
Qed.

(** C9.  When [model.submodels] is evaluated, [model] is bound to the SPM
    model constructed in the sweep cell, not to the DFN model constructed
    in the first model cell: the two are different objects, and what the
    submodels cell displays is the attribute [submodels] of the SPM one. *)
Theorem submodels_of_the_spm_model :
  (∀ nb, nb ∈ notebooks → parses_as nb program)
  ∧ ∀ L, ∃ dfn spm,
      ev_new_model <$> cell_events L i_model = [Some dfn]
      ∧ Some spm ∈ (ev_new_model <$> cell_events L i_sweep)
      ∧ dfn ≠ spm
      ∧ heap (state_at L i_submodels 0) !! dfn = Some (OModel "DFN" [])
      ∧ object_named (state_at L i_submodels 0) "model" = Some (spm, OModel "SPM" [])
      ∧ last (displayed (state_at L (S i_submodels) 0)) = Some (Some (VAttr spm "submodels")).
Proof.
  split; [exact program_is_source |]. intros L. exists 0%nat, 25%nat.
  split; [vm_compute; reflexivity |]. split; [by_finding |]. split; [discriminate |].
  conjuncts; by_running.
Qed.

(** C10.  The sweep loop keeps [solutions] and [labels] equally long.
    Both are empty when the loop starts; each of the four turns appends
    exactly one element to each; the [for] statement is these four turns;
    and when [pybamm.dynamic_plot] is called both have four elements, the
    label at each position naming the current that was the input of the
    [solve] call whose solution is at that position. *)
Theorem sweep_lists_in_step :
  (∀ nb, nb ∈ notebooks → parses_as nb program)
  ∧ ∀ L,
      collected (sweep_entry L) = Some ([], [])
      ∧ (∀ k, (k < 4)%nat → ∃ sols labs sol lab,
           collected_after L k = Some (sols, labs)
           ∧ length sols = k ∧ length labs = k
           ∧ collected_after L (S k) = Some (sols ++ [sol], labs ++ [lab]))
      ∧ sweep_turns L 4 = Ok (IterRange 5 5) (sweep_exit L)
      ∧ exec (quiet L) fuel sweep_loop (sweep_entry L) = Ok None (sweep_exit L)
      ∧ ∃ sim sols labs,
          collected (sweep_exit L) = Some (sols, labs)
          ∧ length sols = 4%nat ∧ length labs = 4%nat
          ∧ ∀ k i, sweep_currents !! k = Some i →
              labs !! k = Some (VStr (sweep_label i))
              ∧ ∃ sol, sols !! k = Some (VRef sol)
                       ∧ heap (sweep_exit L) !! sol
                         = Some (OSolution sim span [("inputs", sweep_inputs i)]).
Proof.
  split; [exact program_is_source |]. intros L.
  split; [by_running |]. split; [| split; [| split]].
  - intros k Hk.
    destruct k as [| [| [| [| k]]]]; [| | | | lia];
      do 4 eexists; conjuncts; by_running.
  - by_running.
  - apply (exec_for (quiet L) (pred fuel) "i" _ sweep_body 4 58
             (VRange 1 5) (IterRange 1 5) (IterRange 5 5));
      [reflexivity | by_running | by_running | by_running | reflexivity].
  - exists 26%nat. do 2 eexists. split; [by_running |].
    split; [reflexivity |]. split; [reflexivity |]. intros k i Hk.
    destruct k as [| [| [| [| k]]]]; [| | | | discriminate Hk];
      injection Hk as <-; (split; [reflexivity |]); eexists;
      (split; [reflexivity | by_running]).
Qed.

Lemma sweep_lists_in_step_witness :
  ∃ sols labs sol lab,
    collected_after plain_library 2 = Some (sols, labs)
    ∧ length sols = 2%nat ∧ length labs = 2%nat
    ∧ collected_after plain_library 3 = Some (sols ++ [sol], labs ++ [lab]).
Proof.
  destruct sweep_lists_in_step as [_ H].
  destruct (H plain_library) as (_ & Hturn & _).
  apply (Hturn 2%nat). lia.
Defined.

(** * Further properties of the notebooks *)



(** X2.  The [for] statement of the sweep, started in any state in which
    [sim] is a simulation, [solutions] and [labels] are two lists and
    [range] has not been rebound, against any library.  Either it ends
    normally after four turns: [solutions] has grown by four solutions,
    those the [solve] calls for the currents 1, 2, 3, 4 returned, in this
    order, and [labels] by the four labels of these currents in the same
    order.  Or the library raised in the [solve] call of one of the
    turns: the statement ends with that exception, and [solutions] and
    [labels] have grown by the solutions and the labels of the turns
    before that one, so that they have grown by as many elements, and no
    further call was made. *)
Theorem sweep_loop_from_any_state L f s sim sols labs xs ys :
  sweep_lists s sim sols labs xs ys → env s !! "range" = None →
  wp (exec L (6 + f) sweep_loop)
     (fun _ s' => sweep_done sim sols labs xs ys 1 4 s s')
     (fun e s' => sweep_stopped L sim sols labs xs ys 1 4 s e s')
     s.
Proof. exact (wp_sweep_loop L f s sim sols labs xs ys). Qed.

Lemma sweep_loop_from_any_state_witness :
  sweep_lists (sweep_entry failing_library) 26 27 28 [] []
  ∧ env (sweep_entry failing_library) !! "range" = None
  ∧ wp (exec failing_library (6 + 58) sweep_loop)
       (fun _ s' => sweep_done 26 27 28 [] [] 1 4 (sweep_entry failing_library) s')
       (fun e s' =>
          sweep_stopped failing_library 26 27 28 [] [] 1 4
            (sweep_entry failing_library) e s')
       (sweep_entry failing_library).
Proof.
  assert (sweep_lists (sweep_entry failing_library) 26 27 28 [] []) as H.
  { split; [split; [by_running .. | discriminate] |].
    split; [eexists _, _, _; by_running |]. split; by_running. }
  assert (env (sweep_entry failing_library) !! "range" = None) as Hr by by_running.
  split; [exact H |]. split; [exact Hr |].
  exact (sweep_loop_from_any_state failing_library 58 _ _ _ _ _ _ H Hr).
Defined.

(** X3.  The sweep cell, run in any state of a kernel in which [pybamm]
    is the imported module and [range] has not been rebound, against any
    library.  Either it ends normally: it has made its four calls of
    setting up, the four [solve] calls and the call of
    [pybamm.dynamic_plot], in this order, and all returned; [solutions]
    and [labels] are lists that were not in the store before, and hold
    the four solutions and the four labels, whatever the names were bound
    to before; the cell shows the plot; it has bound no name but its
    seven; and it has written to no object that was in the store before.
    Or the library raised in one of the calls: the cell ends with that
    exception after calls that returned, shows nothing, and has written
    to no object that was in the store before. *)
Theorem sweep_cell_from_any_state L s :
  env s !! "pybamm" = Some (VLibrary ["pybamm"]) → env s !! "range" = None →
  wp (run_cell L fuel cell_sweep)
     (fun _ s' => sweep_cell_done s s')
     (fun e s' => cell_stopped s e s')
     s.
Proof. exact (wp_cell_sweep L s). Qed.

Lemma sweep_cell_from_any_state_witness :
  env (final plain_library) !! "pybamm" = Some (VLibrary ["pybamm"])
  ∧ env (final plain_library) !! "range" = None
  ∧ wp (run_cell plain_library fuel cell_sweep)
       (fun _ s' => sweep_cell_done (final plain_library) s')
       (fun e s' => cell_stopped (final plain_library) e s')
       (final plain_library).
Proof.
  assert (env (final plain_library) !! "pybamm" = Some (VLibrary ["pybamm"])) as H
      by by_running.
  assert (env (final plain_library) !! "range" = None) as Hr by by_running.
  split; [exact H |]. split; [exact Hr |].
  exact (sweep_cell_from_any_state plain_library _ H Hr).
Defined.

(** X4.  The [for] statement of the comparison cell, started in any state
    in which [pybamm] is the module, [models] is a list of models of any
    length and [simulations] is another list, against any library.
    Either it ends normally: for each model of the list, in the order of
    the list, it has constructed a simulation of that model and solved it
    over [[0, 3600]], and [simulations] has grown by these simulations in
    this order, each holding its solution.  Or the library raised when a
    simulation was constructed or solved: the statement ends with that
    exception, and [simulations] has grown by the simulations of the
    models before that one and by no other, so that it never holds a
    simulation that has not been solved.  In both cases the statement has
    bound no name but [model] and [simulation], and has written to no
    object that was there but the list [simulations]. *)
Theorem compare_loop_from_any_state :
  cell_compare !! 2%nat = Some compare_loop
  ∧ ∀ L f s ms sims models xs,
      compare_lists s ms sims models xs →
      wp (exec L (6 + length models + f) compare_loop)
         (fun _ s' => compare_done ms sims models xs models s s')
         (fun e s' => compare_stopped ms sims models xs models s e s')
         s.
Proof. split; [reflexivity |]. exact wp_compare_loop. Qed.

Lemma compare_loop_from_any_state_witness :
  compare_lists (state_at plain_library i_compare 2) 8 9 [5; 6; 7]%nat []
  ∧ wp (exec plain_library (6 + 3 + 55) compare_loop)
       (fun _ s' =>
          compare_done 8 9 [5; 6; 7]%nat [] [5; 6; 7]%nat
            (state_at plain_library i_compare 2) s')
       (fun e s' =>
          compare_stopped 8 9 [5; 6; 7]%nat [] [5; 6; 7]%nat
            (state_at plain_library i_compare 2) e s')
       (state_at plain_library i_compare 2).
Proof.
  assert (compare_lists (state_at plain_library i_compare 2) 8 9 [5; 6; 7]%nat []) as H.
  { split; [split; [by_running .. | discriminate] |].
    split; [by_running |]. split; [by_running |].
    repeat constructor; eexists _, _; by_running. }
  split; [exact H |].
  destruct compare_loop_from_any_state as [_ Hloop].
  exact (Hloop plain_library 55 _ _ _ _ _ H).
Defined.

(** X5.  The comparison cell, run in any state of a kernel in which
    [pybamm] is the imported module, whatever the other names are bound
    to, against any library.  Either it ends
    normally: it has constructed an SPM, an SPMe and a DFN model, in this
    order, and then for each of them, in the same order, a simulation,
    which it has solved over [[0, 3600]]; [models] and [simulations] are
    lists that were not in the store before, of the three models and of
    the three simulations, whatever the names were bound to before;
    [pybamm.dynamic_plot] was called last, with the list of the three
    simulations, each of them solved; the cell shows the plot; it has
    bound no name but its four; and it has written to no object that was
    in the store before.  Or the library raised in one of the calls: the
    cell ends with that exception after calls that returned, shows
    nothing, and has written to no object that was in the store before. *)
Theorem compare_cell_from_any_state L s :
  env s !! "pybamm" = Some (VLibrary ["pybamm"]) →
  wp (run_cell L fuel cell_compare)
     (fun _ s' => compare_cell_done s s')
     (fun e s' => cell_stopped s e s')
     s.
Proof. exact (wp_cell_compare L s). Qed.

Lemma compare_cell_from_any_state_witness :
  env rebound_kernel !! "pybamm" = Some (VLibrary ["pybamm"])
  ∧ wp (run_cell plain_library fuel cell_compare)
       (fun _ s' => compare_cell_done rebound_kernel s')
       (fun e s' => cell_stopped rebound_kernel e s')
       rebound_kernel.
Proof.
  assert (env rebound_kernel !! "pybamm" = Some (VLibrary ["pybamm"])) as H
    by by_running.
  split; [exact H |]. exact (compare_cell_from_any_state plain_library _ H).
Defined.

(** X6.  The [for] statement of the thermal cell, started in any state in
    which [pybamm] is the module, [thermal_options] is a list of strings
    of any length and [solutions] is another list, against any library.
    Either it ends normally: for each option of the list, in the order of
    the list, it has constructed a DFN model with the option as its
    [name] and [{"thermal": option}] as its [options], a simulation of
    that model, and solved it over [[0, 3600]], and [solutions] has grown
    by the solutions in this order.  Or the library raised in one of the
    three calls of a turn: the statement ends with that exception, and
    [solutions] has grown by the solutions of the options before that one
    and by no other.  In both cases the statement has bound no name but
    [option], [model] and [simulation], and has written to no object that
    was there but the list [solutions]. *)
Theorem thermal_loop_from_any_state :
  cell_thermal !! 2%nat = Some thermal_loop
  ∧ ∀ L f s os sols options xs,
      thermal_lists s os sols options xs →
      wp (exec L (7 + length options + f) thermal_loop)
         (fun _ s' => thermal_done os sols options xs options s s')
         (fun e s' => thermal_stopped os sols options xs options s e s')
         s.
Proof. split; [reflexivity |]. exact wp_thermal_loop. Qed.

Lemma thermal_loop_from_any_state_witness :
  thermal_lists (state_at plain_library i_thermal 2) 42 43 thermal_options []
  ∧ wp (exec plain_library (7 + 2 + 55) thermal_loop)
       (fun _ s' =>
          thermal_done 42 43 thermal_options [] thermal_options
            (state_at plain_library i_thermal 2) s')
       (fun e s' =>
          thermal_stopped 42 43 thermal_options [] thermal_options
            (state_at plain_library i_thermal 2) e s')
       (state_at plain_library i_thermal 2).
Proof.
  assert (thermal_lists (state_at plain_library i_thermal 2) 42 43
            thermal_options []) as H.
  { split; [split; [by_running .. | discriminate] |]. split; by_running. }
  split; [exact H |].
  destruct thermal_loop_from_any_state as [_ Hloop].
  exact (Hloop plain_library 55 _ _ _ _ _ H).
Defined.

(** X7.  The thermal cell, run in any state of a kernel in which [pybamm]
    is the imported module, whatever the other names are bound to,
    against any library.  Either it ends
    normally: for the options "isothermal" and "x-full", in this order,
    it has constructed a DFN model with the option as its [name] and
    [{"thermal": option}] as its [options], and a simulation of it, which
    it has solved over [[0, 3600]]; [thermal_options] and [solutions] are
    lists that were not in the store before, of the two options and of
    the two solutions, so that a list [solutions] of an earlier cell is
    left as it was; [pybamm.dynamic_plot] was called last, with the list
    of the two solutions and the nine output variables; the cell shows
    the plot; it has bound no name but its five; and it has written to no
    object that was in the store before.  Or the library raised in one of
    the calls: the cell ends with that exception after calls that
    returned, shows nothing, and has written to no object that was in the
    store before. *)
Theorem thermal_cell_from_any_state L s :
  env s !! "pybamm" = Some (VLibrary ["pybamm"]) →
  wp (run_cell L fuel cell_thermal)
     (fun _ s' => thermal_cell_done s s')
     (fun e s' => cell_stopped s e s')
     s.
Proof. exact (wp_cell_thermal L s). Qed.

Lemma thermal_cell_from_any_state_witness :
  env rebound_kernel !! "pybamm" = Some (VLibrary ["pybamm"])
  ∧ wp (run_cell plain_library fuel cell_thermal)
       (fun _ s' => thermal_cell_done rebound_kernel s')
       (fun e s' => cell_stopped rebound_kernel e s')
       rebound_kernel.
Proof.
  assert (env rebound_kernel !! "pybamm" = Some (VLibrary ["pybamm"])) as H
    by by_running.
  split; [exact H |]. exact (thermal_cell_from_any_state plain_library _ H).
Defined.

(** X8.  The mechanics cell, run in any state of a kernel in which
    [pybamm] is the imported module, whatever the other names are bound
    to, against any library.  Either it ends
    normally: it has made five calls, which all returned: it constructed
    a DFN model with the options
    [{"particle mechanics": ("swelling only", "swelling and cracking")}],
    the parameter set "Ai2020", a simulation of that model with that
    parameter set, solved it over [[0, 3600]], and called [plot] on the
    solution that [solve] returned, with the list of the eight variables;
    the model, the parameter set, the simulation and the solution were
    not in the store before and are what [model], [parameter_values],
    [simulation] and [solution] are bound to; the cell shows the plot; it
    has bound no name but these four; and it has written to no object
    that was in the store before.  Or the library raised in one of the
    calls: the cell ends with that exception after calls that returned,
    shows nothing, and has written to no object that was in the store
    before. *)
Theorem mechanics_cell_from_any_state L s :
  env s !! "pybamm" = Some (VLibrary ["pybamm"]) →
  wp (run_cell L fuel cell_mechanics)
     (fun _ s' => mechanics_cell_done L s s')
     (fun e s' => cell_stopped s e s')
     s.
Proof. exact (wp_cell_mechanics L s). Qed.

Lemma mechanics_cell_from_any_state_witness :
  env rebound_kernel !! "pybamm" = Some (VLibrary ["pybamm"])
  ∧ wp (run_cell failing_library fuel cell_mechanics)
       (fun _ s' => mechanics_cell_done failing_library rebound_kernel s')
       (fun e s' => cell_stopped rebound_kernel e s')
       rebound_kernel.
Proof.
  assert (env rebound_kernel !! "pybamm" = Some (VLibrary ["pybamm"])) as H
    by by_running.
  split; [exact H |]. exact (mechanics_cell_from_any_state failing_library _ H).
Defined.

(** X9.  Six cells of the program read no name but [pybamm], names they
    have bound themselves, and the built-in functions: the model cell,
    the comparison cell, the parameters cell, the sweep cell, the thermal
    cell and the mechanics cell.  Run one after the other in any order
    and any number of times, in any state of a kernel in which [pybamm]
    is the imported module and the built-in functions have not been
    rebound, against any library, they never end with an exception of
    their own: either all run to their end, every call having returned
    and each cell having shown one value or none, or the library raised
    in a call and the run ends with that exception.  In both cases no
    object that was in the store before has been written to, and when the
    cells have run to their end the module is still imported.  The same
    holds of the import cell followed by such cells, run in any state in
    which the built-in functions have not been rebound, as in a fresh
    kernel. *)
Theorem self_contained_cells_in_any_order :
  (∀ c, c ∈ self_contained_cells → c ∈ program)
  ∧ (∀ L p s,
       Forall (fun c => c ∈ self_contained_cells) p → imported s →
       wp (run_cells L fuel p)
          (fun _ s' => cells_done (length p) s s')
          (fun e s' => cells_stopped s e s')
          s)
  ∧ (∀ L p s,
       Forall (fun c => c ∈ self_contained_cells) p →
       (∀ id, id ∈ builtins → env s !! id = None) →
       wp (run_cells L fuel (cell_import :: p))
          (fun _ s' => cells_done (S (length p)) s s')
          (fun e s' => cells_stopped s e s')
          s).
Proof.
  split; [| split].
  - refine (each_of _ _ _). repeat constructor; by_finding.
  - intros L p s Hp Hs. exact (wp_any_order L p Hp s Hs).
  - intros L p s Hp Hs. exact (wp_import_then L p s Hp Hs).
Qed.

Lemma self_contained_cells_in_any_order_witness :
  imported (state_at plain_library 1 0)
  ∧ wp (run_cells failing_library fuel [cell_thermal; cell_model; cell_sweep; cell_sweep])
       (fun _ s' => cells_done 4 (state_at plain_library 1 0) s')
       (fun e s' => cells_stopped (state_at plain_library 1 0) e s')
       (state_at plain_library 1 0)
  ∧ wp (run_cells plain_library fuel [cell_import; cell_mechanics; cell_compare])
       (fun _ s' => cells_done 3 initial s')
       (fun e s' => cells_stopped initial e s')
       initial.
Proof.
  assert (imported (state_at plain_library 1 0)) as H.
  { split; [by_running |]. refine (each_of _ _ _). repeat constructor; by_running. }
  split; [exact H |].
  destruct self_contained_cells_in_any_order as (_ & Hrun & Himport).
  split.
  - apply (Hrun failing_library [cell_thermal; cell_model; cell_sweep; cell_sweep]);
      [| exact H].
    repeat constructor; by_finding.
  - apply (Himport plain_library [cell_mechanics; cell_compare] initial).
    + repeat constructor; by_finding.
    + intros id _. reflexivity.
Defined.

(** X10.  Without the import the self-contained cells do nothing: run in
    any state in which [pybamm] is not bound, against any library, each
    of them ends with a NameError for [pybamm] before it has made any
    call; it shows nothing and has written to no object that was in the
    store. *)
Theorem self_contained_cells_need_the_import L c s :
  c ∈ self_contained_cells → env s !! "pybamm" = None →
  wp (run_cell L fuel c)
     (fun _ _ => False)
     (fun e s' => name_missing "pybamm" s e s')
     s.
Proof. exact (wp_not_imported L c s). Qed.

Lemma self_contained_cells_need_the_import_witness :
  wp (run_cell plain_library fuel cell_thermal)
     (fun _ _ => False)
     (fun e s' => name_missing "pybamm" initial e s')
     initial.
Proof.
  apply (self_contained_cells_need_the_import plain_library cell_thermal initial).
  - by_finding.
  - reflexivity.
Defined.

(** X11.  The other code cells read a name that another cell binds, and
    end with a NameError for it, in the state they were started in and
    without any call, when they are run in a state in which it is not
    bound, against any library: the solve cell and the plot cell read
    [simulation]; the submodels cell reads [model]; the simulation cell,
    with [pybamm] imported, reads [model]; and the update cell reads
    [parameter_values] first. *)
Theorem dependent_cells_need_their_names L s :
  (env s !! "simulation" = None →
     run_cell L fuel cell_solve s = Raised (NameError "simulation") s
     ∧ run_cell L fuel cell_plot s = Raised (NameError "simulation") s)
  ∧ (env s !! "model" = None →
       run_cell L fuel cell_submodels s = Raised (NameError "model") s
       ∧ (env s !! "pybamm" = Some (VLibrary ["pybamm"]) →
            run_cell L fuel cell_simulation s = Raised (NameError "model") s))
  ∧ (env s !! "parameter_values" = None →
       run_cell L fuel cell_update s = Raised (NameError "parameter_values") s).
Proof.
  split; [| split].
  - intros H. split; [by apply cell_solve_unbound | by apply cell_plot_unbound].
  - intros H. split; [by apply cell_submodels_unbound |].
    intros Hpy. by apply cell_simulation_unbound.
  - intros H. by apply cell_update_unbound.
Qed.

Lemma dependent_cells_need_their_names_witness :
  run_cell plain_library fuel cell_solve (state_at plain_library 1 0)
  = Raised (NameError "simulation") (state_at plain_library 1 0)
  ∧ run_cell plain_library fuel cell_simulation (state_at plain_library 1 0)
    = Raised (NameError "model") (state_at plain_library 1 0)
  ∧ run_cell plain_library fuel cell_update (state_at plain_library 1 0)
    = Raised (NameError "parameter_values") (state_at plain_library 1 0).
Proof.
  destruct (dependent_cells_need_their_names plain_library (state_at plain_library 1 0))
    as (H1 & H2 & H3).
  destruct H1 as [Hsolve _]; [by_running |].
  destruct H2 as [_ Hsim]; [by_running |].
  split; [exact Hsolve |]. split; [exact (Hsim ltac:(by_running)) |].
  exact (H3 ltac:(by_running)).
Defined.

(** X12.  Which calls Run All makes does not depend on what the library
    record leaves open: which calls raise, given the calls made so far,
    and what the named parameter sets contain.  What a call returns when
    it does not raise is fixed by the library model [lib_apply], and is
    not varied here.  A run that ends normally has made the same forty
    logged calls, in the same order and with the same arguments: the
    import, the calls of the module's classes and functions, of [solve]
    and [plot], and the item assignments on a parameter set; the
    conversions to text that [print] and the display of a cell's value
    ask of an object are not logged, and not counted.  A run that ends
    with an exception has made the first of these calls up to the one in
    which the library raised, and none after it.  Run All never runs out
    of fuel. *)
Theorem calls_do_not_depend_on_which_calls_raise :
  length calls_of_run = 40%nat
  ∧ (∀ L s, run L program = Ok tt s → calls s = calls_of_run)
  ∧ (∀ L e s, run L program = Raised e s →
       ∃ n, (n < 40)%nat ∧ calls s = take (S n) calls_of_run)
  ∧ (∀ L, run L program ≠ OutOfFuel).
Proof.
  split; [reflexivity |]. split; [| split].
  - intros L s E. pose proof (run_any L) as H. revert E H.
    generalize (run L program). intros o -> ->. apply calls_final.
  - intros L e s E. pose proof (run_any L) as H. pose proof (calls_final L) as Hc.
    revert E H Hc. generalize (run L program) (final L).
    intros o sf -> (tr & c & msg & E1 & _ & _ & H) Hc.
    destruct (H sf eq_refl) as (r & rest & E2).
    unfold calls in *. rewrite E2, map_app in Hc. cbn [map ev_call] in Hc.
    exists (length tr). split.
    + apply (f_equal length) in Hc. rewrite length_app, length_map in Hc.
      cbn [length] in Hc. change (length calls_of_run) with 40%nat in Hc. lia.
    + rewrite E1, map_app, <- Hc. cbn [map ev_call].
      rewrite take_app, take_ge by (rewrite length_map; lia). rewrite length_map.
      by replace (S (length tr) - length tr)%nat with 1%nat by lia.
  - intros L E. pose proof (run_any L) as H. by rewrite E in H.
Qed.

Lemma calls_do_not_depend_on_which_calls_raise_witness :
  ∃ s n, run failing_library program = Raised (LibraryError "SolverError") s
         ∧ (n < 40)%nat ∧ calls s = take (S n) calls_of_run.
Proof.
  destruct calls_do_not_depend_on_which_calls_raise as (_ & _ & H & _).
  destruct (H failing_library (LibraryError "SolverError")
              (match run failing_library program with
               | Raised _ s => s
               | _ => initial
               end)) as (n & Hn & E).
  { by_running. }
  eexists _, n. split; [by_running |]. by split.
Defined.

(** X13.  The loop variable of the comparison cell outlives the loop.
    When the update cell constructs its simulation from [model], the
    name is bound to the last model of the list [models], the DFN model
    the comparison cell constructed third, and not to the DFN model of
    the model cell: they are two objects, and the simulation of the
    update cell is constructed from the first of them. *)
Theorem update_simulates_the_last_compared_model :
  (∀ nb, nb ∈ notebooks → parses_as nb program)
  ∧ ∀ L, ∃ first spm spme dfn models pv sim,
      ev_new_model <$> cell_events L i_model = [Some first]
      ∧ take 3 (cell_events L i_compare)
        = [ Event (LibCall (Function ["pybamm"; "lithium_ion"; "SPM"]) [] [])
              (Returned (DObject spm));
            Event (LibCall (Function ["pybamm"; "lithium_ion"; "SPMe"]) [] [])
              (Returned (DObject spme));
            Event (LibCall (Function ["pybamm"; "lithium_ion"; "DFN"]) [] [])
              (Returned (DObject dfn)) ]
      ∧ object_named (state_at L (S i_compare) 0) "models"
        = Some (models, OList [VRef spm; VRef spme; VRef dfn])
      ∧ object_named (state_at L i_update 0) "model" = Some (dfn, OModel "DFN" [])
      ∧ dfn ≠ first
      ∧ cell_events L i_update !! 1%nat
        = Some (Event (LibCall (Function ["pybamm"; "Simulation"]) [DObject dfn]
                         [("parameter_values", DObject pv)])
                      (Returned (DObject sim))).
Proof.
  split; [exact program_is_source |]. intros L.
  exists 0%nat, 5%nat, 6%nat, 7%nat, 8%nat, 20%nat, 21%nat.
  split; [by_running |]. split; [by_running |]. split; [by_running |].
  split; [by_running |]. split; [discriminate |]. by_running.
Qed.

(** X14.  The first example, the model cell, the simulation cell, the
    solve cell and the plot cell run in this order, in any state of a
    kernel in which [pybamm] is the imported module, whatever the other
    names are bound to, against any library.
    Either the four cells run to their end: they have made four calls,
    which all returned: a DFN model was constructed, a simulation of that
    model, [solve] was called on that simulation over [[0, 3600]], and
    then [plot] on the same simulation, which holds the solution that
    [solve] returned; the model and the simulation were not in the store
    before and are what [model] and [simulation] are bound to; the cells
    show nothing, nothing, the solution and the plot; they have bound no
    other name, and written to no object that was in the store before.
    Or the library raised in one of the calls: the run ends with that
    exception after calls that returned, and has written to no object
    that was in the store before. *)
Theorem basic_example_from_any_state :
  (∃ rest, program = cell_import :: basic_example ++ rest)
  ∧ ∀ L s,
      env s !! "pybamm" = Some (VLibrary ["pybamm"]) →
      wp (run_cells L fuel basic_example)
         (fun _ s' => basic_example_done s s')
         (fun e s' => cells_stopped s e s')
         s.
Proof. split; [by eexists | exact wp_basic_example]. Qed.

Lemma basic_example_from_any_state_witness :
  env rebound_kernel !! "pybamm" = Some (VLibrary ["pybamm"])
  ∧ wp (run_cells failing_library fuel basic_example)
       (fun _ s' => basic_example_done rebound_kernel s')
       (fun e s' => cells_stopped rebound_kernel e s')
       rebound_kernel.
Proof.
  assert (env rebound_kernel !! "pybamm" = Some (VLibrary ["pybamm"])) as H
    by by_running.
  split; [exact H |].
  destruct basic_example_from_any_state as [_ Hrun].
  exact (Hrun failing_library _ H).
Defined.


